(** * WebRTC signaling endpoints (receiver.c / sender.c): shallow embedding

    The repository holds two GLib programs that negotiate one WebRTC stream
    through a websocket relay: [receiver.c] (answers an SDP offer, attaches
    the inbound H.264 stream) and [sender.c] (creates the SDP offer).  Both
    only glue three external libraries together: libsoup (websocket),
    json-glib (wire format) and GStreamer's webrtcbin (the media engine).

    The embedding keeps the programs' shape: the process-wide globals are a
    record threaded through every callback, each callback returns the list
    of library calls it makes (its trace) and, where C would dereference
    NULL or fail a [g_assert], no result at all.  The libraries themselves
    are not part of the repository: json-glib's parser and generator are a
    type class, its accessors are modelled after their implementation. *)

From Stdlib Require Import ZArith List String Ascii Bool Lia.
From Stdlib Require Import DecimalString DecimalZ DecimalPos.
Import ListNotations.
Open Scope Z_scope.
Open Scope string_scope.
Open Scope list_scope.

(** ** Machine integers *)

(** [guint] and [gint] are 32 bits wide; [gint64] members of a JSON object
    hold every value that appears here, so they stay plain [Z]. *)
Definition to_guint (z : Z) : Z := z mod 2 ^ 32.
Definition to_gint (z : Z) : Z := (z + 2 ^ 31) mod 2 ^ 32 - 2 ^ 31.

Definition is_guint (z : Z) : Prop := 0 <= z < 2 ^ 32.

(** ** C strings *)

(** [g_strndup (data, size)] followed by a parse with length [-1]: what the
    parser sees of a frame ends at the first NUL byte. *)
Fixpoint g_strndup (data : string) : string :=
  match data with
  | EmptyString => EmptyString
  | String c rest =>
      if Ascii.eqb c zero then EmptyString else String c (g_strndup rest)
  end.

(** [g_strcmp0 (a, b) == 0], where either side may be NULL. *)
Definition g_strcmp0_eq (a : option string) (b : string) : bool :=
  match a with
  | Some s => String.eqb s b
  | None => false
  end.

(** [g_str_has_prefix (str, prefix)]. *)
Definition g_str_has_prefix (str pre : string) : bool := String.prefix pre str.

(** ** json-glib *)

#[warnings="-register-all"]
Inductive JsonNode : Type :=
| JSON_NULL
| JSON_BOOLEAN (b : bool)
| JSON_INT (i : Z)
| JSON_STRING (s : string)
| JSON_ARRAY (elements : list JsonNode)
| JSON_OBJECT (members : list (string * JsonNode)).

(** A [JsonObject*]: its members in insertion order. *)
Definition JsonObject : Type := list (string * JsonNode).

Definition json_object_new : JsonObject := [].

Fixpoint json_object_get_member (object : JsonObject) (member_name : string)
  : option JsonNode :=
  match object with
  | [] => None
  | (k, v) :: rest =>
      if String.eqb k member_name then Some v
      else json_object_get_member rest member_name
  end.

Definition json_object_has_member (object : JsonObject) (member_name : string)
  : bool :=
  match json_object_get_member object member_name with
  | Some _ => true
  | None => false
  end.

(** [json_object_set_member]: replaces the value of a member that exists,
    appends the member otherwise. *)
Fixpoint json_object_set_member (object : JsonObject) (member_name : string)
  (node : JsonNode) : JsonObject :=
  match object with
  | [] => [(member_name, node)]
  | (k, v) :: rest =>
      if String.eqb k member_name then (k, node) :: rest
      else (k, v) :: json_object_set_member rest member_name node
  end.

Definition json_object_set_string_member (object : JsonObject)
  (member_name value : string) : JsonObject :=
  json_object_set_member object member_name (JSON_STRING value).

Definition json_object_set_int_member (object : JsonObject)
  (member_name : string) (value : Z) : JsonObject :=
  json_object_set_member object member_name (JSON_INT value).

Definition json_object_set_object_member (object : JsonObject)
  (member_name : string) (value : JsonObject) : JsonObject :=
  json_object_set_member object member_name (JSON_OBJECT value).

(** The accessors below take the object as the C code holds it: a pointer
    that is NULL ([None]) when an earlier accessor found nothing.  json-glib
    guards each of them with [g_return_val_if_fail]: a NULL object, a
    missing member or a member of the wrong kind makes them return NULL
    (or 0) after a warning of the library's own. *)
Definition json_object_get_object_member (object : option JsonObject)
  (member_name : string) : option JsonObject :=
  match object with
  | None => None
  | Some o =>
      match json_object_get_member o member_name with
      | Some (JSON_OBJECT m) => Some m
      | _ => None
      end
  end.

Definition json_object_get_string_member (object : option JsonObject)
  (member_name : string) : option string :=
  match object with
  | None => None
  | Some o =>
      match json_object_get_member o member_name with
      | Some (JSON_STRING s) => Some s
      | _ => None
      end
  end.

Definition json_object_get_int_member (object : option JsonObject)
  (member_name : string) : Z :=
  match object with
  | None => 0
  | Some o =>
      match json_object_get_member o member_name with
      | Some (JSON_INT i) => i
      | Some (JSON_BOOLEAN b) => if b then 1 else 0
      | _ => 0
      end
  end.

(** The parser and the generator are json-glib's.  [None] is
    [json_parser_load_from_data] returning FALSE. *)
Class JsonLib : Type := {
  json_parser_load_from_data : string -> option JsonNode;
  json_generator_to_data : JsonNode -> string
}.

(** [json_object_to_string]: the object becomes the root node of a
    generator. *)
Definition json_object_to_string `{JsonLib} (object : JsonObject) : string :=
  json_generator_to_data (JSON_OBJECT object).

(** ** External objects and the trace of library calls *)

Inductive SoupWebsocketState : Type :=
| SOUP_WEBSOCKET_STATE_OPEN
| SOUP_WEBSOCKET_STATE_CLOSING
| SOUP_WEBSOCKET_STATE_CLOSED.

Inductive SoupWebsocketDataType : Type :=
| SOUP_WEBSOCKET_DATA_TEXT
| SOUP_WEBSOCKET_DATA_BINARY.

Inductive GstWebRTCSDPType : Type :=
| GST_WEBRTC_SDP_TYPE_OFFER
| GST_WEBRTC_SDP_TYPE_PRANSWER
| GST_WEBRTC_SDP_TYPE_ANSWER
| GST_WEBRTC_SDP_TYPE_ROLLBACK.

(** A [GstWebRTCSessionDescription]; the [GstSDPMessage] it carries is
    identified with its text ([gst_sdp_message_as_text] on the way out,
    [gst_sdp_message_parse_buffer] on the way in). *)
Record GstWebRTCSessionDescription : Type := {
  type : GstWebRTCSDPType;
  sdp : string
}.

Inductive GstPromiseResult : Type :=
| GST_PROMISE_RESULT_PENDING
| GST_PROMISE_RESULT_INTERRUPTED
| GST_PROMISE_RESULT_REPLIED
| GST_PROMISE_RESULT_EXPIRED.

(** The change function a promise is created with. *)
Inductive ChangeFunc : Type :=
| no_change_func
| cb_on_offer_set
| cb_on_answer_created
| cb_on_offer_created.

Inductive Arg : Type :=
| arg_s (s : string)
| arg_d (d : Z).

Inductive Handle : Type := h_ws_conn | h_pipep | h_loop.

(** One constructor per library call with an effect outside the program.
    The signal emissions are [g_signal_emit_by_name (webrtc, ...)]. *)
Inductive Effect : Type :=
| g_print (format : string) (args : list Arg)
| g_printerr (format : string) (args : list Arg)
| soup_websocket_connection_send_text (text : string)
| soup_websocket_connection_close (code : Z) (data : string)
| gst_element_set_state_NULL
| g_main_loop_quit
| unref (h : Handle)
| emit_set_remote_description (desc : GstWebRTCSessionDescription)
    (promise : ChangeFunc)
| emit_set_local_description (desc : option GstWebRTCSessionDescription)
| emit_create_answer (promise : ChangeFunc)
| emit_create_offer (promise : ChangeFunc)
| emit_add_ice_candidate (mline : Z) (candidate : option string)
| gst_parse_bin_from_description (description : string)
| g_object_set (element property : string) (value : Z)
| gst_bin_add
| gst_element_sync_state_with_parent
| gst_pad_link.

Definition Trace : Type := list Effect.

(** ** Globals shared by both programs *)

(** A pointer global is [true] when it is not NULL; [ws_conn] carries the
    state of the connection it points to. *)
Record Globals : Type := {
  loop : bool;
  pipep : bool;
  webrtc : bool;
  ws_conn : option SoupWebsocketState
}.

Definition ws_open (g : Globals) : bool :=
  match ws_conn g with
  | Some SOUP_WEBSOCKET_STATE_OPEN => true
  | _ => false
  end.

(** [g_signal_emit_by_name (webrtc, ...)]: nothing is emitted on a NULL
    instance. *)
Definition emit (g : Globals) (e : Effect) : Trace :=
  if webrtc g then [e] else [].

(** ** Code shared verbatim by receiver.c and sender.c *)

(** [cleanup_and_quit].  [soup_websocket_connection_close] starts the
    close handshake: the connection is in the closing state from then on,
    and [ws_conn] still points to it. *)
Definition cleanup_and_quit (msg : option string) (g : Globals)
  : Globals * Trace :=
  let t_msg :=
    match msg with
    | Some m => [g_printerr "%s\n" [arg_s m]]
    | None => []
    end in
  let '(ws1, t_ws) :=
    match ws_conn g with
    | Some SOUP_WEBSOCKET_STATE_OPEN =>
        (Some SOUP_WEBSOCKET_STATE_CLOSING,
         [soup_websocket_connection_close 1000 EmptyString])
    | Some _ => (None, [unref h_ws_conn])
    | None => (None, [])
    end in
  let '(pipep1, webrtc1, t_pipe) :=
    if pipep g
    then (false, false, [gst_element_set_state_NULL; unref h_pipep])
    else (false, webrtc g, []) in
  let '(loop1, t_loop) :=
    if loop g then (false, [g_main_loop_quit; unref h_loop])
    else (false, []) in
  ({| loop := loop1; pipep := pipep1; webrtc := webrtc1; ws_conn := ws1 |},
   t_msg ++ t_ws ++ t_pipe ++ t_loop).

(** The JSON object [send_ice_candidate] builds.  The cast [(gint)] is
    applied to the [guint] index before it is widened to the [gint64]
    member. *)
Definition ice_message (mlineindex : Z) (candidate : string) : JsonObject :=
  let ice := json_object_new in
  let ice := json_object_set_string_member ice "candidate" candidate in
  let ice := json_object_set_int_member ice "sdpMLineIndex"
               (to_gint mlineindex) in
  let msg := json_object_new in
  json_object_set_object_member msg "ice" ice.

Definition send_ice_candidate `{JsonLib} (mlineindex : Z) (candidate : string)
  (g : Globals) : Trace :=
  if negb (ws_open g) then []
  else
    let text := json_object_to_string (ice_message mlineindex candidate) in
    [soup_websocket_connection_send_text text].

Definition sdp_type_to_string (t : GstWebRTCSDPType) : string :=
  match t with
  | GST_WEBRTC_SDP_TYPE_OFFER => "offer"
  | _ => "answer"
  end.

(** The JSON object [send_sdp] builds. *)
Definition sdp_message (desc : GstWebRTCSessionDescription) : JsonObject :=
  let sdp_text := sdp desc in
  let sdp := json_object_new in
  let sdp := json_object_set_string_member sdp "type"
               (sdp_type_to_string (type desc)) in
  let sdp := json_object_set_string_member sdp "sdp" sdp_text in
  let msg := json_object_new in
  json_object_set_object_member msg "sdp" sdp.

(** [send_sdp] reads [desc->sdp] only after the connection check; a NULL
    description is dereferenced there ([None]: the process dies). *)
Definition send_sdp `{JsonLib} (desc : option GstWebRTCSessionDescription)
  (g : Globals) : option Trace :=
  if negb (ws_open g) then Some []
  else
    match desc with
    | None => None
    | Some d =>
        let text := json_object_to_string (sdp_message d) in
        Some [soup_websocket_connection_send_text text]
    end.

(** The promises a trace hands to the media engine with change function
    [f]. *)
Definition registers (f : ChangeFunc) (e : Effect) : bool :=
  match e, f with
  | emit_set_remote_description _ cb_on_offer_set, cb_on_offer_set => true
  | emit_create_answer cb_on_answer_created, cb_on_answer_created => true
  | emit_create_offer cb_on_offer_created, cb_on_offer_created => true
  | _, _ => false
  end.

Definition registered (f : ChangeFunc) (t : Trace) : nat :=
  List.length (filter (registers f) t).

(** ** receiver.c *)

Module Receiver.

Record State : Type := {
  globals : Globals;
  video_chain_built : bool
}.

Definition with_globals (s : State) (g : Globals) : State :=
  {| globals := g; video_chain_built := video_chain_built s |}.

Inductive GstPadDirection : Type :=
| GST_PAD_UNKNOWN
| GST_PAD_SRC
| GST_PAD_SINK.

(** What the callback reads of the first structure of the pad's caps:
    [gst_structure_get_name] and the string field "encoding-name". *)
Record GstStructure : Type := {
  structure_name : option string;
  encoding_name : option string
}.

(** What the callback reads of the pad: its direction and its current
    caps (NULL when it has none). *)
Record GstPad : Type := {
  direction : GstPadDirection;
  current_caps : option GstStructure
}.

(** The answers GStreamer gives during one attach attempt. *)
Record Attach : Type := {
  parse_err : option string;
  rxbin : bool;
  depay : bool;
  depay_request_keyframe : bool;
  depay_wait_for_keyframe : bool;
  vsink : bool;
  vsink_qos : bool;
  vsink_max_lateness : bool;
  sinkpad : bool;
  link_ret : Z
}.

Definition GST_PAD_LINK_OK : Z := 0.

Definition rxbin_description : string :=
  "queue name=rxq " ++
  "max-size-buffers=10 max-size-bytes=0 max-size-time=0 leaky=downstream ! " ++
  "rtph264depay name=depay ! " ++
  "h264parse name=parse config-interval=1 ! " ++
  "avdec_h264 name=dec ! " ++
  "videoconvert name=conv ! " ++
  "autovideosink name=vsink sync=false".

Definition or_null (s : option string) : string :=
  match s with
  | Some x => x
  | None => "null"
  end.

(** The guard of line 107, negated: the pad carries RTP H.264. *)
Definition is_rtp_h264 (media_type encoding : option string) : bool :=
  match media_type, encoding with
  | Some m, Some e =>
      g_str_has_prefix m "application/x-rtp" && g_strcmp0_eq (Some e) "H264"
  | _, _ => false
  end.

Definition direction_is_src (d : GstPadDirection) : bool :=
  match d with
  | GST_PAD_SRC => true
  | _ => false
  end.

Definition tune_depay (a : Attach) : Trace :=
  if depay a then
    (if depay_request_keyframe a
     then [g_object_set "depay" "request-keyframe" 1] else []) ++
    (if depay_wait_for_keyframe a
     then [g_object_set "depay" "wait-for-keyframe" 0] else [])
  else [].

Definition tune_vsink (a : Attach) : Trace :=
  if vsink a then
    (if vsink_qos a then [g_object_set "vsink" "qos" 0] else []) ++
    (if vsink_max_lateness a
     then [g_object_set "vsink" "max-lateness" 0] else [])
  else [].

Definition on_incoming_stream (pad : GstPad) (a : Attach) (s : State)
  : State * Trace :=
  if negb (direction_is_src (direction pad)) then (s, [])
  else if video_chain_built s then
    (s, [g_print "[receiver] Video chain already built, ignoring extra pad\n"
           []])
  else
    match current_caps pad with
    | None => (s, [g_printerr "[receiver] No caps on incoming pad\n" []])
    | Some st =>
        let media_type := structure_name st in
        let encoding := encoding_name st in
        let t_caps :=
          [g_print "[receiver] pad caps: %s, encoding=%s\n"
             [arg_s (or_null media_type); arg_s (or_null encoding)]] in
        if negb (is_rtp_h264 media_type encoding) then
          (s, t_caps ++ [g_print "[receiver] Ignoring non-H264 pad\n" []])
        else
          let t_parse :=
            t_caps ++ [gst_parse_bin_from_description rxbin_description] in
          match parse_err a with
          | Some message =>
              (s, t_parse ++
                  [g_printerr "[receiver] Failed to create H264 bin: %s\n"
                     [arg_s message]])
          | None =>
              if negb (rxbin a) then
                (s, t_parse ++ [g_printerr "[receiver] H264 bin is NULL\n" []])
              else
                let t_add :=
                  t_parse ++ tune_depay a ++ tune_vsink a ++
                  [gst_bin_add; gst_element_sync_state_with_parent] in
                if negb (sinkpad a) then
                  (s, t_add ++
                      [g_printerr "[receiver] rxbin has no ghost sink pad\n"
                         []])
                else
                  let ret := link_ret a in
                  if negb (Z.eqb ret GST_PAD_LINK_OK) then
                    (s, t_add ++ [gst_pad_link] ++
                        [g_printerr
                           "[receiver] Failed to link webrtc pad -> rxbin (ret=%d)\n"
                           [arg_d ret]])
                  else
                    ({| globals := globals s; video_chain_built := true |},
                     t_add ++ [gst_pad_link] ++
                     [g_print "[receiver] H264 receiver bin linked\n" []])
          end
    end.

(** [on_answer_created]: the [g_assert] kills the process unless the
    promise was replied to; [answer] is what [gst_structure_get] found in
    the reply (NULL when the reply has no "answer" field). *)
Definition on_answer_created `{JsonLib} (result : GstPromiseResult)
  (answer : option GstWebRTCSessionDescription) (s : State)
  : option (State * Trace) :=
  match result with
  | GST_PROMISE_RESULT_REPLIED =>
      let t_local := emit (globals s) (emit_set_local_description answer) in
      let t_print := [g_print "[receiver] Sending SDP answer\n" []] in
      match send_sdp answer (globals s) with
      | Some t_send => Some (s, t_local ++ t_print ++ t_send)
      | None => None
      end
  | _ => None
  end.

Definition on_offer_set (s : State) : State * Trace :=
  (s, emit (globals s) (emit_create_answer cb_on_answer_created)).

(** [handle_server_message].  [strlen (sdptext)] is evaluated on the way
    to [gst_sdp_message_parse_buffer]: a NULL text kills the process
    ([None]).  [mline] is a [gint]; the "add-ice-candidate" signal takes a
    [guint], which is what the emission records. *)
Definition handle_server_message `{JsonLib} (data_type : SoupWebsocketDataType)
  (message : string) (s : State) : option (State * Trace) :=
  match data_type with
  | SOUP_WEBSOCKET_DATA_BINARY => Some (s, [])
  | SOUP_WEBSOCKET_DATA_TEXT =>
      let text := g_strndup message in
      match json_parser_load_from_data text with
      | None => Some (s, [])
      | Some (JSON_OBJECT obj) =>
          if json_object_has_member obj "sdp" then
            let sdpobj := json_object_get_object_member (Some obj) "sdp" in
            let sdptype := json_object_get_string_member sdpobj "type" in
            let sdptext := json_object_get_string_member sdpobj "sdp" in
            if g_strcmp0_eq sdptype "offer" then
              match sdptext with
              | None => None
              | Some sdp_text =>
                  let offer :=
                    {| type := GST_WEBRTC_SDP_TYPE_OFFER; sdp := sdp_text |} in
                  Some (s,
                        [g_print
                           "[receiver] Received SDP offer -> set-remote-description\n"
                           []] ++
                        emit (globals s)
                          (emit_set_remote_description offer cb_on_offer_set))
              end
            else Some (s, [])
          else if json_object_has_member obj "ice" then
            let ice := json_object_get_object_member (Some obj) "ice" in
            let candidate := json_object_get_string_member ice "candidate" in
            let mline :=
              to_gint (json_object_get_int_member ice "sdpMLineIndex") in
            Some (s, emit (globals s)
                       (emit_add_ice_candidate (to_guint mline) candidate))
          else Some (s, [])
      | Some _ => Some (s, [])
      end
  end.

Definition on_server_closed (s : State) : State * Trace :=
  let '(g, t) :=
    cleanup_and_quit (Some "[receiver] Server closed") (globals s) in
  (with_globals s g, t).

(** The signals the main loop delivers to the receiver once it is
    connected. *)
Inductive Event : Type :=
| ev_message (data_type : SoupWebsocketDataType) (message : string)
| ev_closed
| ev_pad_added (pad : GstPad) (a : Attach)
| ev_on_ice_candidate (mlineindex : Z) (candidate : string)
| ev_offer_set
| ev_answer_created (result : GstPromiseResult)
    (answer : option GstWebRTCSessionDescription).

(** Before the "closed" signal is delivered libsoup has closed the
    connection object. *)
Definition connection_closed (s : State) : State :=
  with_globals s
    {| loop := loop (globals s); pipep := pipep (globals s);
       webrtc := webrtc (globals s);
       ws_conn := match ws_conn (globals s) with
                  | Some _ => Some SOUP_WEBSOCKET_STATE_CLOSED
                  | None => None
                  end |}.

Definition dispatch `{JsonLib} (e : Event) (s : State)
  : option (State * Trace) :=
  match e with
  | ev_message data_type message => handle_server_message data_type message s
  | ev_closed => Some (on_server_closed (connection_closed s))
  | ev_pad_added pad a => Some (on_incoming_stream pad a s)
  | ev_on_ice_candidate mlineindex candidate =>
      Some (s, send_ice_candidate mlineindex candidate (globals s))
  | ev_offer_set => Some (on_offer_set s)
  | ev_answer_created result answer => on_answer_created result answer s
  end.

(** The media engine calls the change function of a promise once, after
    the request that carried it: [outstanding_offer_set] and
    [outstanding_answer_created] count the promises it still holds. *)
Record World : Type := {
  state : State;
  outstanding_offer_set : nat;
  outstanding_answer_created : nat
}.

Definition enabled (e : Event) (w : World) : bool :=
  match e with
  | ev_offer_set => negb (Nat.eqb (outstanding_offer_set w) 0)
  | ev_answer_created _ _ => negb (Nat.eqb (outstanding_answer_created w) 0)
  | _ => true
  end.

Definition fired (f : ChangeFunc) (e : Event) : nat :=
  match f, e with
  | cb_on_offer_set, ev_offer_set => 1
  | cb_on_answer_created, ev_answer_created _ _ => 1
  | _, _ => 0
  end.

Definition step `{JsonLib} (e : Event) (w : World) : option (World * Trace) :=
  if enabled e w then
    match dispatch e (state w) with
    | Some (s, t) =>
        Some ({| state := s;
                 outstanding_offer_set :=
                   (outstanding_offer_set w - fired cb_on_offer_set e
                    + registered cb_on_offer_set t)%nat;
                 outstanding_answer_created :=
                   (outstanding_answer_created w
                    - fired cb_on_answer_created e
                    + registered cb_on_answer_created t)%nat |}, t)
    | None => None
    end
  else None.

Fixpoint run `{JsonLib} (es : list Event) (w : World)
  : option (World * Trace) :=
  match es with
  | [] => Some (w, [])
  | e :: rest =>
      match step e w with
      | Some (w1, t1) =>
          match run rest w1 with
          | Some (w2, t2) => Some (w2, t1 ++ t2)
          | None => None
          end
      | None => None
      end
  end.

(** The receiver after [on_server_connected] and [start_pipeline] have
    succeeded: every global is set, the connection is open, no promise is
    outstanding. *)
Definition started : World :=
  {| state := {| globals := {| loop := true; pipep := true; webrtc := true;
                               ws_conn := Some SOUP_WEBSOCKET_STATE_OPEN |};
                 video_chain_built := false |};
     outstanding_offer_set := 0;
     outstanding_answer_created := 0 |}.

End Receiver.

(** ** sender.c *)

Module Sender.

(** sender.c has no global beyond the shared four. *)
Definition State : Type := Globals.

Definition on_offer_created `{JsonLib} (result : GstPromiseResult)
  (offer : option GstWebRTCSessionDescription) (s : State)
  : option (State * Trace) :=
  match result with
  | GST_PROMISE_RESULT_REPLIED =>
      let t_local := emit s (emit_set_local_description offer) in
      let t_print := [g_print "[sender] Sending SDP offer\n" []] in
      match send_sdp offer s with
      | Some t_send => Some (s, t_local ++ t_print ++ t_send)
      | None => None
      end
  | _ => None
  end.

Definition on_negotiation_needed (s : State) : State * Trace :=
  (s, [g_print "[sender] on-negotiation-needed -> create-offer\n" []] ++
      emit s (emit_create_offer cb_on_offer_created)).

(** [handle_server_message]: as in receiver.c, but the type acted on is
    "answer" and the promise has no change function (it is interrupted
    right after the emission). *)
Definition handle_server_message `{JsonLib} (data_type : SoupWebsocketDataType)
  (message : string) (s : State) : option (State * Trace) :=
  match data_type with
  | SOUP_WEBSOCKET_DATA_BINARY => Some (s, [])
  | SOUP_WEBSOCKET_DATA_TEXT =>
      let text := g_strndup message in
      match json_parser_load_from_data text with
      | None => Some (s, [])
      | Some (JSON_OBJECT obj) =>
          if json_object_has_member obj "sdp" then
            let sdpobj := json_object_get_object_member (Some obj) "sdp" in
            let sdptype := json_object_get_string_member sdpobj "type" in
            let sdptext := json_object_get_string_member sdpobj "sdp" in
            if g_strcmp0_eq sdptype "answer" then
              match sdptext with
              | None => None
              | Some sdp_text =>
                  let answer :=
                    {| type := GST_WEBRTC_SDP_TYPE_ANSWER; sdp := sdp_text |} in
                  Some (s,
                        [g_print
                           "[sender] Received SDP answer -> set-remote-description\n"
                           []] ++
                        emit s
                          (emit_set_remote_description answer no_change_func))
              end
            else Some (s, [])
          else if json_object_has_member obj "ice" then
            let ice := json_object_get_object_member (Some obj) "ice" in
            let candidate := json_object_get_string_member ice "candidate" in
            let mline :=
              to_gint (json_object_get_int_member ice "sdpMLineIndex") in
            Some (s, emit s
                       (emit_add_ice_candidate (to_guint mline) candidate))
          else Some (s, [])
      | Some _ => Some (s, [])
      end
  end.

Definition on_server_closed (s : State) : State * Trace :=
  cleanup_and_quit (Some "[sender] Server closed") s.

Inductive Event : Type :=
| ev_message (data_type : SoupWebsocketDataType) (message : string)
| ev_closed
| ev_negotiation_needed
| ev_on_ice_candidate (mlineindex : Z) (candidate : string)
| ev_offer_created (result : GstPromiseResult)
    (offer : option GstWebRTCSessionDescription).

Definition connection_closed (s : State) : State :=
  {| loop := loop s; pipep := pipep s; webrtc := webrtc s;
     ws_conn := match ws_conn s with
                | Some _ => Some SOUP_WEBSOCKET_STATE_CLOSED
                | None => None
                end |}.

Definition dispatch `{JsonLib} (e : Event) (s : State)
  : option (State * Trace) :=
  match e with
  | ev_message data_type message => handle_server_message data_type message s
  | ev_closed => Some (on_server_closed (connection_closed s))
  | ev_negotiation_needed => Some (on_negotiation_needed s)
  | ev_on_ice_candidate mlineindex candidate =>
      Some (s, send_ice_candidate mlineindex candidate s)
  | ev_offer_created result offer => on_offer_created result offer s
  end.

Record World : Type := {
  state : State;
  outstanding_offer_created : nat
}.

Definition enabled (e : Event) (w : World) : bool :=
  match e with
  | ev_offer_created _ _ => negb (Nat.eqb (outstanding_offer_created w) 0)
  | _ => true
  end.

Definition fired (e : Event) : nat :=
  match e with
  | ev_offer_created _ _ => 1
  | _ => 0
  end.

Definition step `{JsonLib} (e : Event) (w : World) : option (World * Trace) :=
  if enabled e w then
    match dispatch e (state w) with
    | Some (s, t) =>
        Some ({| state := s;
                 outstanding_offer_created :=
                   (outstanding_offer_created w - fired e
                    + registered cb_on_offer_created t)%nat |}, t)
    | None => None
    end
  else None.

Fixpoint run `{JsonLib} (es : list Event) (w : World)
  : option (World * Trace) :=
  match es with
  | [] => Some (w, [])
  | e :: rest =>
      match step e w with
      | Some (w1, t1) =>
          match run rest w1 with
          | Some (w2, t2) => Some (w2, t1 ++ t2)
          | None => None
          end
      | None => None
      end
  end.

Definition started : World :=
  {| state := {| loop := true; pipep := true; webrtc := true;
                 ws_conn := Some SOUP_WEBSOCKET_STATE_OPEN |};
     outstanding_offer_created := 0 |}.

End Sender.

(** ** The signaling codec *)

(** The two message shapes of the wire protocol, as the programs hold
    them: a session description, or a candidate with its [guint] media-line
    index. *)
Inductive SignalingMessage : Type :=
| SdpMessage (desc : GstWebRTCSessionDescription)
| IceMessage (candidate : string) (mediaLineIndex : Z).

(** A message of the data model: the description is an offer or an answer,
    the index fits a [guint]. *)
Definition wf_message (m : SignalingMessage) : Prop :=
  match m with
  | SdpMessage desc =>
      type desc = GST_WEBRTC_SDP_TYPE_OFFER \/
      type desc = GST_WEBRTC_SDP_TYPE_ANSWER
  | IceMessage _ mediaLineIndex => is_guint mediaLineIndex
  end.

(** [encode]: the text [send_sdp] and [send_ice_candidate] hand to
    [soup_websocket_connection_send_text]. *)
Definition encode_object (m : SignalingMessage) : JsonObject :=
  match m with
  | SdpMessage desc => sdp_message desc
  | IceMessage candidate mediaLineIndex =>
      ice_message mediaLineIndex candidate
  end.

Definition encode `{JsonLib} (m : SignalingMessage) : string :=
  json_object_to_string (encode_object m).

(** The description types the handlers compare the "type" member with:
    "offer" in receiver.c, "answer" in sender.c. *)
Definition sdp_type_of_string (sdptype : option string)
  : option GstWebRTCSDPType :=
  if g_strcmp0_eq sdptype "offer" then Some GST_WEBRTC_SDP_TYPE_OFFER
  else if g_strcmp0_eq sdptype "answer" then Some GST_WEBRTC_SDP_TYPE_ANSWER
  else None.

(** [decode]: the part of [handle_server_message] that both programs
    share word for word, from the parse of the frame to the values read
    off the "sdp" or the "ice" member.  The index is the [guint] that the
    "add-ice-candidate" signal receives from the [gint] variable
    [mline]. *)
Definition decode `{JsonLib} (bytes : string) : option SignalingMessage :=
  match json_parser_load_from_data (g_strndup bytes) with
  | Some (JSON_OBJECT obj) =>
      if json_object_has_member obj "sdp" then
        let sdpobj := json_object_get_object_member (Some obj) "sdp" in
        let sdptype := json_object_get_string_member sdpobj "type" in
        let sdptext := json_object_get_string_member sdpobj "sdp" in
        match sdp_type_of_string sdptype, sdptext with
        | Some t, Some sdp_text => Some (SdpMessage {| type := t; sdp := sdp_text |})
        | _, _ => None
        end
      else if json_object_has_member obj "ice" then
        let ice := json_object_get_object_member (Some obj) "ice" in
        let candidate := json_object_get_string_member ice "candidate" in
        let mline :=
          to_gint (json_object_get_int_member ice "sdpMLineIndex") in
        match candidate with
        | Some c => Some (IceMessage c (to_guint mline))
        | None => None
        end
      else None
  | _ => None
  end.

(** What each program does with a decoded message. *)
Definition receiver_action (g : Globals) (m : SignalingMessage) : Trace :=
  match m with
  | SdpMessage {| type := GST_WEBRTC_SDP_TYPE_OFFER; sdp := sdp_text |} =>
      [g_print "[receiver] Received SDP offer -> set-remote-description\n" []]
      ++ emit g (emit_set_remote_description
                   {| type := GST_WEBRTC_SDP_TYPE_OFFER; sdp := sdp_text |}
                   cb_on_offer_set)
  | SdpMessage _ => []
  | IceMessage candidate mediaLineIndex =>
      emit g (emit_add_ice_candidate mediaLineIndex (Some candidate))
  end.

Definition sender_action (g : Globals) (m : SignalingMessage) : Trace :=
  match m with
  | SdpMessage {| type := GST_WEBRTC_SDP_TYPE_ANSWER; sdp := sdp_text |} =>
      [g_print "[sender] Received SDP answer -> set-remote-description\n" []]
      ++ emit g (emit_set_remote_description
                   {| type := GST_WEBRTC_SDP_TYPE_ANSWER; sdp := sdp_text |}
                   no_change_func)
  | SdpMessage _ => []
  | IceMessage candidate mediaLineIndex =>
      emit g (emit_add_ice_candidate mediaLineIndex (Some candidate))
  end.

(** ** A reference JSON library *)

(** A small generator and parser for the JSON this protocol uses (objects,
    arrays, strings with the short escapes, integers, literals), compact
    output as json-glib's generator writes it.  It instantiates [JsonLib]
    where a statement is evaluated on concrete frames. *)
Module RefJson.

Local Open Scope string_scope.

Definition quote : ascii := "034"%char.
Definition backslash : ascii := "\"%char.
Definition newline : ascii := "010"%char.
Definition tab : ascii := "009"%char.
Definition cr : ascii := "013"%char.

Fixpoint escape (s : string) : string :=
  match s with
  | EmptyString => EmptyString
  | String c rest =>
      if Ascii.eqb c quote then String backslash (String quote (escape rest))
      else if Ascii.eqb c backslash
      then String backslash (String backslash (escape rest))
      else if Ascii.eqb c newline
      then String backslash (String "n" (escape rest))
      else if Ascii.eqb c tab then String backslash (String "t" (escape rest))
      else if Ascii.eqb c cr then String backslash (String "r" (escape rest))
      else String c (escape rest)
  end.

Definition print_string (s : string) : string :=
  String quote (escape s ++ String quote EmptyString).

Definition print_int (i : Z) : string := NilZero.string_of_int (Z.to_int i).

Fixpoint print (v : JsonNode) : string :=
  match v with
  | JSON_NULL => "null"
  | JSON_BOOLEAN true => "true"
  | JSON_BOOLEAN false => "false"
  | JSON_INT i => print_int i
  | JSON_STRING s => print_string s
  | JSON_ARRAY elements =>
      let fix elems (l : list JsonNode) : string :=
        match l with
        | [] => EmptyString
        | [x] => print x
        | x :: rest => print x ++ "," ++ elems rest
        end in
      "[" ++ elems elements ++ "]"
  | JSON_OBJECT members =>
      let fix membs (l : list (string * JsonNode)) : string :=
        match l with
        | [] => EmptyString
        | [(k, x)] => print_string k ++ ":" ++ print x
        | (k, x) :: rest => print_string k ++ ":" ++ print x ++ "," ++ membs rest
        end in
      "{" ++ membs members ++ "}"
  end.

Definition is_ws (c : ascii) : bool :=
  Ascii.eqb c " " || Ascii.eqb c newline || Ascii.eqb c tab || Ascii.eqb c cr.

Fixpoint skip_ws (s : string) : string :=
  match s with
  | String c rest => if is_ws c then skip_ws rest else s
  | EmptyString => EmptyString
  end.

Fixpoint strip_prefix (p s : string) : option string :=
  match p, s with
  | EmptyString, _ => Some s
  | String a p', String b s' =>
      if Ascii.eqb a b then strip_prefix p' s' else None
  | _, _ => None
  end.

(** The body of a string literal, after its opening quote. *)
Fixpoint parse_string (s : string) : option (string * string) :=
  match s with
  | EmptyString => None
  | String c rest =>
      if Ascii.eqb c quote then Some (EmptyString, rest)
      else if Ascii.eqb c backslash then
        match rest with
        | String e rest' =>
            let unescaped :=
              if Ascii.eqb e "n" then Some newline
              else if Ascii.eqb e "t" then Some tab
              else if Ascii.eqb e "r" then Some cr
              else if Ascii.eqb e quote then Some quote
              else if Ascii.eqb e backslash then Some backslash
              else if Ascii.eqb e "/" then Some "/"%char
              else None in
            match unescaped, parse_string rest' with
            | Some u, Some (body, after) => Some (String u body, after)
            | _, _ => None
            end
        | EmptyString => None
        end
      else
        match parse_string rest with
        | Some (body, after) => Some (String c body, after)
        | None => None
        end
  end.

Definition is_digit (c : ascii) : bool :=
  (48 <=? nat_of_ascii c)%nat && (nat_of_ascii c <=? 57)%nat.

Fixpoint span_digits (s : string) : string * string :=
  match s with
  | String c rest =>
      if is_digit c then
        let '(ds, after) := span_digits rest in (String c ds, after)
      else (EmptyString, s)
  | EmptyString => (EmptyString, EmptyString)
  end.

Definition parse_int (s : string) : option (Z * string) :=
  let '(sign, body) :=
    match s with
    | String "-" rest => ("-", rest)
    | _ => (EmptyString, s)
    end in
  let '(ds, after) := span_digits body in
  match NilZero.int_of_string (sign ++ ds), after with
  | _, String "." _ => None
  | _, String "e" _ => None
  | _, String "E" _ => None
  | Some d, _ => Some (Z.of_int d, after)
  | None, _ => None
  end.

Fixpoint parse_value (fuel : nat) (s : string) : option (JsonNode * string) :=
  match fuel with
  | O => None
  | S fuel' =>
      match skip_ws s with
      | String "{" rest =>
          match skip_ws rest with
          | String "}" after => Some (JSON_OBJECT [], after)
          | body =>
              match parse_members fuel' body [] with
              | Some (members, after) => Some (JSON_OBJECT members, after)
              | None => None
              end
          end
      | String "[" rest =>
          match skip_ws rest with
          | String "]" after => Some (JSON_ARRAY [], after)
          | body =>
              match parse_elements fuel' body with
              | Some (elements, after) => Some (JSON_ARRAY elements, after)
              | None => None
              end
          end
      | String c rest as s' =>
          if Ascii.eqb c quote then
            match parse_string rest with
            | Some (str, after) => Some (JSON_STRING str, after)
            | None => None
            end
          else if is_digit c || Ascii.eqb c "-" then
            match parse_int s' with
            | Some (i, after) => Some (JSON_INT i, after)
            | None => None
            end
          else
            match strip_prefix "null" s', strip_prefix "true" s',
                  strip_prefix "false" s' with
            | Some after, _, _ => Some (JSON_NULL, after)
            | _, Some after, _ => Some (JSON_BOOLEAN true, after)
            | _, _, Some after => Some (JSON_BOOLEAN false, after)
            | _, _, _ => None
            end
      | EmptyString => None
      end
  end
with parse_members (fuel : nat) (s : string) (acc : JsonObject)
  : option (JsonObject * string) :=
  match fuel with
  | O => None
  | S fuel' =>
      match skip_ws s with
      | String c rest =>
          if Ascii.eqb c quote then
            match parse_string rest with
            | Some (key, after_key) =>
                match skip_ws after_key with
                | String ":" after_colon =>
                    match parse_value fuel' after_colon with
                    | Some (v, after_v) =>
                        let acc' := json_object_set_member acc key v in
                        match skip_ws after_v with
                        | String "," more => parse_members fuel' more acc'
                        | String "}" after => Some (acc', after)
                        | _ => None
                        end
                    | None => None
                    end
                | _ => None
                end
            | None => None
            end
          else None
      | EmptyString => None
      end
  end
with parse_elements (fuel : nat) (s : string)
  : option (list JsonNode * string) :=
  match fuel with
  | O => None
  | S fuel' =>
      match parse_value fuel' s with
      | Some (v, after_v) =>
          match skip_ws after_v with
          | String "," more =>
              match parse_elements fuel' more with
              | Some (vs, after) => Some (v :: vs, after)
              | None => None
              end
          | String "]" after => Some ([v], after)
          | _ => None
          end
      | None => None
      end
  end.

Definition load (text : string) : option JsonNode :=
  match parse_value (S (String.length text)) text with
  | Some (v, after) =>
      match skip_ws after with
      | EmptyString => Some v
      | _ => None
      end
  | None => None
  end.

#[export] Instance lib : JsonLib :=
  {| json_parser_load_from_data := load; json_generator_to_data := print |}.

(** The printed form of the two message shapes, laid out for the parser:
    [quoted s rest] is the literal of [s] followed by [rest]. *)
Fixpoint all_digits (s : string) : bool :=
  match s with
  | EmptyString => true
  | String c rest => is_digit c && all_digits rest
  end.

Definition quoted (s rest : string) : string :=
  String quote (escape s ++ String quote rest).

Definition ice_text (mlineindex : Z) (candidate : string) : string :=
  let index := print_int (to_gint mlineindex) ++ "}}" in
  let members :=
    quoted "candidate" (String ":"
      (quoted candidate (String ","
         (quoted "sdpMLineIndex" (String ":" index))))) in
  String "{" (quoted "ice" (String ":" (String "{" members))).

Definition sdp_text (t : GstWebRTCSDPType) (text : string) : string :=
  let members :=
    quoted "type" (String ":"
      (quoted (sdp_type_to_string t) (String ","
         (quoted "sdp" (String ":" (quoted text "}}")))))) in
  String "{" (quoted "sdp" (String ":" (String "{" members))).

End RefJson.

(** ** Observations on traces and runs *)

(** The side effects of a teardown that the outside sees: the transport
    close, the pipeline stop and the release of the run loop. *)
Definition observable (e : Effect) : bool :=
  match e with
  | soup_websocket_connection_close _ _ => true
  | gst_element_set_state_NULL => true
  | g_main_loop_quit => true
  | _ => false
  end.

(** [cleanup_and_quit] called once per element of [msgs], in a row. *)
Fixpoint teardown_calls (msgs : list (option string)) (g : Globals)
  : Globals * Trace :=
  match msgs with
  | [] => (g, [])
  | msg :: rest =>
      let '(g1, t1) := cleanup_and_quit msg g in
      let '(g2, t2) := teardown_calls rest g1 in
      (g2, t1 ++ t2)
  end.

(** The state every teardown leaves behind. *)
Definition torn_down (g : Globals) : Prop :=
  loop g = false /\ pipep g = false /\ ws_open g = false.

Definition is_diagnostic (e : Effect) : bool :=
  match e with
  | g_print _ _ => true
  | g_printerr _ _ => true
  | _ => false
  end.

Definition is_create_answer (e : Effect) : bool :=
  match e with
  | emit_create_answer _ => true
  | _ => false
  end.

Definition is_create_offer (e : Effect) : bool :=
  match e with
  | emit_create_offer _ => true
  | _ => false
  end.

Definition is_add_ice_candidate (e : Effect) : bool :=
  match e with
  | emit_add_ice_candidate _ _ => true
  | _ => false
  end.

(** Calls into the media engine. *)
Definition is_media_engine_call (e : Effect) : bool :=
  match e with
  | emit_set_remote_description _ _ => true
  | emit_set_local_description _ => true
  | emit_create_answer _ => true
  | emit_create_offer _ => true
  | emit_add_ice_candidate _ _ => true
  | _ => false
  end.

(** The calls that build, tune, add or link the receive chain. *)
Definition constructs_chain (e : Effect) : bool :=
  match e with
  | gst_parse_bin_from_description _ => true
  | g_object_set _ _ _ => true
  | gst_bin_add => true
  | gst_element_sync_state_with_parent => true
  | gst_pad_link => true
  | _ => false
  end.

Definition count (p : Effect -> bool) (t : Trace) : nat :=
  List.length (filter p t).

(** The wire integer of an encoded candidate. *)
Definition wire_sdpMLineIndex (msg : JsonObject) : Z :=
  json_object_get_int_member
    (json_object_get_object_member (Some msg) "ice") "sdpMLineIndex".

(** An inbound-stream notification that the attachment policy accepts: a
    source pad whose caps name RTP and whose encoding is H264. *)
Definition matches_policy (pad : Receiver.GstPad) : bool :=
  Receiver.direction_is_src (Receiver.direction pad) &&
  match Receiver.current_caps pad with
  | Some st =>
      Receiver.is_rtp_h264 (Receiver.structure_name st)
        (Receiver.encoding_name st)
  | None => false
  end.

(** A descriptor the policy does not accept: the media kind is not RTP or
    the codec is not H264 (a field that is missing counts as neither). *)
Definition descriptor_mismatch (st : Receiver.GstStructure) : Prop :=
  match Receiver.structure_name st, Receiver.encoding_name st with
  | Some media_type, Some encoding =>
      g_str_has_prefix media_type "application/x-rtp" = false \/
      encoding <> "H264"
  | _, _ => True
  end.

(** GStreamer builds the bin, finds its ghost pad and links it. *)
Definition attach_succeeds (a : Receiver.Attach) : bool :=
  match Receiver.parse_err a with
  | Some _ => false
  | None =>
      Receiver.rxbin a && Receiver.sinkpad a &&
      Z.eqb (Receiver.link_ret a) Receiver.GST_PAD_LINK_OK
  end.

Definition is_parse_bin (e : Effect) : bool :=
  match e with
  | gst_parse_bin_from_description _ => true
  | _ => false
  end.

(** [on_incoming_stream] called once per "pad-added" notification. *)
Fixpoint notify (ns : list (Receiver.GstPad * Receiver.Attach))
  (s : Receiver.State) : Receiver.State * Trace :=
  match ns with
  | [] => (s, [])
  | (pad, a) :: rest =>
      let '(s1, t1) := Receiver.on_incoming_stream pad a s in
      let '(s2, t2) := notify rest s1 in
      (s2, t1 ++ t2)
  end.

(** ** Concrete inputs *)

Definition rtp_h264_pad : Receiver.GstPad :=
  {| Receiver.direction := Receiver.GST_PAD_SRC;
     Receiver.current_caps :=
       Some {| Receiver.structure_name := Some "application/x-rtp";
               Receiver.encoding_name := Some "H264" |} |}.

Definition audio_structure : Receiver.GstStructure :=
  {| Receiver.structure_name := Some "audio";
     Receiver.encoding_name := Some "H264" |}.

Definition audio_pad : Receiver.GstPad :=
  {| Receiver.direction := Receiver.GST_PAD_SRC;
     Receiver.current_caps := Some audio_structure |}.

Definition attach_ok : Receiver.Attach :=
  {| Receiver.parse_err := None; Receiver.rxbin := true;
     Receiver.depay := true; Receiver.depay_request_keyframe := true;
     Receiver.depay_wait_for_keyframe := false;
     Receiver.vsink := true; Receiver.vsink_qos := true;
     Receiver.vsink_max_lateness := true;
     Receiver.sinkpad := true; Receiver.link_ret := 0 |}.

(** The link is refused ([GST_PAD_LINK_NOFORMAT]). *)
Definition attach_link_fails : Receiver.Attach :=
  {| Receiver.parse_err := None; Receiver.rxbin := true;
     Receiver.depay := true; Receiver.depay_request_keyframe := true;
     Receiver.depay_wait_for_keyframe := false;
     Receiver.vsink := true; Receiver.vsink_qos := true;
     Receiver.vsink_max_lateness := true;
     Receiver.sinkpad := true; Receiver.link_ret := -4 |}.

Definition offer_v0 : SignalingMessage :=
  SdpMessage {| type := GST_WEBRTC_SDP_TYPE_OFFER; sdp := "v=0" |}.

Definition answer_v0 : SignalingMessage :=
  SdpMessage {| type := GST_WEBRTC_SDP_TYPE_ANSWER; sdp := "v=0" |}.

Definition candidate_1 : SignalingMessage :=
  IceMessage "candidate:1 1 UDP 2122260223 192.0.2.1 50000 typ host" 0.

(** A frame that neither program recognises: the parser rejects it, or
    its root is not an object, or the object has neither an "sdp" nor an
    "ice" member. *)
Definition unrecognised `{JsonLib} (bytes : string) : Prop :=
  match json_parser_load_from_data (g_strndup bytes) with
  | Some (JSON_OBJECT obj) =>
      json_object_has_member obj "sdp" = false /\
      json_object_has_member obj "ice" = false
  | _ => True
  end.

(** The handler returns and its trace holds a [g_print] or a
    [g_printerr]. *)
Definition logs_diagnostic {S : Type} (result : option (S * Trace)) : Prop :=
  exists s t e, result = Some (s, t) /\ In e t /\ is_diagnostic e = true.

(** The "add-ice-candidate" emission for a candidate and its index. *)
Definition forward (m : string * Z) : Effect :=
  emit_add_ice_candidate (snd m) (Some (fst m)).

(** The candidates among decoded messages, in order. *)
Fixpoint candidates (msgs : list SignalingMessage) : list (string * Z) :=
  match msgs with
  | [] => []
  | IceMessage candidate mediaLineIndex :: rest =>
      (candidate, mediaLineIndex) :: candidates rest
  | SdpMessage _ :: rest => candidates rest
  end.

(** A frame carrying both members, built with the reference library. *)
Definition sdp_and_ice_frame : string :=
  RefJson.print
    (JSON_OBJECT
       [("sdp", JSON_OBJECT [("type", JSON_STRING "offer");
                             ("sdp", JSON_STRING "v=0")]);
        ("ice", JSON_OBJECT [("candidate", JSON_STRING "candidate:1");
                             ("sdpMLineIndex", JSON_INT 0)])]).

(** The frame decodes to an SDP offer. *)
Definition is_offer_frame `{JsonLib} (bytes : string) : bool :=
  match decode bytes with
  | Some (SdpMessage {| type := GST_WEBRTC_SDP_TYPE_OFFER |}) => true
  | _ => false
  end.

Definition receiver_offer `{JsonLib} (e : Receiver.Event) : bool :=
  match e with
  | Receiver.ev_message SOUP_WEBSOCKET_DATA_TEXT bytes => is_offer_frame bytes
  | _ => false
  end.

(** The SDP offers among the events of a receiver run. *)
Definition offers_received `{JsonLib} (es : list Receiver.Event) : nat :=
  List.length (filter receiver_offer es).

Definition receiver_closed (e : Receiver.Event) : bool :=
  match e with
  | Receiver.ev_closed => true
  | _ => false
  end.

(** The media engine exists at the start of the run and the run holds no
    "closed" signal, the one event that tears the session down. *)
Definition receiver_live (es : list Receiver.Event) (w : Receiver.World)
  : Prop :=
  webrtc (Receiver.globals (Receiver.state w)) = true /\
  forallb (fun e => negb (receiver_closed e)) es = true.

Definition sender_negotiation (e : Sender.Event) : bool :=
  match e with
  | Sender.ev_negotiation_needed => true
  | _ => false
  end.

(** The "on-negotiation-needed" signals among the events of a sender
    run. *)
Definition negotiations_needed (es : list Sender.Event) : nat :=
  List.length (filter sender_negotiation es).

Definition sender_closed (e : Sender.Event) : bool :=
  match e with
  | Sender.ev_closed => true
  | _ => false
  end.

Definition sender_live (es : list Sender.Event) (w : Sender.World) : Prop :=
  webrtc (Sender.state w) = true /\
  forallb (fun e => negb (sender_closed e)) es = true.

(** An offer, the completion of its "set-remote-description", a second
    offer and the completion of that one. *)
Definition two_offers : list Receiver.Event :=
  [Receiver.ev_message SOUP_WEBSOCKET_DATA_TEXT
     (@encode RefJson.lib offer_v0);
   Receiver.ev_offer_set;
   Receiver.ev_message SOUP_WEBSOCKET_DATA_TEXT
     (@encode RefJson.lib offer_v0);
   Receiver.ev_offer_set].

(** A negotiation-needed signal, the offer it leads to, the peer's answer
    and a candidate. *)
Definition one_negotiation : list Sender.Event :=
  [Sender.ev_negotiation_needed;
   Sender.ev_offer_created GST_PROMISE_RESULT_REPLIED
     (Some {| type := GST_WEBRTC_SDP_TYPE_OFFER; sdp := "v=0" |});
   Sender.ev_message SOUP_WEBSOCKET_DATA_TEXT
     (@encode RefJson.lib answer_v0);
   Sender.ev_message SOUP_WEBSOCKET_DATA_TEXT
     (@encode RefJson.lib candidate_1)].

(** The trace of [two_offers] on a started receiver. *)
Definition two_offers_trace : Trace :=
  [g_print "[receiver] Received SDP offer -> set-remote-description\n" [];
   emit_set_remote_description
     {| type := GST_WEBRTC_SDP_TYPE_OFFER; sdp := "v=0" |} cb_on_offer_set;
   emit_create_answer cb_on_answer_created;
   g_print "[receiver] Received SDP offer -> set-remote-description\n" [];
   emit_set_remote_description
     {| type := GST_WEBRTC_SDP_TYPE_OFFER; sdp := "v=0" |} cb_on_offer_set;
   emit_create_answer cb_on_answer_created].

(** An object with an "ice" member that holds no candidate, and an offer
    without its text, built with the reference library. *)
Definition empty_ice_frame : string :=
  RefJson.print (JSON_OBJECT [("ice", JSON_OBJECT [])]).

Definition offer_without_text_frame : string :=
  RefJson.print
    (JSON_OBJECT [("sdp", JSON_OBJECT [("type", JSON_STRING "offer")])]).

(** A C string holds no NUL byte. *)
Fixpoint nul_free (s : string) : bool :=
  match s with
  | EmptyString => true
  | String c rest => negb (Ascii.eqb c zero) && nul_free rest
  end.

Definition nul_free_message (m : SignalingMessage) : bool :=
  match m with
  | SdpMessage desc => nul_free (sdp desc)
  | IceMessage candidate _ => nul_free candidate
  end.

(** ** Start-up: the rest of receiver.c and sender.c *)

Inductive GstStateChangeReturn : Type :=
| GST_STATE_CHANGE_FAILURE
| GST_STATE_CHANGE_SUCCESS
| GST_STATE_CHANGE_ASYNC
| GST_STATE_CHANGE_NO_PREROLL.

(** The library calls of the start-up code, beside those of [Effect]. *)
Inductive Call : Type :=
| effect (e : Effect)
| gst_pipeline_new (name : string)
| gst_element_factory_make (factoryname name : string)
| gst_parse_launch (pipeline_description : string)
| gst_bin_get_by_name (name : string)
| g_signal_connect (instance detailed_signal handler : string)
| gst_element_set_state_PLAYING
| soup_session_new
| soup_message_new (method uri : string)
| soup_session_websocket_connect_async
| g_main_loop_new
| g_main_loop_run (live : bool).

(** The two globals the command line sets. *)
Record Config : Type := {
  server_url : string;
  disable_ssl : bool
}.

Definition default_config : Config :=
  {| server_url := "wss://108.130.0.118:8080"; disable_ssl := true |}.

Definition GST_WEBRTC_BUNDLE_POLICY_MAX_BUNDLE : Z := 3.

Definition set_ws_conn (g : Globals) (ws : option SoupWebsocketState)
  : Globals :=
  {| loop := loop g; pipep := pipep g; webrtc := webrtc g; ws_conn := ws |}.

Definition state_change_failed (r : GstStateChangeReturn) : bool :=
  match r with
  | GST_STATE_CHANGE_FAILURE => true
  | _ => false
  end.

Module ReceiverStart.

(** What GStreamer answers during [start_pipeline]. *)
Record StartEnv : Type := {
  pipeline_new : bool;
  factory_make : bool;
  set_state_ret : GstStateChangeReturn
}.

(** [start_pipeline]: both globals are assigned before the test. *)
Definition start_pipeline (env : StartEnv) (g : Globals)
  : Globals * bool * list Call :=
  let g1 := {| loop := loop g; pipep := pipeline_new env;
               webrtc := factory_make env; ws_conn := ws_conn g |} in
  let t_new := [gst_pipeline_new "receiver-pipepline";
                gst_element_factory_make "webrtcbin" "sendrecv"] in
  if negb (pipeline_new env) || negb (factory_make env) then
    (g1, false,
     t_new ++
     [effect (g_printerr
                "[receiver] Failed to create pipepline or webrtcbin\n" [])])
  else
    let t_setup :=
      t_new ++
      [effect (g_object_set "sendrecv" "bundle-policy"
                 GST_WEBRTC_BUNDLE_POLICY_MAX_BUNDLE);
       effect gst_bin_add;
       g_signal_connect "webrtc" "on-ice-candidate" "send_ice_candidate";
       g_signal_connect "webrtc" "pad-added" "on_incoming_stream";
       gst_element_set_state_PLAYING] in
    if state_change_failed (set_state_ret env) then
      (g1, false,
       t_setup ++
       [effect (g_printerr
                  "[receiver] Failed to set pipepline to PLAYING\n" [])])
    else
      (g1, true,
       t_setup ++
       [effect (g_print
                  "[receiver] pipeline started (waiting for offer)\n" [])]).

(** [on_server_connected]: [error] is the message of the [GError] that
    [soup_session_websocket_connect_finish] set, if any; the function
    returns NULL then, and an open connection otherwise. *)
Definition on_server_connected (error : option string) (env : StartEnv)
  (g : Globals) : Globals * list Call :=
  match error with
  | Some message =>
      let '(g1, t) :=
        cleanup_and_quit (Some "[receiver] WS connect failed")
          (set_ws_conn g None) in
      (g1,
       effect (g_printerr "WS connect failed: %s\n" [arg_s message])
       :: map effect t)
  | None =>
      let g0 := set_ws_conn g (Some SOUP_WEBSOCKET_STATE_OPEN) in
      let t_conn :=
        [effect (g_print "[receiver] Connected to signaling server\n" []);
         g_signal_connect "ws_conn" "message" "handle_server_message";
         g_signal_connect "ws_conn" "closed" "on_server_closed"] in
      let '(g1, ok, t_start) := start_pipeline env g0 in
      if ok then (g1, t_conn ++ t_start)
      else
        let '(g2, t) :=
          cleanup_and_quit (Some "[receiver] Failed to start pipeline") g1 in
        (g2, t_conn ++ t_start ++ map effect t)
  end.

(** [on_accept_certificate]; no [g_signal_connect] names it (the call is
    commented out in [connect_to_server_async]). *)
Definition on_accept_certificate (cfg : Config) (tls_errors : Z)
  : bool * list Call :=
  if negb (disable_ssl cfg) then (false, [])
  else
    (true,
     [effect (g_printerr
                ("[receiver] TLS certificate validation failed (errors=0x%x), "
                 ++ "but --disable-ssl is set, accepting certificate\n")
                [arg_d (to_guint tls_errors)])]).

(** [connect_to_server_async]: [message_ok] tells whether
    [soup_message_new] could parse the URL. *)
Definition connect_to_server_async (cfg : Config) (message_ok : bool)
  (g : Globals) : Globals * list Call :=
  let t_new := [soup_session_new; soup_message_new "GET" (server_url cfg)] in
  if negb message_ok then
    let '(g1, t) :=
      cleanup_and_quit (Some "[receiver] Failed to create SoupMessage") g in
    (g1, t_new ++ map effect t)
  else
    (g,
     t_new ++
     [effect (g_print "[receiver] Connecting to %s ...\n"
                [arg_s (server_url cfg)]);
      soup_session_websocket_connect_async]).

(** [main] up to its return: [options] is the outcome of
    [g_option_context_parse] (an error message, or the configuration it
    leaves in the globals); [g_main_loop_run] stands for everything the
    loop dispatches before it returns. *)
Definition main (options : string + Config) (message_ok : bool)
  : Z * Globals * list Call :=
  let g_null :=
    {| loop := false; pipep := false; webrtc := false; ws_conn := None |} in
  match options with
  | inl message =>
      (1, g_null,
       [effect (g_printerr "Option parsing failed: %s\n" [arg_s message])])
  | inr cfg =>
      let g0 := {| loop := true; pipep := false; webrtc := false;
                   ws_conn := None |} in
      let '(g1, t) := connect_to_server_async cfg message_ok g0 in
      (0, g1, [g_main_loop_new] ++ t ++ [g_main_loop_run (loop g1)])
  end.

End ReceiverStart.

Module SenderStart.

(** What GStreamer answers during [start_pipeline]: the element
    [gst_parse_launch] returns (NULL, or an element that is a bin or not),
    the error it may set beside, whether the bin holds "sendrecv", and the
    state change. *)
Record StartEnv : Type := {
  launched : option bool;
  launch_error : option string;
  by_name : bool;
  set_state_ret : GstStateChangeReturn
}.

Definition pipeline_description : string :=
  "webrtcbin name=sendrecv bundle-policy=max-bundle latency=20 " ++
  "mfvideosrc do-timestamp=true ! " ++
  "video/x-raw,width=640,height=360,framerate=30/1 ! " ++
  "queue max-size-buffers=2 max-size-time=0 max-size-bytes=0 leaky=downstream ! " ++
  "videoconvert ! video/x-raw,format=I420 ! " ++
  "x264enc tune=zerolatency speed-preset=ultrafast bitrate=1500 " ++
  "key-int-max=15 bframes=0 byte-stream=true aud=false ! " ++
  "h264parse config-interval=1 ! " ++
  "rtph264pay pt=96 config-interval=1 aggregate-mode=zero-latency ! " ++
  "application/x-rtp,media=video,encoding-name=H264,payload=96 ! " ++
  "sendrecv.".

Definition is_some {A : Type} (o : option A) : bool :=
  match o with
  | Some _ => true
  | None => false
  end.

(** [GST_IS_BIN (pipep)]: false on NULL. *)
Definition GST_IS_BIN (p : option bool) : bool :=
  match p with
  | Some b => b
  | None => false
  end.

Definition start_pipeline (env : StartEnv) (g : Globals)
  : Globals * bool * list Call :=
  let g1 := {| loop := loop g; pipep := is_some (launched env);
               webrtc := webrtc g; ws_conn := ws_conn g |} in
  let t_launch := [gst_parse_launch pipeline_description] in
  match launch_error env with
  | Some message =>
      (g1, false,
       t_launch ++
       [effect (g_printerr "[sender] Failed to parse pipeline: %s\n"
                  [arg_s message])])
  | None =>
      if negb (GST_IS_BIN (launched env)) then
        (g1, false,
         t_launch ++
         [effect (g_printerr
                    "[sender] Parsed pipeline is not a bin/pipeline\n" [])])
      else
        let g2 := {| loop := loop g; pipep := is_some (launched env);
                     webrtc := by_name env; ws_conn := ws_conn g |} in
        let t_name := t_launch ++ [gst_bin_get_by_name "sendrecv"] in
        if negb (by_name env) then
          (g2, false,
           t_name ++
           [effect (g_printerr
                      "[sender] Failed to get webrtcbin by name 'sendrecv'\n"
                      [])])
        else
          let t_setup :=
            t_name ++
            [effect (g_object_set "sendrecv" "bundle-policy"
                       GST_WEBRTC_BUNDLE_POLICY_MAX_BUNDLE);
             effect (g_object_set "sendrecv" "latency" 20);
             g_signal_connect "webrtc" "on-negotiation-needed"
               "on_negotiation_needed";
             g_signal_connect "webrtc" "on-ice-candidate"
               "send_ice_candidate";
             gst_element_set_state_PLAYING] in
          if state_change_failed (set_state_ret env) then
            (g2, false,
             t_setup ++
             [effect (g_printerr
                        "[sender] Failed to set pipeline to PLAYING\n" [])])
          else
            (g2, true,
             t_setup ++
             [effect (g_print "[sender] pipeline started (VP8)\n" [])])
  end.

Definition on_server_connected (error : option string) (env : StartEnv)
  (g : Globals) : Globals * list Call :=
  match error with
  | Some message =>
      let '(g1, t) :=
        cleanup_and_quit (Some "[sender] WS connect failed")
          (set_ws_conn g None) in
      (g1,
       effect (g_printerr "WS connect failed: %s\n" [arg_s message])
       :: map effect t)
  | None =>
      let g0 := set_ws_conn g (Some SOUP_WEBSOCKET_STATE_OPEN) in
      let t_conn :=
        [effect (g_print "[sender] Connected to signaling server\n" []);
         g_signal_connect "ws_conn" "message" "handle_server_message";
         g_signal_connect "ws_conn" "closed" "on_server_closed"] in
      let '(g1, ok, t_start) := start_pipeline env g0 in
      if ok then (g1, t_conn ++ t_start)
      else
        let '(g2, t) :=
          cleanup_and_quit (Some "[sender] Failed to start pipeline") g1 in
        (g2, t_conn ++ t_start ++ map effect t)
  end.

Definition on_accept_certificate (cfg : Config) (tls_errors : Z)
  : bool * list Call :=
  if negb (disable_ssl cfg) then (false, [])
  else
    (true,
     [effect (g_printerr
                ("[sender] TLS certificate validation failed (errors=0x%x), "
                 ++ "but --disable-ssl is set, accepting certificate\n")
                [arg_d (to_guint tls_errors)])]).

Definition connect_to_server_async (cfg : Config) (message_ok : bool)
  (g : Globals) : Globals * list Call :=
  let t_new := [soup_session_new; soup_message_new "GET" (server_url cfg)] in
  if negb message_ok then
    let '(g1, t) :=
      cleanup_and_quit (Some "[sender] Failed to create SoupMessage") g in
    (g1, t_new ++ map effect t)
  else
    (g,
     t_new ++
     [effect (g_print "[sender] Connecting to %s ...\n"
                [arg_s (server_url cfg)]);
      soup_session_websocket_connect_async]).

Definition main (options : string + Config) (message_ok : bool)
  : Z * Globals * list Call :=
  let g_null :=
    {| loop := false; pipep := false; webrtc := false; ws_conn := None |} in
  match options with
  | inl message =>
      (1, g_null,
       [effect (g_printerr "Option parsing failed: %s\n" [arg_s message])])
  | inr cfg =>
      let g0 := {| loop := true; pipep := false; webrtc := false;
                   ws_conn := None |} in
      let '(g1, t) := connect_to_server_async cfg message_ok g0 in
      (0, g1, [g_main_loop_new] ++ t ++ [g_main_loop_run (loop g1)])
  end.

End SenderStart.

(** ** exampleOfWebsocket.c *)

Module ExampleClient.

(** The calls of the example client. *)
Inductive Call : Type :=
| printf (format : string) (args : list Arg)
| fprintf_stderr (format : string) (args : list Arg)
| g_main_loop_quit
| soup_websocket_connection_set_keepalive_interval (interval : Z)
| g_signal_connect (detailed_signal handler : string)
| soup_websocket_connection_send_text (text : string).

Definition SOUP_WEBSOCKET_DATA_TEXT : Z := 1.
Definition SOUP_WEBSOCKET_DATA_BINARY : Z := 2.

(** [on_ws_message]: [type] is a [gint], [size] the length of the frame;
    the precision of ["%.*s"] is [(int)size]. *)
Definition on_ws_message (type : Z) (size : Z) (data : string) : list Call :=
  if Z.eqb type SOUP_WEBSOCKET_DATA_TEXT then
    [printf "TEXT (%zu): %.*s\n" [arg_d size; arg_d (to_gint size); arg_s data]]
  else if Z.eqb type SOUP_WEBSOCKET_DATA_BINARY then
    [printf "BINARY (%zu bytes)\n" [arg_d size]]
  else [].

Definition on_ws_closed : list Call :=
  [printf "WebSocket closed\n" []; g_main_loop_quit].

Definition on_ws_error (error : option string) : list Call :=
  [fprintf_stderr "WebSocket error: %s\n"
     [arg_s match error with
            | Some message => message
            | None => "unknown"
            end]].

(** [on_connect_finished]: [failure] is the message of the error when
    [soup_session_websocket_connect_finish] returned NULL. *)
Definition on_connect_finished (failure : option string) : list Call :=
  match failure with
  | Some message =>
      [fprintf_stderr "Connect failed: %s\n" [arg_s message];
       g_main_loop_quit]
  | None =>
      [printf "Connected!\n" [];
       soup_websocket_connection_set_keepalive_interval 15;
       g_signal_connect "message" "on_ws_message";
       g_signal_connect "closed" "on_ws_closed";
       g_signal_connect "error" "on_ws_error";
       soup_websocket_connection_send_text "Hello from libsoup client"]
  end.

(** The signals of the connection. *)
Inductive Event : Type :=
| ev_message (type : Z) (size : Z) (data : string)
| ev_closed
| ev_error (error : option string).

Definition dispatch (e : Event) : list Call :=
  match e with
  | ev_message type size data => on_ws_message type size data
  | ev_closed => on_ws_closed
  | ev_error error => on_ws_error error
  end.

(** The connect callback, then the signals in order.  No signal is
    connected after a failure. *)
Definition run (failure : option string) (es : list Event) : list Call :=
  on_connect_finished failure ++
  match failure with
  | Some _ => []
  | None => flat_map dispatch es
  end.

Definition is_send (c : Call) : bool :=
  match c with
  | soup_websocket_connection_send_text _ => true
  | _ => false
  end.

Definition is_quit (c : Call) : bool :=
  match c with
  | g_main_loop_quit => true
  | _ => false
  end.

Definition is_closed (e : Event) : bool :=
  match e with
  | ev_closed => true
  | _ => false
  end.

End ExampleClient.

(** ** Further observations *)

(** The frames a trace sends, in order. *)
Fixpoint sent (t : Trace) : list string :=
  match t with
  | [] => []
  | soup_websocket_connection_send_text text :: rest => text :: sent rest
  | _ :: rest => sent rest
  end.

Definition is_send_text (e : Effect) : bool :=
  match e with
  | soup_websocket_connection_send_text _ => true
  | _ => false
  end.

(** A frame is sent or the media engine is called. *)
Definition loud (e : Effect) : bool :=
  is_send_text e || is_media_engine_call e.

Definition is_close (e : Effect) : bool :=
  match e with
  | soup_websocket_connection_close _ _ => true
  | _ => false
  end.

Definition is_stop (e : Effect) : bool :=
  match e with
  | gst_element_set_state_NULL => true
  | _ => false
  end.

Definition is_quit (e : Effect) : bool :=
  match e with
  | g_main_loop_quit => true
  | _ => false
  end.

Definition is_bin_add (e : Effect) : bool :=
  match e with
  | gst_bin_add => true
  | _ => false
  end.

Definition b2n (b : bool) : nat := if b then 1 else 0.

(** Nothing left to stop and nobody left to talk to. *)
Definition dead (g : Globals) : Prop :=
  webrtc g = false /\ ws_open g = false /\ loop g = false /\ pipep g = false.

(** The description type the peer reads from the wire. *)
Definition wire_type (t : GstWebRTCSDPType) : GstWebRTCSDPType :=
  match t with
  | GST_WEBRTC_SDP_TYPE_OFFER => GST_WEBRTC_SDP_TYPE_OFFER
  | _ => GST_WEBRTC_SDP_TYPE_ANSWER
  end.

(** The parse of an attempt got as far as [gst_bin_add]. *)
Definition bin_added (a : Receiver.Attach) : bool :=
  match Receiver.parse_err a with
  | Some _ => false
  | None => Receiver.rxbin a
  end.

(** What a handler reads of the member [outer] of a frame's object:
    whether it is there, and the members [inner] of the object it holds
    (nothing when it holds no object). *)
Definition member_view (obj : JsonObject) (outer : string)
  (inner : list string) : bool * list (option JsonNode) :=
  (json_object_has_member obj outer,
   map (fun k =>
          match json_object_get_object_member (Some obj) outer with
          | Some m => json_object_get_member m k
          | None => None
          end) inner).

(** The frame [send_ice_candidate] sends for a candidate. *)
Definition candidate_frame `{JsonLib} (c : Z * string) : Effect :=
  soup_websocket_connection_send_text
    (json_object_to_string (ice_message (fst c) (snd c))).

(** The effects among the calls of the start-up code. *)
Fixpoint effects (t : list Call) : Trace :=
  match t with
  | [] => []
  | effect e :: rest => e :: effects rest
  | _ :: rest => effects rest
  end.

(** Two ICE objects that differ in member order and in a member the
    handlers do not read. *)
Definition ice_plain : JsonObject :=
  [("ice", JSON_OBJECT [("candidate", JSON_STRING "candidate:1");
                        ("sdpMLineIndex", JSON_INT 0)])].

Definition ice_with_mid : JsonObject :=
  [("id", JSON_INT 7);
   ("ice", JSON_OBJECT [("sdpMid", JSON_STRING "0");
                        ("sdpMLineIndex", JSON_INT 0);
                        ("candidate", JSON_STRING "candidate:1")])].

(** The inputs on which the receiver process dies: an offer whose "sdp"
    member holds no string ([strlen] of NULL), a create-answer promise
    that was not replied to ([g_assert]), or a reply without an answer
    while the connection is open ([desc->sdp] of NULL). *)
Definition receiver_aborts `{JsonLib} (e : Receiver.Event)
  (s : Receiver.State) : Prop :=
  match e with
  | Receiver.ev_message SOUP_WEBSOCKET_DATA_TEXT bytes =>
      match json_parser_load_from_data (g_strndup bytes) with
      | Some (JSON_OBJECT obj) =>
          let sdpobj := json_object_get_object_member (Some obj) "sdp" in
          json_object_has_member obj "sdp" = true /\
          json_object_get_string_member sdpobj "type" = Some "offer" /\
          json_object_get_string_member sdpobj "sdp" = None
      | _ => False
      end
  | Receiver.ev_answer_created result answer =>
      result <> GST_PROMISE_RESULT_REPLIED \/
      (answer = None /\ ws_open (Receiver.globals s) = true)
  | _ => False
  end.

(** The same for the sender, with "answer" and the create-offer
    promise. *)
Definition sender_aborts `{JsonLib} (e : Sender.Event) (s : Sender.State)
  : Prop :=
  match e with
  | Sender.ev_message SOUP_WEBSOCKET_DATA_TEXT bytes =>
      match json_parser_load_from_data (g_strndup bytes) with
      | Some (JSON_OBJECT obj) =>
          let sdpobj := json_object_get_object_member (Some obj) "sdp" in
          json_object_has_member obj "sdp" = true /\
          json_object_get_string_member sdpobj "type" = Some "answer" /\
          json_object_get_string_member sdpobj "sdp" = None
      | _ => False
      end
  | Sender.ev_offer_created result offer =>
      result <> GST_PROMISE_RESULT_REPLIED \/
      (offer = None /\ ws_open s = true)
  | _ => False
  end.

(** A started receiver that sees its connection closed twice, with a
    late candidate and a late pad in between; a started sender that is
    closed and then gets a late negotiation signal and a late
    candidate. *)
Definition closed_then_late : list Receiver.Event :=
  [Receiver.ev_closed;
   Receiver.ev_on_ice_candidate 0 "candidate:1";
   Receiver.ev_message SOUP_WEBSOCKET_DATA_TEXT
     (@encode RefJson.lib candidate_1);
   Receiver.ev_pad_added rtp_h264_pad attach_ok;
   Receiver.ev_closed].

Definition sender_closed_then_late : list Sender.Event :=
  [Sender.ev_closed;
   Sender.ev_negotiation_needed;
   Sender.ev_on_ice_candidate 0 "candidate:1";
   Sender.ev_message SOUP_WEBSOCKET_DATA_TEXT
     (@encode RefJson.lib answer_v0)].

(** ** A session from its first instruction *)

Definition is_none {A : Type} (o : option A) : bool :=
  match o with
  | Some _ => false
  | None => true
  end.

(** Every step of the receiver's start-up succeeded. *)
Definition receiver_start_ok (error : option string)
  (env : ReceiverStart.StartEnv) : bool :=
  is_none error && ReceiverStart.pipeline_new env &&
  ReceiverStart.factory_make env &&
  negb (state_change_failed (ReceiverStart.set_state_ret env)).

Definition sender_start_ok (error : option string)
  (env : SenderStart.StartEnv) : bool :=
  is_none error && is_none (SenderStart.launch_error env) &&
  SenderStart.GST_IS_BIN (SenderStart.launched env) &&
  SenderStart.by_name env &&
  negb (state_change_failed (SenderStart.set_state_ret env)).

(** [main] up to the loop, then, if the connection attempt was started,
    its callback [on_server_connected]. *)
Definition receiver_boot (options : string + Config) (message_ok : bool)
  (error : option string) (env : ReceiverStart.StartEnv)
  : Z * Globals * list Call :=
  let '(code, g1, t1) := ReceiverStart.main options message_ok in
  match options with
  | inr _ =>
      if message_ok then
        let '(g2, t2) := ReceiverStart.on_server_connected error env g1 in
        (code, g2, t1 ++ t2)
      else (code, g1, t1)
  | inl _ => (code, g1, t1)
  end.

Definition sender_boot (options : string + Config) (message_ok : bool)
  (error : option string) (env : SenderStart.StartEnv)
  : Z * Globals * list Call :=
  let '(code, g1, t1) := SenderStart.main options message_ok in
  match options with
  | inr _ =>
      if message_ok then
        let '(g2, t2) := SenderStart.on_server_connected error env g1 in
        (code, g2, t1 ++ t2)
      else (code, g1, t1)
  | inl _ => (code, g1, t1)
  end.

(** The sender's part before the answer, the receiver's part, and the
    sender's part after it, in one offer/answer exchange. *)
Definition sender_offers (offer : GstWebRTCSessionDescription)
  : list Sender.Event :=
  [Sender.ev_negotiation_needed;
   Sender.ev_offer_created GST_PROMISE_RESULT_REPLIED (Some offer)].

Definition receiver_answers (frame : string)
  (answer : GstWebRTCSessionDescription) : list Receiver.Event :=
  [Receiver.ev_message SOUP_WEBSOCKET_DATA_TEXT frame;
   Receiver.ev_offer_set;
   Receiver.ev_answer_created GST_PROMISE_RESULT_REPLIED (Some answer)].

(** The events on which a program may send a frame: a local candidate,
    or the description it asked the media engine to create. *)
Definition receiver_local (e : Receiver.Event) : bool :=
  match e with
  | Receiver.ev_on_ice_candidate _ _ => true
  | Receiver.ev_answer_created _ _ => true
  | _ => false
  end.

Definition sender_local (e : Sender.Event) : bool :=
  match e with
  | Sender.ev_on_ice_candidate _ _ => true
  | Sender.ev_offer_created _ _ => true
  | _ => false
  end.

(** The handlers a trace installs: instance, signal and callback of each
    [g_signal_connect], in order. *)
Definition connected (t : list Call) : list (string * string * string) :=
  flat_map (fun c => match c with
                     | g_signal_connect instance detailed_signal handler =>
                         [(instance, detailed_signal, handler)]
                     | _ => []
                     end) t.

(** ** Callbacks that do not return *)

(** What a callback has done by the time it kills the process.  The
    [g_assert] of [on_answer_created] and [on_offer_created] is their
    first statement, and the [strlen] of [handle_server_message] comes
    before its first call, so nothing has happened yet.  A NULL
    description is dereferenced in [send_sdp], after the emission of
    "set-local-description" and the print. *)
Definition receiver_last_effects (e : Receiver.Event) (s : Receiver.State)
  : Trace :=
  match e with
  | Receiver.ev_answer_created GST_PROMISE_RESULT_REPLIED answer =>
      emit (Receiver.globals s) (emit_set_local_description answer) ++
      [g_print "[receiver] Sending SDP answer\n" []]
  | _ => []
  end.

Definition sender_last_effects (e : Sender.Event) (s : Sender.State)
  : Trace :=
  match e with
  | Sender.ev_offer_created GST_PROMISE_RESULT_REPLIED offer =>
      emit s (emit_set_local_description offer) ++
      [g_print "[sender] Sending SDP offer\n" []]
  | _ => []
  end.

(** The callbacks of [es] delivered one after the other, whatever they
    are, up to and including one that kills the process: the effects so
    far, and the state at the end if the process is still alive. *)
Fixpoint receiver_play `{JsonLib} (es : list Receiver.Event)
  (s : Receiver.State) : Trace * option Receiver.State :=
  match es with
  | [] => ([], Some s)
  | e :: rest =>
      match Receiver.dispatch e s with
      | Some (s1, t1) =>
          let '(t2, final) := receiver_play rest s1 in (t1 ++ t2, final)
      | None => (receiver_last_effects e s, None)
      end
  end.

Fixpoint sender_play `{JsonLib} (es : list Sender.Event) (s : Sender.State)
  : Trace * option Sender.State :=
  match es with
  | [] => ([], Some s)
  | e :: rest =>
      match Sender.dispatch e s with
      | Some (s1, t1) =>
          let '(t2, final) := sender_play rest s1 in (t1 ++ t2, final)
      | None => (sender_last_effects e s, None)
      end
  end.

(** After "closed": a late pad, then the change function of a promise
    that was interrupted (receiver) or has expired (sender), then a late
    candidate that the dead process never sees. *)
Definition late_after_closed : list Receiver.Event :=
  [Receiver.ev_pad_added rtp_h264_pad attach_ok;
   Receiver.ev_answer_created GST_PROMISE_RESULT_INTERRUPTED None;
   Receiver.ev_on_ice_candidate 0 "candidate:1"].

Definition sender_late_after_closed : list Sender.Event :=
  [Sender.ev_negotiation_needed;
   Sender.ev_offer_created GST_PROMISE_RESULT_EXPIRED None;
   Sender.ev_on_ice_candidate 0 "candidate:1"].

(** The line [cleanup_and_quit] prints for its argument. *)
Definition teardown_message (msg : option string) : Trace :=
  match msg with
  | Some m => [g_printerr "%s\n" [arg_s m]]
  | None => []
  end.

(** A candidate whose text needs escaping, with the largest index, and an
    offer of two lines. *)
Definition escaped_candidate : SignalingMessage :=
  IceMessage
    ("candidate:1 1 UDP " ++
     String RefJson.quote
       (String RefJson.backslash (String RefJson.tab "typ host")))%string
    4294967295.

Definition offer_two_lines : SignalingMessage :=
  SdpMessage
    {| type := GST_WEBRTC_SDP_TYPE_OFFER;
       sdp := ("v=0" ++
               String RefJson.cr (String RefJson.newline "s=-"))%string |}.

(** * Properties *)

(** ** Machine integers *)

Lemma to_gint_small (z : Z) : 0 <= z < 2 ^ 31 -> to_gint z = z.
Proof.
  intros Hz. unfold to_gint.
  rewrite Z.mod_small by lia. lia.
Qed.

Lemma to_gint_large (z : Z) :
  2 ^ 31 <= z < 2 ^ 32 -> to_gint z = z - 2 ^ 32.
Proof.
  intros Hz. unfold to_gint.
  replace (z + 2 ^ 31) with ((z - 2 ^ 31) + 1 * 2 ^ 32) by lia.
  rewrite Z.mod_add by lia.
  rewrite Z.mod_small by lia. lia.
Qed.

Lemma to_gint_range (z : Z) : - 2 ^ 31 <= to_gint z < 2 ^ 31.
Proof.
  unfold to_gint.
  pose proof (Z.mod_pos_bound (z + 2 ^ 31) (2 ^ 32) ltac:(lia)). lia.
Qed.

Lemma to_gint_idem (z : Z) : to_gint (to_gint z) = to_gint z.
Proof.
  pose proof (to_gint_range z) as Hr.
  unfold to_gint at 1.
  rewrite Z.mod_small by lia. lia.
Qed.

(** The [guint] read back from the [gint] an index was cast to is the
    index. *)
Lemma to_guint_to_gint (z : Z) : is_guint z -> to_guint (to_gint z) = z.
Proof.
  intros Hz. unfold is_guint in Hz. unfold to_guint.
  destruct (Z_lt_ge_dec z (2 ^ 31)) as [Hlt | Hge].
  - rewrite to_gint_small by lia. apply Z.mod_small. lia.
  - rewrite to_gint_large by lia.
    replace (z - 2 ^ 32) with (z + (-1) * 2 ^ 32) by lia.
    rewrite Z.mod_add by lia. apply Z.mod_small. lia.
Qed.

(** ** Sending a candidate: the cast of the media-line index *)

Lemma ice_message_members (mlineindex : Z) (candidate : string) :
  ice_message mlineindex candidate =
  [("ice", JSON_OBJECT [("candidate", JSON_STRING candidate);
                        ("sdpMLineIndex", JSON_INT (to_gint mlineindex))])].
Proof. reflexivity. Qed.

(** C10. When a local candidate is encoded, the [guint] media-line index
    goes through the [(gint)] cast: the frame that is sent is the
    generated text of the "ice" object, whose "sdpMLineIndex" is the index
    itself below 2^31 and the index minus 2^32, a negative integer, from
    2^31 on. *)
Theorem send_ice_candidate_index_cast `{JsonLib} (mlineindex : Z)
  (candidate : string) (g : Globals) :
  is_guint mlineindex ->
  ws_open g = true ->
  send_ice_candidate mlineindex candidate g =
    [soup_websocket_connection_send_text
       (json_object_to_string (ice_message mlineindex candidate))] /\
  (mlineindex < 2 ^ 31 ->
   wire_sdpMLineIndex (ice_message mlineindex candidate) = mlineindex) /\
  (2 ^ 31 <= mlineindex ->
   wire_sdpMLineIndex (ice_message mlineindex candidate)
     = mlineindex - 2 ^ 32 /\
   wire_sdpMLineIndex (ice_message mlineindex candidate) < 0).
Proof.
  intros Hidx Hopen. unfold is_guint in Hidx.
  split; [| split].
  - unfold send_ice_candidate. rewrite Hopen. reflexivity.
  - intros Hlt. rewrite ice_message_members.
    unfold wire_sdpMLineIndex. cbn.
    apply to_gint_small. lia.
  - intros Hge. rewrite ice_message_members.
    unfold wire_sdpMLineIndex. cbn.
    rewrite to_gint_large by lia. lia.
Qed.

Lemma send_ice_candidate_index_cast_witness :
  is_guint 4294967295 /\
  ws_open (Sender.state Sender.started) = true /\
  wire_sdpMLineIndex (ice_message 4294967295 "candidate:1 1 UDP") = -1 /\
  wire_sdpMLineIndex (ice_message 4294967295 "candidate:1 1 UDP") < 0.
Proof.
  assert (Hidx : is_guint 4294967295) by (unfold is_guint; lia).
  split; [exact Hidx | split; [reflexivity |]].
  apply (@send_ice_candidate_index_cast RefJson.lib 4294967295
           "candidate:1 1 UDP" (Sender.state Sender.started) Hidx eq_refl).
  lia.
Defined.

(** ** Teardown *)

Lemma cleanup_and_quit_torn_down (msg : option string) (g : Globals) :
  torn_down (fst (cleanup_and_quit msg g)).
Proof.
  destruct g as [l p w ws].
  destruct l, p, ws as [[ | | ] | ]; repeat split.
Qed.

(** A teardown of a session that is already torn down stops nothing,
    closes nothing and leaves the three handles NULL. *)
Lemma cleanup_and_quit_again (msg : option string) (g : Globals) :
  torn_down g ->
  filter observable (snd (cleanup_and_quit msg g)) = [] /\
  loop (fst (cleanup_and_quit msg g)) = loop g /\
  pipep (fst (cleanup_and_quit msg g)) = pipep g /\
  webrtc (fst (cleanup_and_quit msg g)) = webrtc g.
Proof.
  destruct g as [l p w ws]. unfold torn_down, ws_open. cbn.
  intros (Hl & Hp & Hws). subst l p.
  destruct ws as [[ | | ] | ]; try discriminate;
    destruct msg; cbn; auto.
Qed.

Lemma teardown_calls_again (msgs : list (option string)) (g : Globals) :
  torn_down g ->
  filter observable (snd (teardown_calls msgs g)) = [] /\
  loop (fst (teardown_calls msgs g)) = loop g /\
  pipep (fst (teardown_calls msgs g)) = pipep g /\
  webrtc (fst (teardown_calls msgs g)) = webrtc g.
Proof.
  revert g. induction msgs as [| msg rest IH]; intros g Hg.
  - cbn. auto.
  - cbn [teardown_calls].
    pose proof (cleanup_and_quit_again msg g Hg) as (Hobs & Hl & Hp & Hw).
    pose proof (cleanup_and_quit_torn_down msg g) as Hg1.
    destruct (cleanup_and_quit msg g) as [g1 t1]. cbn [fst snd] in *.
    specialize (IH g1 Hg1). destruct IH as (Hobs' & Hl' & Hp' & Hw').
    destruct (teardown_calls rest g1) as [g2 t2]. cbn [fst snd] in *.
    rewrite filter_app, Hobs, Hobs'.
    repeat split; congruence.
Qed.

(** On a started session the first call closes, stops and quits; the
    second one prints its message and drops the connection. *)
Example cleanup_and_quit_started :
  cleanup_and_quit (Some "[receiver] Server closed")
    (Receiver.globals (Receiver.state Receiver.started))
  = ({| loop := false; pipep := false; webrtc := false;
        ws_conn := Some SOUP_WEBSOCKET_STATE_CLOSING |},
     [g_printerr "%s\n" [arg_s "[receiver] Server closed"];
      soup_websocket_connection_close 1000 EmptyString;
      gst_element_set_state_NULL; unref h_pipep;
      g_main_loop_quit; unref h_loop]).
Proof. reflexivity. Qed.

Example cleanup_and_quit_second :
  cleanup_and_quit (Some "[receiver] Server closed")
    {| loop := false; pipep := false; webrtc := false;
       ws_conn := Some SOUP_WEBSOCKET_STATE_CLOSING |}
  = ({| loop := false; pipep := false; webrtc := false; ws_conn := None |},
     [g_printerr "%s\n" [arg_s "[receiver] Server closed"];
      unref h_ws_conn]).
Proof. reflexivity. Qed.

(** C6. Teardown is idempotent on what the outside sees, and from the
    third call on it is a no-op.  Whatever the state and the messages,
    two calls of [cleanup_and_quit] in a row, or more, close the
    transport, stop the pipeline and release the run loop exactly as one
    call does.  The second call does none of the three and leaves [loop],
    [pipep] and [webrtc] as the first left them, but it is not a no-op:
    it prints its message, and if the first call closed an open
    connection it drops the reference to it and clears [ws_conn].  Every
    call after the second changes nothing and only prints its message. *)
Theorem teardown_idempotent (msg1 msg2 : option string)
  (later : list (option string)) (g : Globals) :
  let once := cleanup_and_quit msg1 g in
  let second := cleanup_and_quit msg2 (fst once) in
  filter observable (snd (teardown_calls [msg1; msg2] g))
    = filter observable (snd once) /\
  filter observable (snd second) = [] /\
  filter observable (snd (teardown_calls (msg1 :: msg2 :: later) g))
    = filter observable (snd once) /\
  loop (fst second) = false /\ pipep (fst second) = false /\
  webrtc (fst second) = webrtc (fst once) /\
  ws_conn (fst second) = None /\
  snd second
    = teardown_message msg2 ++
      (if ws_open g then [unref h_ws_conn] else []) /\
  fst (teardown_calls (msg1 :: msg2 :: later) g) = fst second /\
  forall msg3 : option string,
    cleanup_and_quit msg3 (fst second) = (fst second, teardown_message msg3).
Proof.
  intros once second.
  pose proof (cleanup_and_quit_torn_down msg1 g) as Hdown.
  fold once in Hdown.
  pose proof (cleanup_and_quit_again msg2 (fst once) Hdown)
    as (Hobs2 & Hl2 & Hp2 & Hw2).
  fold second in Hobs2, Hl2, Hp2, Hw2.
  pose proof (teardown_calls_again (msg2 :: later) (fst once) Hdown)
    as (HobsN & _).
  destruct Hdown as (Hl1 & Hp1 & _).
  assert (Hsplit : forall rest,
             snd (teardown_calls (msg1 :: rest) g)
             = snd once ++ snd (teardown_calls rest (fst once))).
  { intros rest. cbn [teardown_calls]. subst once.
    destruct (cleanup_and_quit msg1 g) as [g1 t1]. cbn [fst snd].
    destruct (teardown_calls rest g1) as [g2 t2]. reflexivity. }
  assert (Hthird : forall msg3 : option string,
             cleanup_and_quit msg3 (fst second)
             = (fst second, teardown_message msg3)).
  { intros msg3. subst second once. destruct g as [l p w ws].
    destruct msg1, msg2, msg3, l, p, w, ws as [[ | | ] |]; reflexivity. }
  assert (Hrest : forall msgs,
             fst (teardown_calls msgs (fst second)) = fst second).
  { induction msgs as [| msg3 rest IH]; [reflexivity |].
    cbn [teardown_calls]. rewrite (Hthird msg3).
    destruct (teardown_calls rest (fst second)) as [g2 t2] eqn:Hcalls.
    cbn [fst] in *. exact IH. }
  split.
  { rewrite Hsplit, filter_app.
    pose proof (teardown_calls_again [msg2] (fst once)
                  (cleanup_and_quit_torn_down msg1 g)) as (H2 & _).
    rewrite H2. apply app_nil_r. }
  split; [exact Hobs2 |].
  split; [rewrite Hsplit, filter_app, HobsN; apply app_nil_r |].
  split; [congruence |].
  split; [congruence |].
  split; [exact Hw2 |].
  split.
  { subst second once. destruct g as [l p w ws].
    destruct msg1, msg2, l, p, w, ws as [[ | | ] |]; reflexivity. }
  split.
  { subst second once. destruct g as [l p w ws].
    destruct msg1, msg2, l, p, w, ws as [[ | | ] |]; reflexivity. }
  split; [| exact Hthird].
  specialize (Hrest later). subst second once.
  cbn [teardown_calls].
  destruct (cleanup_and_quit msg1 g) as [g1 t1]. cbn [fst snd] in *.
  destruct (cleanup_and_quit msg2 g1) as [g2 t2]. cbn [fst snd] in *.
  destruct (teardown_calls later g2) as [g3 t3]. cbn [fst] in *.
  exact Hrest.
Qed.

(** The second of two calls in a row is not a no-op.  On a started
    session the first call closes the connection and keeps the pointer to
    it; the second call, even without a message to print, drops that
    reference and clears [ws_conn]. *)
Lemma second_teardown_drops_connection :
  let g := Receiver.globals (Receiver.state Receiver.started) in
  let once := cleanup_and_quit None g in
  ws_conn (fst once) = Some SOUP_WEBSOCKET_STATE_CLOSING /\
  cleanup_and_quit None (fst once)
  = ({| loop := false; pipep := false; webrtc := false; ws_conn := None |},
     [unref h_ws_conn]) /\
  cleanup_and_quit None (fst once) <> (fst once, []).
Proof.
  cbn. split; [reflexivity | split; [reflexivity | discriminate]].
Qed.

(** ** Stream attachment *)

Lemma filter_tune_depay (a : Receiver.Attach) (p : Effect -> bool) :
  (forall x y z, p (g_object_set x y z) = false) ->
  filter p (Receiver.tune_depay a) = [].
Proof.
  intros Hp. unfold Receiver.tune_depay.
  destruct (Receiver.depay a), (Receiver.depay_request_keyframe a),
    (Receiver.depay_wait_for_keyframe a); cbn; rewrite ?Hp; reflexivity.
Qed.

Lemma filter_tune_vsink (a : Receiver.Attach) (p : Effect -> bool) :
  (forall x y z, p (g_object_set x y z) = false) ->
  filter p (Receiver.tune_vsink a) = [].
Proof.
  intros Hp. unfold Receiver.tune_vsink.
  destruct (Receiver.vsink a), (Receiver.vsink_qos a),
    (Receiver.vsink_max_lateness a); cbn; rewrite ?Hp; reflexivity.
Qed.

(** Once the chain is built a notification is turned away before any
    GStreamer call. *)
Lemma on_incoming_stream_built (pad : Receiver.GstPad) (a : Receiver.Attach)
  (s : Receiver.State) :
  Receiver.video_chain_built s = true ->
  fst (Receiver.on_incoming_stream pad a s) = s /\
  filter constructs_chain (snd (Receiver.on_incoming_stream pad a s)) = [].
Proof.
  intros Hbuilt. unfold Receiver.on_incoming_stream.
  destruct (negb (Receiver.direction_is_src (Receiver.direction pad))).
  - split; reflexivity.
  - rewrite Hbuilt. split; reflexivity.
Qed.

(** An accepted notification on a session without a chain makes one
    attempt, and the flag records whether it succeeded. *)
Lemma on_incoming_stream_attempt (pad : Receiver.GstPad) (a : Receiver.Attach)
  (s : Receiver.State) :
  Receiver.video_chain_built s = false ->
  matches_policy pad = true ->
  Receiver.video_chain_built (fst (Receiver.on_incoming_stream pad a s))
    = attach_succeeds a /\
  Receiver.globals (fst (Receiver.on_incoming_stream pad a s))
    = Receiver.globals s /\
  count is_parse_bin (snd (Receiver.on_incoming_stream pad a s)) = 1%nat.
Proof.
  intros Hnot Hmatch. unfold matches_policy in Hmatch.
  apply andb_true_iff in Hmatch. destruct Hmatch as [Hsrc Hcaps].
  unfold Receiver.on_incoming_stream, attach_succeeds, count.
  rewrite Hsrc, Hnot. cbn [negb].
  destruct (Receiver.current_caps pad) as [st |]; [| discriminate].
  rewrite Hcaps. cbn [negb].
  destruct (Receiver.parse_err a) as [message |].
  - cbn. auto.
  - destruct (Receiver.rxbin a); cbn [negb andb]; [| cbn; auto].
    destruct (Receiver.sinkpad a); cbn [negb andb];
      [destruct (Z.eqb (Receiver.link_ret a) Receiver.GST_PAD_LINK_OK) |];
      cbn [negb fst snd Receiver.video_chain_built Receiver.globals];
      rewrite ?filter_app, ?filter_tune_depay, ?filter_tune_vsink
        by reflexivity;
      repeat split; auto.
Qed.

Lemma notify_app (l1 l2 : list (Receiver.GstPad * Receiver.Attach))
  (s : Receiver.State) :
  notify (l1 ++ l2) s =
  (fst (notify l2 (fst (notify l1 s))),
   snd (notify l1 s) ++ snd (notify l2 (fst (notify l1 s)))).
Proof.
  revert s. induction l1 as [| [pad a] rest IH]; intros s.
  - cbn. destruct (notify l2 s). reflexivity.
  - cbn [notify app].
    destruct (Receiver.on_incoming_stream pad a s) as [s1 t1].
    rewrite IH.
    destruct (notify rest s1) as [s2 t2]. cbn [fst snd].
    now rewrite app_assoc.
Qed.

(** Attempts that fail leave the flag down, and each one is made. *)
Lemma notify_failed (ns : list (Receiver.GstPad * Receiver.Attach)) :
  forall s,
  Receiver.video_chain_built s = false ->
  Forall (fun n => matches_policy (fst n) = true) ns ->
  Forall (fun n => attach_succeeds (snd n) = false) ns ->
  Receiver.video_chain_built (fst (notify ns s)) = false /\
  count is_parse_bin (snd (notify ns s)) = List.length ns.
Proof.
  induction ns as [| [pad a] rest IH]; intros s Hnot Hmatch Hfail.
  - split; [exact Hnot | reflexivity].
  - inversion Hmatch as [| ? ? Hm Hmatch']; subst.
    inversion Hfail as [| ? ? Hf Hfail']; subst.
    cbn [fst snd] in Hm, Hf.
    destruct (on_incoming_stream_attempt pad a s Hnot Hm)
      as (Hflag & _ & Hone).
    rewrite Hf in Hflag.
    cbn [notify].
    destruct (Receiver.on_incoming_stream pad a s) as [s1 t1].
    cbn [fst snd] in Hflag, Hone.
    destruct (IH s1 Hflag Hmatch' Hfail') as (IHflag & IHcount).
    destruct (notify rest s1) as [s2 t2]. cbn [fst snd] in *.
    split; [exact IHflag |].
    unfold count in *. rewrite filter_app, length_app, Hone, IHcount.
    reflexivity.
Qed.

(** With the chain built, no notification changes the state or reaches
    GStreamer. *)
Lemma notify_built (ns : list (Receiver.GstPad * Receiver.Attach)) :
  forall s,
  Receiver.video_chain_built s = true ->
  fst (notify ns s) = s /\ filter constructs_chain (snd (notify ns s)) = [].
Proof.
  induction ns as [| [pad a] rest IH]; intros s Hbuilt.
  - split; reflexivity.
  - cbn [notify].
    destruct (on_incoming_stream_built pad a s Hbuilt) as (Hs & Ht).
    destruct (Receiver.on_incoming_stream pad a s) as [s1 t1].
    cbn [fst snd] in Hs, Ht. subst s1.
    destruct (IH s Hbuilt) as (IHs & IHt).
    destruct (notify rest s) as [s2 t2]. cbn [fst snd] in *.
    split; [exact IHs |].
    now rewrite filter_app, Ht, IHt.
Qed.

(** Case analysis on the [match]es and [if]s of a goal (or hypothesis)
    that computes a handler's result, innermost scrutinee first. *)
Ltac is_plain x :=
  lazymatch x with
  | context [match _ with _ => _ end] => fail
  | context [if _ then _ else _] => fail
  | _ => idtac
  end.

Ltac break_match :=
  repeat match goal with
    | |- context [match ?x with _ => _ end] => is_plain x; destruct x eqn:?
    | |- context [if ?x then _ else _] => is_plain x; destruct x eqn:?
    end.

Ltac break_match_hyp H :=
  repeat match type of H with
    | context [match ?x with _ => _ end] => is_plain x; destruct x eqn:?
    | context [if ?x then _ else _] => is_plain x; destruct x eqn:?
    end.

(** [handle_server_message] assigns no global. *)
Lemma receiver_handle_server_message_state `{JsonLib}
  (data_type : SoupWebsocketDataType) (message : string)
  (s s' : Receiver.State) (t : Trace) :
  Receiver.handle_server_message data_type message s = Some (s', t) ->
  s' = s.
Proof.
  unfold Receiver.handle_server_message. intros Hrun.
  break_match_hyp Hrun; congruence.
Qed.

Lemma sender_handle_server_message_state `{JsonLib}
  (data_type : SoupWebsocketDataType) (message : string)
  (s s' : Sender.State) (t : Trace) :
  Sender.handle_server_message data_type message s = Some (s', t) ->
  s' = s.
Proof.
  unfold Sender.handle_server_message. intros Hrun.
  break_match_hyp Hrun; congruence.
Qed.

(** No callback of the receiver resets [video_chain_built]. *)
Lemma receiver_dispatch_keeps_built `{JsonLib} (e : Receiver.Event)
  (s s' : Receiver.State) (t : Trace) :
  Receiver.dispatch e s = Some (s', t) ->
  Receiver.video_chain_built s = true ->
  Receiver.video_chain_built s' = true.
Proof.
  intros Hstep Hbuilt. destruct e; cbn [Receiver.dispatch] in Hstep.
  - apply receiver_handle_server_message_state in Hstep. congruence.
  - unfold Receiver.on_server_closed in Hstep.
    destruct (cleanup_and_quit _ _) as [g tg].
    injection Hstep as <- _. exact Hbuilt.
  - injection Hstep as Hs.
    pose proof (on_incoming_stream_built pad a s Hbuilt) as (Hfst & _).
    rewrite Hs in Hfst. cbn [fst] in Hfst. congruence.
  - injection Hstep as <- _. exact Hbuilt.
  - injection Hstep as <- _. exact Hbuilt.
  - unfold Receiver.on_answer_created in Hstep.
    break_match_hyp Hstep; congruence.
Qed.

Lemma receiver_run_keeps_built `{JsonLib} (es : list Receiver.Event) :
  forall (w w' : Receiver.World) (t : Trace),
  Receiver.run es w = Some (w', t) ->
  Receiver.video_chain_built (Receiver.state w) = true ->
  Receiver.video_chain_built (Receiver.state w') = true.
Proof.
  induction es as [| e rest IH]; intros w w' t Hrun Hbuilt.
  - cbn in Hrun. injection Hrun as <- _. exact Hbuilt.
  - cbn [Receiver.run] in Hrun.
    destruct (Receiver.step e w) as [[w1 t1] |] eqn:Hstep; [| discriminate].
    destruct (Receiver.run rest w1) as [[w2 t2] |] eqn:Hrest;
      [| discriminate].
    injection Hrun as <- _.
    apply (IH w1 w2 t2 Hrest).
    unfold Receiver.step in Hstep.
    destruct (Receiver.enabled e w); [| discriminate].
    destruct (Receiver.dispatch e (Receiver.state w)) as [[s1 t1'] |] eqn:Hd;
      [| discriminate].
    injection Hstep as <- _. cbn [Receiver.state].
    exact (receiver_dispatch_keeps_built e _ _ _ Hd Hbuilt).
Qed.

(** A first RTP H.264 pad on a started receiver, every GStreamer call
    succeeding. *)
Example on_incoming_stream_attaches :
  Receiver.on_incoming_stream rtp_h264_pad attach_ok
    (Receiver.state Receiver.started)
  = ({| Receiver.globals := Receiver.globals (Receiver.state Receiver.started);
        Receiver.video_chain_built := true |},
     [g_print "[receiver] pad caps: %s, encoding=%s\n"
        [arg_s "application/x-rtp"; arg_s "H264"];
      gst_parse_bin_from_description Receiver.rxbin_description;
      g_object_set "depay" "request-keyframe" 1;
      g_object_set "vsink" "qos" 0;
      g_object_set "vsink" "max-lateness" 0;
      gst_bin_add; gst_element_sync_state_with_parent; gst_pad_link;
      g_print "[receiver] H264 receiver bin linked\n" []]).
Proof. reflexivity. Qed.

(** C3. Attachment happens exactly once.  Take any run of accepted
    inbound-stream notifications on a session without a chain: the
    attempts that fail leave [video_chain_built] false and each later
    notification tries again; the first attempt that succeeds sets the
    flag; every notification after it leaves the state as it is and makes
    no chain-construction call; and no event of the session ever resets
    the flag. *)
Theorem stream_attached_exactly_once `{JsonLib}
  (failed later : list (Receiver.GstPad * Receiver.Attach))
  (pad : Receiver.GstPad) (a : Receiver.Attach) (s : Receiver.State) :
  Receiver.video_chain_built s = false ->
  Forall (fun n => matches_policy (fst n) = true)
    (failed ++ (pad, a) :: later) ->
  Forall (fun n => attach_succeeds (snd n) = false) failed ->
  attach_succeeds a = true ->
  let before := notify failed s in
  let attached := notify (failed ++ [(pad, a)]) s in
  let after := notify later (fst attached) in
  Receiver.video_chain_built (fst before) = false /\
  count is_parse_bin (snd before) = List.length failed /\
  Receiver.video_chain_built (fst attached) = true /\
  count is_parse_bin (snd attached) = S (List.length failed) /\
  fst after = fst attached /\
  filter constructs_chain (snd after) = [] /\
  (forall es w w' t,
     Receiver.state w = fst attached ->
     Receiver.run es w = Some (w', t) ->
     Receiver.video_chain_built (Receiver.state w') = true).
Proof.
  intros Hnot Hmatch Hfail Hok before attached after.
  apply Forall_app in Hmatch. destruct Hmatch as [Hmatch_failed Hmatch_rest].
  inversion Hmatch_rest as [| ? ? Hmatch_pad Hmatch_later]; subst.
  cbn [fst] in Hmatch_pad.
  destruct (notify_failed failed s Hnot Hmatch_failed Hfail)
    as (Hflag_before & Hcount_before).
  fold before in Hflag_before, Hcount_before.
  assert (Hattached : Receiver.video_chain_built (fst attached) = true /\
                      count is_parse_bin (snd attached)
                      = S (List.length failed)).
  { subst attached. rewrite notify_app. fold before. cbn [fst snd notify].
    destruct (on_incoming_stream_attempt pad a (fst before)
                Hflag_before Hmatch_pad) as (Hflag & _ & Hone).
    destruct (Receiver.on_incoming_stream pad a (fst before)) as [s1 t1].
    cbn [fst snd] in *. split; [congruence |].
    unfold count in *.
    rewrite filter_app, length_app, app_nil_r, Hcount_before, Hone. lia. }
  destruct Hattached as (Hflag_attached & Hcount_attached).
  destruct (notify_built later (fst attached) Hflag_attached)
    as (Hstate_after & Htrace_after).
  fold after in Hstate_after, Htrace_after.
  repeat split; try assumption.
  intros es w w' t Hw Hrun.
  apply (receiver_run_keeps_built es w w' t Hrun). congruence.
Qed.

Lemma stream_attached_exactly_once_witness :
  let s := Receiver.state Receiver.started in
  Receiver.video_chain_built s = false /\
  attach_succeeds attach_link_fails = false /\
  attach_succeeds attach_ok = true /\
  Receiver.video_chain_built
    (fst (notify [(rtp_h264_pad, attach_link_fails)] s)) = false /\
  Receiver.video_chain_built
    (fst (notify ([(rtp_h264_pad, attach_link_fails)] ++
                  [(rtp_h264_pad, attach_ok)]) s)) = true.
Proof.
  intros s.
  assert (Hmatch : Forall (fun n => matches_policy (fst n) = true)
            ([(rtp_h264_pad, attach_link_fails)] ++
             (rtp_h264_pad, attach_ok) ::
             [(rtp_h264_pad, attach_ok)])).
  { repeat constructor. }
  assert (Hfail : Forall (fun n => attach_succeeds (snd n) = false)
            [(rtp_h264_pad, attach_link_fails)]).
  { repeat constructor. }
  pose proof (@stream_attached_exactly_once RefJson.lib
                [(rtp_h264_pad, attach_link_fails)]
                [(rtp_h264_pad, attach_ok)]
                rtp_h264_pad attach_ok s eq_refl Hmatch Hfail eq_refl)
    as Hthm.
  cbv zeta in Hthm.
  destruct Hthm as (Hbefore & _ & Hattached & _).
  repeat split; assumption.
Defined.

(** ** Rejection of streams that are not RTP H.264 *)

Lemma descriptor_mismatch_not_h264 (st : Receiver.GstStructure) :
  descriptor_mismatch st ->
  Receiver.is_rtp_h264 (Receiver.structure_name st)
    (Receiver.encoding_name st) = false.
Proof.
  unfold descriptor_mismatch, Receiver.is_rtp_h264.
  destruct (Receiver.structure_name st) as [media_type |]; [| reflexivity].
  destruct (Receiver.encoding_name st) as [encoding |]; [| reflexivity].
  intros [Hprefix | Hcodec].
  - now rewrite Hprefix.
  - apply String.eqb_neq in Hcodec. cbn [g_strcmp0_eq]. rewrite Hcodec.
    apply andb_false_r.
Qed.

(** C7. An inbound-stream notification whose descriptor is not RTP or
    whose codec is not "H264" never reaches chain construction: the
    session state is unchanged, everything the callback does is print
    diagnostics, and on an inbound (source) pad it prints at least one. *)
Theorem non_matching_stream_rejected (pad : Receiver.GstPad)
  (st : Receiver.GstStructure) (a : Receiver.Attach) (s : Receiver.State) :
  Receiver.current_caps pad = Some st ->
  descriptor_mismatch st ->
  fst (Receiver.on_incoming_stream pad a s) = s /\
  filter constructs_chain (snd (Receiver.on_incoming_stream pad a s)) = [] /\
  (forall e, In e (snd (Receiver.on_incoming_stream pad a s)) ->
             is_diagnostic e = true) /\
  (Receiver.direction pad = Receiver.GST_PAD_SRC ->
   snd (Receiver.on_incoming_stream pad a s) <> []).
Proof.
  intros Hcaps Hmis.
  apply descriptor_mismatch_not_h264 in Hmis.
  unfold Receiver.on_incoming_stream. rewrite Hcaps, Hmis. cbn [negb].
  destruct (Receiver.direction pad); cbn [Receiver.direction_is_src negb];
    try (repeat split; [intros e [] | discriminate]).
  destruct (Receiver.video_chain_built s); cbn [fst snd].
  - repeat split.
    + intros e [<- | []]. reflexivity.
    + discriminate.
  - repeat split.
    + intros e [<- | [<- | []]]; reflexivity.
    + discriminate.
Qed.

Lemma non_matching_stream_rejected_witness :
  Receiver.current_caps audio_pad = Some audio_structure /\
  descriptor_mismatch audio_structure /\
  fst (Receiver.on_incoming_stream audio_pad attach_ok
         (Receiver.state Receiver.started))
    = Receiver.state Receiver.started /\
  filter constructs_chain
    (snd (Receiver.on_incoming_stream audio_pad attach_ok
            (Receiver.state Receiver.started))) = [].
Proof.
  assert (Hmis : descriptor_mismatch audio_structure).
  { left. reflexivity. }
  destruct (non_matching_stream_rejected audio_pad audio_structure attach_ok
              (Receiver.state Receiver.started) eq_refl Hmis)
    as (Hstate & Hchain & _).
  repeat split; assumption.
Defined.

(** ** The handlers act on what the codec decodes *)

Lemma g_strcmp0_eq_offer_answer (sdptype : option string) :
  g_strcmp0_eq sdptype "offer" = true ->
  g_strcmp0_eq sdptype "answer" = false.
Proof.
  destruct sdptype as [t |]; cbn; [| discriminate].
  intros Heq. apply String.eqb_eq in Heq. subst t. reflexivity.
Qed.

(** receiver.c: a frame that decodes is handled as [receiver_action]
    says; the globals are untouched. *)
Lemma receiver_handles_decoded `{JsonLib} (bytes : string)
  (m : SignalingMessage) (s : Receiver.State) :
  decode bytes = Some m ->
  Receiver.handle_server_message SOUP_WEBSOCKET_DATA_TEXT bytes s
  = Some (s, receiver_action (Receiver.globals s) m).
Proof.
  unfold decode, Receiver.handle_server_message, sdp_type_of_string.
  destruct (json_parser_load_from_data (g_strndup bytes))
    as [[ | | | | | obj] |]; try discriminate.
  destruct (json_object_has_member obj "sdp").
  - destruct (g_strcmp0_eq _ "offer") eqn:Hoffer.
    + destruct (json_object_get_string_member _ "sdp"); [| discriminate].
      intros [= <-]. reflexivity.
    + destruct (g_strcmp0_eq _ "answer"); [| discriminate].
      destruct (json_object_get_string_member _ "sdp"); [| discriminate].
      intros [= <-]. reflexivity.
  - destruct (json_object_has_member obj "ice"); [| discriminate].
    destruct (json_object_get_string_member _ "candidate");
      [| discriminate].
    intros [= <-]. reflexivity.
Qed.

(** sender.c: the same, with [sender_action]. *)
Lemma sender_handles_decoded `{JsonLib} (bytes : string)
  (m : SignalingMessage) (s : Sender.State) :
  decode bytes = Some m ->
  Sender.handle_server_message SOUP_WEBSOCKET_DATA_TEXT bytes s
  = Some (s, sender_action s m).
Proof.
  unfold decode, Sender.handle_server_message, sdp_type_of_string.
  destruct (json_parser_load_from_data (g_strndup bytes))
    as [[ | | | | | obj] |]; try discriminate.
  destruct (json_object_has_member obj "sdp").
  - destruct (g_strcmp0_eq _ "offer") eqn:Hoffer.
    + rewrite (g_strcmp0_eq_offer_answer _ Hoffer).
      destruct (json_object_get_string_member _ "sdp"); [| discriminate].
      intros [= <-]. reflexivity.
    + destruct (g_strcmp0_eq _ "answer"); [| discriminate].
      destruct (json_object_get_string_member _ "sdp"); [| discriminate].
      intros [= <-]. reflexivity.
  - destruct (json_object_has_member obj "ice"); [| discriminate].
    destruct (json_object_get_string_member _ "candidate");
      [| discriminate].
    intros [= <-]. reflexivity.
Qed.

(** ** Round trip of the codec *)

(** What [decode] makes of a parsed frame that is the object [encode]
    built. *)
Lemma decode_encoded_object `{JsonLib} (bytes : string)
  (m : SignalingMessage) :
  wf_message m ->
  json_parser_load_from_data (g_strndup bytes)
  = Some (JSON_OBJECT (encode_object m)) ->
  decode bytes = Some m.
Proof.
  intros Hwf Hparse. unfold decode. rewrite Hparse.
  destruct m as [[t sdp_text] | candidate mediaLineIndex].
  - cbn in Hwf. destruct Hwf as [-> | ->]; reflexivity.
  - cbn in Hwf. cbn.
    rewrite to_gint_idem, to_guint_to_gint by exact Hwf. reflexivity.
Qed.

(** ** SDP of the other role *)

(** C8. A well-formed SDP message of the type the role does not expect is
    absorbed: the receiver (Answerer) handles an answer, and the sender
    (Offerer) an offer, by doing nothing at all: no global changes, the
    trace is empty (no media-engine call, no message sent, no error
    printed, no teardown). *)
Theorem role_mismatched_sdp_ignored `{JsonLib} (bytes : string)
  (desc : GstWebRTCSessionDescription) (r : Receiver.State)
  (s : Sender.State) :
  decode bytes = Some (SdpMessage desc) ->
  (type desc = GST_WEBRTC_SDP_TYPE_ANSWER ->
   Receiver.handle_server_message SOUP_WEBSOCKET_DATA_TEXT bytes r
   = Some (r, [])) /\
  (type desc = GST_WEBRTC_SDP_TYPE_OFFER ->
   Sender.handle_server_message SOUP_WEBSOCKET_DATA_TEXT bytes s
   = Some (s, [])).
Proof.
  intros Hdec. split; intros Htype.
  - rewrite (receiver_handles_decoded bytes _ r Hdec).
    destruct desc as [t sdp_text]. cbn in Htype. subst t. reflexivity.
  - rewrite (sender_handles_decoded bytes _ s Hdec).
    destruct desc as [t sdp_text]. cbn in Htype. subst t. reflexivity.
Qed.

Lemma role_mismatched_sdp_ignored_witness :
  @decode RefJson.lib (@encode RefJson.lib answer_v0) = Some answer_v0 /\
  @Receiver.handle_server_message RefJson.lib SOUP_WEBSOCKET_DATA_TEXT
    (@encode RefJson.lib answer_v0) (Receiver.state Receiver.started)
  = Some (Receiver.state Receiver.started, []).
Proof.
  assert (Hdec : @decode RefJson.lib (@encode RefJson.lib answer_v0)
                 = Some answer_v0) by (vm_compute; reflexivity).
  split; [exact Hdec |].
  apply (@role_mismatched_sdp_ignored RefJson.lib
           (@encode RefJson.lib answer_v0) _
           (Receiver.state Receiver.started) (Sender.state Sender.started)
           Hdec).
  reflexivity.
Defined.

(** ** "sdp" before "ice" *)

(** C9. When the object of a frame has both an "sdp" and an "ice"
    member, only the SDP branch runs.  In either program the handler
    either dies in that branch (the description type is the expected one
    and its text is missing) or returns with the globals unchanged and a
    trace without any "add-ice-candidate"; and whatever the codec decodes
    from such a frame is an SDP message. *)
Theorem sdp_member_takes_precedence `{JsonLib} (bytes : string)
  (obj : JsonObject) (r : Receiver.State) (s : Sender.State) :
  json_parser_load_from_data (g_strndup bytes) = Some (JSON_OBJECT obj) ->
  json_object_has_member obj "sdp" = true ->
  json_object_has_member obj "ice" = true ->
  (Receiver.handle_server_message SOUP_WEBSOCKET_DATA_TEXT bytes r = None \/
   exists t,
     Receiver.handle_server_message SOUP_WEBSOCKET_DATA_TEXT bytes r
     = Some (r, t) /\ filter is_add_ice_candidate t = []) /\
  (Sender.handle_server_message SOUP_WEBSOCKET_DATA_TEXT bytes s = None \/
   exists t,
     Sender.handle_server_message SOUP_WEBSOCKET_DATA_TEXT bytes s
     = Some (s, t) /\ filter is_add_ice_candidate t = []) /\
  (forall m, decode bytes = Some m -> exists desc, m = SdpMessage desc).
Proof.
  intros Hparse Hsdp _.
  unfold Receiver.handle_server_message, Sender.handle_server_message,
    decode, emit.
  rewrite Hparse, Hsdp.
  split; [| split].
  - break_match; try (left; reflexivity);
      right; eexists; (split; [reflexivity |]); reflexivity.
  - break_match; try (left; reflexivity);
      right; eexists; (split; [reflexivity |]); reflexivity.
  - intros m Hm. break_match_hyp Hm; try discriminate.
    injection Hm as <-. eexists. reflexivity.
Qed.

Lemma sdp_member_takes_precedence_witness :
  @json_parser_load_from_data RefJson.lib (g_strndup sdp_and_ice_frame)
  = Some (JSON_OBJECT
            [("sdp", JSON_OBJECT [("type", JSON_STRING "offer");
                                  ("sdp", JSON_STRING "v=0")]);
             ("ice", JSON_OBJECT [("candidate", JSON_STRING "candidate:1");
                                  ("sdpMLineIndex", JSON_INT 0)])]) /\
  forall m, @decode RefJson.lib sdp_and_ice_frame = Some m ->
            exists desc, m = SdpMessage desc.
Proof.
  assert (Hparse :
            @json_parser_load_from_data RefJson.lib
              (g_strndup sdp_and_ice_frame)
            = Some (JSON_OBJECT
                      [("sdp", JSON_OBJECT [("type", JSON_STRING "offer");
                                            ("sdp", JSON_STRING "v=0")]);
                       ("ice", JSON_OBJECT
                                 [("candidate", JSON_STRING "candidate:1");
                                  ("sdpMLineIndex", JSON_INT 0)])]))
    by (vm_compute; reflexivity).
  split; [exact Hparse |].
  apply (@sdp_member_takes_precedence RefJson.lib sdp_and_ice_frame _
           (Receiver.state Receiver.started) (Sender.state Sender.started)
           Hparse eq_refl eq_refl).
Defined.

(** ** Frames that are not signaling messages *)

(** C5, as the code has it.  A frame that is malformed JSON, or whose
    root is not an object, or whose object has neither an "sdp" nor an
    "ice" member decodes to nothing, and either program handles it by
    doing nothing: the globals are unchanged and the trace is empty, so
    no message is sent, the media engine is not called, and nothing is
    printed either. *)
Theorem unrecognised_frame_dropped_silently `{JsonLib} (bytes : string)
  (r : Receiver.State) (s : Sender.State) :
  unrecognised bytes ->
  decode bytes = None /\
  Receiver.handle_server_message SOUP_WEBSOCKET_DATA_TEXT bytes r
  = Some (r, []) /\
  Sender.handle_server_message SOUP_WEBSOCKET_DATA_TEXT bytes s
  = Some (s, []).
Proof.
  unfold unrecognised, decode, Receiver.handle_server_message,
    Sender.handle_server_message.
  destruct (json_parser_load_from_data (g_strndup bytes))
    as [[ | | | | | obj] |]; intros Hun; auto.
  destruct Hun as [-> ->]. auto.
Qed.

Lemma unrecognised_frame_dropped_silently_witness :
  @unrecognised RefJson.lib "not json" /\
  @Receiver.handle_server_message RefJson.lib SOUP_WEBSOCKET_DATA_TEXT
    "not json" (Receiver.state Receiver.started)
  = Some (Receiver.state Receiver.started, []).
Proof.
  assert (Hun : @unrecognised RefJson.lib "not json")
    by (vm_compute; exact I).
  split; [exact Hun |].
  apply (@unrecognised_frame_dropped_silently RefJson.lib "not json"
           (Receiver.state Receiver.started) (Sender.state Sender.started)
           Hun).
Defined.

(** The text frame "not json" is malformed, and neither program prints a
    diagnostic when it handles it: the specification's "diagnostic logged"
    does not hold on this frame. *)
Lemma malformed_frame_logs_nothing :
  @json_parser_load_from_data RefJson.lib (g_strndup "not json") = None /\
  ~ logs_diagnostic
      (@Receiver.handle_server_message RefJson.lib SOUP_WEBSOCKET_DATA_TEXT
         "not json" (Receiver.state Receiver.started)) /\
  ~ logs_diagnostic
      (@Sender.handle_server_message RefJson.lib SOUP_WEBSOCKET_DATA_TEXT
         "not json" (Sender.state Sender.started)).
Proof.
  split; [vm_compute; reflexivity |].
  split; intros (s & t & e & Hres & Hin & _);
    vm_compute in Hres; injection Hres as _ <-; destruct Hin.
Qed.

(** ** Frames of another shape *)

(** An "ice" member without a candidate is still forwarded: the
    accessors return NULL and 0, and both are emitted. *)
Lemma ice_member_without_candidate_forwarded :
  @decode RefJson.lib empty_ice_frame = None /\
  @Receiver.handle_server_message RefJson.lib SOUP_WEBSOCKET_DATA_TEXT
    empty_ice_frame (Receiver.state Receiver.started)
  = Some (Receiver.state Receiver.started, [emit_add_ice_candidate 0 None]).
Proof. split; vm_compute; reflexivity. Qed.

(** An offer without its text stops the receiver: [strlen] is applied to
    the NULL the accessor returned. *)
Lemma offer_without_text_aborts :
  @Receiver.handle_server_message RefJson.lib SOUP_WEBSOCKET_DATA_TEXT
    offer_without_text_frame (Receiver.state Receiver.started) = None.
Proof. vm_compute. reflexivity. Qed.

(** ** Remote candidates *)

Lemma receiver_step_candidate `{JsonLib} (bytes candidate : string)
  (mediaLineIndex : Z) (w : Receiver.World) :
  decode bytes = Some (IceMessage candidate mediaLineIndex) ->
  webrtc (Receiver.globals (Receiver.state w)) = true ->
  Receiver.step (Receiver.ev_message SOUP_WEBSOCKET_DATA_TEXT bytes) w
  = Some (w, [forward (candidate, mediaLineIndex)]).
Proof.
  intros Hdec Halive. unfold Receiver.step.
  cbn [Receiver.enabled Receiver.dispatch].
  rewrite (receiver_handles_decoded bytes _ _ Hdec).
  cbn [receiver_action]. unfold emit. rewrite Halive.
  destruct w as [s n1 n2]. cbn.
  now rewrite !Nat.sub_0_r, !Nat.add_0_r.
Qed.

Lemma sender_step_candidate `{JsonLib} (bytes candidate : string)
  (mediaLineIndex : Z) (w : Sender.World) :
  decode bytes = Some (IceMessage candidate mediaLineIndex) ->
  webrtc (Sender.state w) = true ->
  Sender.step (Sender.ev_message SOUP_WEBSOCKET_DATA_TEXT bytes) w
  = Some (w, [forward (candidate, mediaLineIndex)]).
Proof.
  intros Hdec Halive. unfold Sender.step.
  cbn [Sender.enabled Sender.dispatch].
  rewrite (sender_handles_decoded bytes _ _ Hdec).
  cbn [sender_action]. unfold emit. rewrite Halive.
  destruct w as [s n]. cbn.
  now rewrite Nat.sub_0_r, Nat.add_0_r.
Qed.

(** C4. A frame that decodes to an ICE message is forwarded at once, in
    whatever state the session is, as long as the media engine exists:
    the handler's whole effect is one "add-ice-candidate" with the decoded
    index and candidate, and nothing is kept back.  Over any sequence of
    such frames the emissions are the candidates in arrival order,
    duplicates included, and the session is left as it was (both
    programs). *)
Theorem ice_forwarded_in_arrival_order `{JsonLib} (frames : list string)
  (msgs : list (string * Z)) (rw : Receiver.World) (sw : Sender.World) :
  Forall2 (fun bytes m => decode bytes = Some (IceMessage (fst m) (snd m)))
    frames msgs ->
  webrtc (Receiver.globals (Receiver.state rw)) = true ->
  webrtc (Sender.state sw) = true ->
  Receiver.run (map (Receiver.ev_message SOUP_WEBSOCKET_DATA_TEXT) frames) rw
  = Some (rw, map forward msgs) /\
  Sender.run (map (Sender.ev_message SOUP_WEBSOCKET_DATA_TEXT) frames) sw
  = Some (sw, map forward msgs).
Proof.
  intros Hdec Hr Hs.
  induction Hdec as [| bytes [candidate idx] frames' msgs' Hhead Htail IH].
  - split; reflexivity.
  - destruct IH as [IHr IHs]. cbn [fst snd] in Hhead.
    cbn [map Receiver.run Sender.run].
    rewrite (receiver_step_candidate bytes candidate idx rw Hhead Hr).
    rewrite (sender_step_candidate bytes candidate idx sw Hhead Hs).
    rewrite IHr, IHs. split; reflexivity.
Qed.

Lemma ice_forwarded_in_arrival_order_witness :
  @Receiver.run RefJson.lib
    (map (Receiver.ev_message SOUP_WEBSOCKET_DATA_TEXT)
       [@encode RefJson.lib candidate_1;
        @encode RefJson.lib (IceMessage EmptyString 7);
        @encode RefJson.lib candidate_1])
    Receiver.started
  = Some (Receiver.started,
          map forward
            [("candidate:1 1 UDP 2122260223 192.0.2.1 50000 typ host", 0);
             (EmptyString, 7);
             ("candidate:1 1 UDP 2122260223 192.0.2.1 50000 typ host", 0)]).
Proof.
  apply (@ice_forwarded_in_arrival_order RefJson.lib _ _
           Receiver.started Sender.started).
  - repeat constructor.
  - reflexivity.
  - reflexivity.
Defined.

(** ** Candidates among other messages *)

Lemma receiver_action_candidates (g : Globals) (m : SignalingMessage) :
  webrtc g = true ->
  filter is_add_ice_candidate (receiver_action g m)
  = map forward (candidates [m]).
Proof.
  intros Halive. unfold emit.
  destruct m as [[[ | | | ] sdp_text] | candidate idx];
    cbn [receiver_action candidates map]; unfold emit; rewrite ?Halive;
    reflexivity.
Qed.

Lemma candidates_app (l1 l2 : list SignalingMessage) :
  candidates (l1 ++ l2) = candidates l1 ++ candidates l2.
Proof.
  induction l1 as [| [d | c i] rest IH]; cbn; [reflexivity | exact IH |].
  now rewrite IH.
Qed.

(** Whatever well-formed messages arrive, and in whatever order, the
    receiver's "add-ice-candidate" emissions are the candidates among
    them, in arrival order. *)
Lemma candidates_forwarded_among_sdp `{JsonLib} (frames : list string)
  (msgs : list SignalingMessage) :
  Forall2 (fun bytes m => decode bytes = Some m) frames msgs ->
  forall w : Receiver.World,
  webrtc (Receiver.globals (Receiver.state w)) = true ->
  exists w' t,
    Receiver.run (map (Receiver.ev_message SOUP_WEBSOCKET_DATA_TEXT) frames) w
    = Some (w', t) /\
    Receiver.state w' = Receiver.state w /\
    filter is_add_ice_candidate t = map forward (candidates msgs).
Proof.
  induction 1 as [| bytes m frames' msgs' Hhead Htail IH]; intros w Halive.
  - exists w, []. repeat split.
  - cbn [map Receiver.run]. unfold Receiver.step.
    cbn [Receiver.enabled Receiver.dispatch].
    rewrite (receiver_handles_decoded bytes m _ Hhead).
    match goal with
    | |- context [Receiver.run _ ?w1] =>
        destruct (IH w1 Halive) as (w' & t & Hrun & Hstate & Hice)
    end.
    rewrite Hrun. eexists _, _. split; [reflexivity |].
    split; [exact Hstate |].
    rewrite filter_app, Hice, (receiver_action_candidates _ m Halive).
    change (m :: msgs') with ([m] ++ msgs').
    now rewrite candidates_app, map_app.
Qed.

(** ** Requests to create a description *)

(** [on_incoming_stream] only prints and builds the chain. *)
Lemma filter_on_incoming_stream (p : Effect -> bool)
  (pad : Receiver.GstPad) (a : Receiver.Attach) (s : Receiver.State) :
  (forall e, is_diagnostic e || constructs_chain e = true -> p e = false) ->
  filter p (snd (Receiver.on_incoming_stream pad a s)) = [].
Proof.
  intros Hp.
  assert (Hset : forall x y z, p (g_object_set x y z) = false)
    by (intros; apply Hp; reflexivity).
  unfold Receiver.on_incoming_stream.
  break_match; cbn [snd];
    rewrite ?filter_app, ?filter_tune_depay, ?filter_tune_vsink by exact Hset;
    cbn [filter app]; rewrite ?Hp by reflexivity; reflexivity.
Qed.

Lemma filter_cleanup_and_quit (p : Effect -> bool) (msg : option string)
  (g : Globals) :
  (forall e, p e = true -> is_media_engine_call e = true) ->
  filter p (snd (cleanup_and_quit msg g)) = [].
Proof.
  intros Hp.
  assert (Hno : forall e, is_media_engine_call e = false -> p e = false).
  { intros e He. destruct (p e) eqn:Hpe; [| reflexivity].
    apply Hp in Hpe. congruence. }
  destruct g as [l q w ws].
  destruct msg, l, q, ws as [[ | | ] | ]; cbn;
    rewrite ?Hno by reflexivity; reflexivity.
Qed.

(** What one message contributes: no "create-answer", and one
    "set-remote-description" with [on_offer_set] exactly when it is an
    offer and the media engine exists. *)
Lemma receiver_handler_counts `{JsonLib} (data_type : SoupWebsocketDataType)
  (bytes : string) (s s' : Receiver.State) (t : Trace) :
  Receiver.handle_server_message data_type bytes s = Some (s', t) ->
  count is_create_answer t = 0%nat /\
  registered cb_on_offer_set t =
  (if webrtc (Receiver.globals s) &&
      receiver_offer (Receiver.ev_message data_type bytes)
   then 1 else 0)%nat.
Proof.
  intros Hrun. destruct data_type.
  - unfold Receiver.handle_server_message, receiver_offer, is_offer_frame,
      decode, sdp_type_of_string, emit in *.
    destruct (webrtc (Receiver.globals s)); cbn [andb];
      break_match_hyp Hrun; try discriminate;
      injection Hrun as <- <-; cbn; break_match;
      try discriminate; auto.
  - cbn in Hrun. injection Hrun as <- <-.
    cbn. now rewrite andb_false_r.
Qed.

Lemma receiver_step_counts `{JsonLib} (e : Receiver.Event)
  (w w' : Receiver.World) (t : Trace) :
  Receiver.step e w = Some (w', t) ->
  let alive := webrtc (Receiver.globals (Receiver.state w)) in
  count is_create_answer t
  = (if alive then Receiver.fired cb_on_offer_set e else 0)%nat /\
  registered cb_on_offer_set t
  = (if alive && receiver_offer e then 1 else 0)%nat /\
  (Receiver.fired cb_on_offer_set e <= Receiver.outstanding_offer_set w)%nat /\
  Receiver.outstanding_offer_set w'
  = (Receiver.outstanding_offer_set w - Receiver.fired cb_on_offer_set e
     + registered cb_on_offer_set t)%nat /\
  (receiver_closed e = false ->
   webrtc (Receiver.globals (Receiver.state w')) = alive) /\
  (alive = false -> webrtc (Receiver.globals (Receiver.state w')) = false).
Proof.
  intros Hstep alive. unfold Receiver.step in Hstep.
  destruct (Receiver.enabled e w) eqn:Hen; [| discriminate].
  destruct (Receiver.dispatch e (Receiver.state w)) as [[s1 t1] |] eqn:Hd;
    [| discriminate].
  injection Hstep as <- <-. cbn [Receiver.state Receiver.outstanding_offer_set].
  assert (Hfired : (Receiver.fired cb_on_offer_set e
                    <= Receiver.outstanding_offer_set w)%nat).
  { destruct e; cbn in *; try lia.
    destruct (Receiver.outstanding_offer_set w); [discriminate | lia]. }
  destruct e; cbn [Receiver.dispatch] in Hd.
  - pose proof (receiver_handle_server_message_state _ _ _ _ _ Hd) as ->.
    destruct (receiver_handler_counts _ _ _ _ _ Hd) as (Hca & Hreg).
    rewrite Hca, Hreg. cbn [Receiver.fired]. fold alive.
    destruct alive; repeat split; auto.
  - injection Hd as Hd. unfold Receiver.on_server_closed in Hd.
    set (g0 := Receiver.globals
                 (Receiver.connection_closed (Receiver.state w))) in *.
    assert (Htg : forall p,
               (forall e, p e = true -> is_media_engine_call e = true) ->
               filter p (snd (cleanup_and_quit
                                (Some "[receiver] Server closed") g0)) = []).
    { intros p Hp. now apply filter_cleanup_and_quit. }
    destruct (cleanup_and_quit _ g0) as [g tg] eqn:Hclean.
    cbn [snd] in Htg. injection Hd as <- <-.
    unfold count, registered.
    rewrite !Htg
      by (intros [] Hp; try discriminate; try reflexivity;
          destruct promise; discriminate).
    cbn [Receiver.fired List.length receiver_offer receiver_closed].
    rewrite andb_false_r.
    assert (Hw : alive = false -> webrtc g = false).
    { subst alive. cbn. intros Hdead.
      pose proof (f_equal fst Hclean) as Hg. cbn [fst] in Hg. subst g.
      destruct w as [[[l q wr ws] b] n1 n2]. cbn in *. subst wr.
      destruct q, l, ws as [[ | | ] | ]; reflexivity. }
    destruct alive; repeat split; auto; discriminate.
  - injection Hd as Hd.
    assert (Hs1 : Receiver.globals
                    (fst (Receiver.on_incoming_stream pad a
                            (Receiver.state w)))
                  = Receiver.globals (Receiver.state w)).
    { unfold Receiver.on_incoming_stream. break_match; reflexivity. }
    assert (Ht1 : forall p,
               (forall e, is_diagnostic e || constructs_chain e = true ->
                          p e = false) ->
               filter p (snd (Receiver.on_incoming_stream pad a
                                (Receiver.state w))) = []).
    { intros p Hp. now apply filter_on_incoming_stream. }
    rewrite Hd in Hs1, Ht1. cbn [fst snd] in Hs1, Ht1.
    unfold count, registered.
    rewrite !Ht1 by (intros [] Hp; try discriminate; try reflexivity).
    cbn [Receiver.fired List.length receiver_offer receiver_closed].
    rewrite andb_false_r, Hs1. fold alive.
    destruct alive; repeat split; auto.
  - injection Hd as <- <-. unfold send_ice_candidate.
    cbn [Receiver.fired receiver_offer]. rewrite andb_false_r. fold alive.
    destruct (negb _); destruct alive; repeat split; auto.
  - injection Hd as <- <-. unfold emit. fold alive.
    cbn [Receiver.fired receiver_offer]. rewrite andb_false_r.
    destruct alive; repeat split; auto.
  - unfold Receiver.on_answer_created, send_sdp, emit in Hd. fold alive in Hd.
    cbn [Receiver.fired receiver_offer]. rewrite andb_false_r.
    break_match_hyp Hd; try discriminate; injection Hd as <- <-;
      fold alive; destruct alive; repeat split; auto.
Qed.

Lemma count_app (p : Effect -> bool) (t1 t2 : Trace) :
  count p (t1 ++ t2) = (count p t1 + count p t2)%nat.
Proof. unfold count. now rewrite filter_app, length_app. Qed.

(** Along a receiver run, "create-answer" requests and outstanding
    "set-remote-description" promises never outnumber the offers
    received, and account for all of them while the session is live. *)
Lemma receiver_run_counts `{JsonLib} (es : list Receiver.Event) :
  forall (w w' : Receiver.World) (t : Trace),
  Receiver.run es w = Some (w', t) ->
  (count is_create_answer t + Receiver.outstanding_offer_set w'
   <= Receiver.outstanding_offer_set w + offers_received es)%nat /\
  (receiver_live es w ->
   (count is_create_answer t + Receiver.outstanding_offer_set w'
    = Receiver.outstanding_offer_set w + offers_received es)%nat).
Proof.
  induction es as [| e rest IH]; intros w w' t Hrun.
  - cbn in Hrun. injection Hrun as <- <-. cbn. split; [lia | intros _; lia].
  - cbn [Receiver.run] in Hrun.
    destruct (Receiver.step e w) as [[w1 t1] |] eqn:Hstep; [| discriminate].
    destruct (Receiver.run rest w1) as [[w2 t2] |] eqn:Hrest;
      [| discriminate].
    injection Hrun as <- <-.
    destruct (receiver_step_counts e w w1 t1 Hstep)
      as (Hca & Hreg & Hfired & Hout & Hkeep & _).
    destruct (IH w1 w2 t2 Hrest) as (IHle & IHeq).
    rewrite count_app.
    unfold offers_received in *. cbn [filter].
    split.
    + destruct (webrtc (Receiver.globals (Receiver.state w)));
        cbn [andb] in Hreg;
        destruct (receiver_offer e); cbn [List.length]; lia.
    + intros (Halive & Hopen). cbn [forallb] in Hopen.
      apply andb_true_iff in Hopen. destruct Hopen as [He Hopen].
      apply negb_true_iff in He.
      rewrite Halive in Hca, Hreg. cbn [andb] in Hreg.
      assert (Hlive1 : receiver_live rest w1).
      { split; [| exact Hopen]. rewrite (Hkeep He). exact Halive. }
      specialize (IHeq Hlive1).
      destruct (receiver_offer e); cbn [List.length]; lia.
Qed.

Lemma sender_handler_counts `{JsonLib} (data_type : SoupWebsocketDataType)
  (bytes : string) (s s' : Sender.State) (t : Trace) :
  Sender.handle_server_message data_type bytes s = Some (s', t) ->
  count is_create_offer t = 0%nat.
Proof.
  intros Hrun. unfold Sender.handle_server_message, emit in Hrun.
  break_match_hyp Hrun; try discriminate;
    injection Hrun as <- <-; reflexivity.
Qed.

Lemma sender_step_counts `{JsonLib} (e : Sender.Event)
  (w w' : Sender.World) (t : Trace) :
  Sender.step e w = Some (w', t) ->
  let alive := webrtc (Sender.state w) in
  count is_create_offer t
  = (if alive && sender_negotiation e then 1 else 0)%nat /\
  (sender_closed e = false -> webrtc (Sender.state w') = alive) /\
  (alive = false -> webrtc (Sender.state w') = false).
Proof.
  intros Hstep alive. unfold Sender.step in Hstep.
  destruct (Sender.enabled e w); [| discriminate].
  destruct (Sender.dispatch e (Sender.state w)) as [[s1 t1] |] eqn:Hd;
    [| discriminate].
  injection Hstep as <- <-. cbn [Sender.state].
  destruct e; cbn [Sender.dispatch sender_negotiation sender_closed] in *;
    rewrite ?andb_false_r, ?andb_true_r.
  - pose proof (sender_handle_server_message_state _ _ _ _ _ Hd) as ->.
    rewrite (sender_handler_counts _ _ _ _ _ Hd). auto.
  - injection Hd as Hd. unfold Sender.on_server_closed in Hd.
    assert (Hca : count is_create_offer
                    (snd (cleanup_and_quit (Some "[sender] Server closed")
                            (Sender.connection_closed (Sender.state w))))
                  = 0%nat).
    { unfold count. rewrite filter_cleanup_and_quit; [reflexivity |].
      intros [] Hp; try discriminate; reflexivity. }
    assert (Hw : alive = false ->
                 webrtc (fst (cleanup_and_quit
                                (Some "[sender] Server closed")
                                (Sender.connection_closed (Sender.state w))))
                 = false).
    { subst alive. destruct w as [[l q wr ws] n]. cbn. intros ->.
      destruct q, l, ws as [[ | | ] | ]; reflexivity. }
    rewrite Hd in Hca, Hw. cbn [fst snd] in Hca, Hw.
    repeat split; auto. discriminate.
  - injection Hd as <- <-. unfold Sender.on_negotiation_needed, emit.
    fold alive. destruct alive; repeat split; auto.
  - injection Hd as <- <-. unfold send_ice_candidate.
    destruct (negb _); repeat split; auto.
  - unfold Sender.on_offer_created, send_sdp, emit in Hd.
    break_match_hyp Hd; try discriminate; injection Hd as <- <-;
      repeat split; auto; subst alive; discriminate.
Qed.

(** Along a sender run, "create-offer" requests never outnumber the
    "on-negotiation-needed" signals, and match them while the session is
    live. *)
Lemma sender_run_counts `{JsonLib} (es : list Sender.Event) :
  forall (w w' : Sender.World) (t : Trace),
  Sender.run es w = Some (w', t) ->
  (count is_create_offer t <= negotiations_needed es)%nat /\
  (sender_live es w -> count is_create_offer t = negotiations_needed es).
Proof.
  induction es as [| e rest IH]; intros w w' t Hrun.
  - cbn in Hrun. injection Hrun as <- <-. cbn. split; [lia | reflexivity].
  - cbn [Sender.run] in Hrun.
    destruct (Sender.step e w) as [[w1 t1] |] eqn:Hstep; [| discriminate].
    destruct (Sender.run rest w1) as [[w2 t2] |] eqn:Hrest; [| discriminate].
    injection Hrun as <- <-.
    destruct (sender_step_counts e w w1 t1 Hstep) as (Hco & Hkeep & _).
    destruct (IH w1 w2 t2 Hrest) as (IHle & IHeq).
    rewrite count_app. unfold negotiations_needed in *. cbn [filter].
    split.
    + destruct (webrtc (Sender.state w)); cbn [andb] in Hco;
        destruct (sender_negotiation e); cbn [List.length]; lia.
    + intros (Halive & Hopen). cbn [forallb] in Hopen.
      apply andb_true_iff in Hopen. destruct Hopen as [He Hopen].
      apply negb_true_iff in He.
      rewrite Halive in Hco. cbn [andb] in Hco.
      assert (Hlive1 : sender_live rest w1).
      { split; [| exact Hopen]. rewrite (Hkeep He). exact Halive. }
      specialize (IHeq Hlive1).
      destruct (sender_negotiation e); cbn [List.length]; lia.
Qed.

(** C1, as the code has it.  Neither program keeps a record of the
    negotiation, so requests are issued per event, not once per session.
    In any receiver run the "create-answer" requests, together with the
    "set-remote-description" promises still outstanding, never outnumber
    the SDP offers received, and equal them while the session is live:
    each offer whose remote description has been set has led to one
    "create-answer".  In any sender run the "create-offer" requests never
    outnumber the "on-negotiation-needed" signals, and equal them while
    the session is live: a signaling message causes none. *)
Theorem create_requests_follow_events `{JsonLib}
  (res : list Receiver.Event) (rw rw' : Receiver.World) (rt : Trace)
  (ses : list Sender.Event) (sw sw' : Sender.World) (st : Trace) :
  Receiver.run res rw = Some (rw', rt) ->
  Sender.run ses sw = Some (sw', st) ->
  (count is_create_answer rt + Receiver.outstanding_offer_set rw'
   <= Receiver.outstanding_offer_set rw + offers_received res)%nat /\
  (receiver_live res rw ->
   (count is_create_answer rt + Receiver.outstanding_offer_set rw'
    = Receiver.outstanding_offer_set rw + offers_received res)%nat) /\
  (count is_create_offer st <= negotiations_needed ses)%nat /\
  (sender_live ses sw -> count is_create_offer st = negotiations_needed ses).
Proof.
  intros Hr Hs.
  destruct (receiver_run_counts res rw rw' rt Hr) as (Hr_le & Hr_eq).
  destruct (sender_run_counts ses sw sw' st Hs) as (Hs_le & Hs_eq).
  repeat split; assumption.
Qed.

Lemma create_requests_follow_events_witness :
  exists rw' rt sw' st,
    @Receiver.run RefJson.lib two_offers Receiver.started = Some (rw', rt) /\
    @Sender.run RefJson.lib one_negotiation Sender.started = Some (sw', st) /\
    receiver_live two_offers Receiver.started /\
    sender_live one_negotiation Sender.started /\
    (count is_create_answer rt + Receiver.outstanding_offer_set rw'
     = 0 + @offers_received RefJson.lib two_offers)%nat /\
    count is_create_offer st = negotiations_needed one_negotiation.
Proof.
  destruct (@Receiver.run RefJson.lib two_offers Receiver.started)
    as [[rw' rt] |] eqn:Hr; [| vm_compute in Hr; discriminate].
  destruct (@Sender.run RefJson.lib one_negotiation Sender.started)
    as [[sw' st] |] eqn:Hs; [| vm_compute in Hs; discriminate].
  assert (Hrl : receiver_live two_offers Receiver.started)
    by (split; reflexivity).
  assert (Hsl : sender_live one_negotiation Sender.started)
    by (split; reflexivity).
  exists rw', rt, sw', st.
  destruct (@create_requests_follow_events RefJson.lib
              two_offers Receiver.started rw' rt
              one_negotiation Sender.started sw' st Hr Hs)
    as (_ & Hr_eq & _ & Hs_eq).
  repeat split; auto.
Defined.

(** A second SDP offer does cause a second "create-answer": the receiver
    started, an offer, the completion of its "set-remote-description",
    the same offer again and the completion of that one.  The run issues
    two "create-answer" requests in one session. *)
Lemma second_offer_second_create_answer :
  exists w,
    @Receiver.run RefJson.lib two_offers Receiver.started
    = Some (w, two_offers_trace) /\
    count is_create_answer two_offers_trace = 2%nat.
Proof.
  eexists. split; [vm_compute; reflexivity | reflexivity].
Qed.

(** ** From one peer to the other *)

(** The offer the sender sends is the remote description the receiver
    sets, and the answer the receiver sends is the one the sender sets. *)
Lemma offer_reaches_receiver `{JsonLib} (sdp_text : string)
  (s : Sender.State) (r : Receiver.State) :
  let offer := {| type := GST_WEBRTC_SDP_TYPE_OFFER; sdp := sdp_text |} in
  ws_open s = true ->
  webrtc (Receiver.globals r) = true ->
  json_parser_load_from_data (g_strndup (encode (SdpMessage offer)))
  = Some (JSON_OBJECT (encode_object (SdpMessage offer))) ->
  send_sdp (Some offer) s
  = Some [soup_websocket_connection_send_text (encode (SdpMessage offer))] /\
  Receiver.handle_server_message SOUP_WEBSOCKET_DATA_TEXT
    (encode (SdpMessage offer)) r
  = Some (r,
          [g_print "[receiver] Received SDP offer -> set-remote-description\n"
             [];
           emit_set_remote_description offer cb_on_offer_set]).
Proof.
  intros offer Hopen Halive Hparse. split.
  - unfold send_sdp. rewrite Hopen. reflexivity.
  - rewrite (receiver_handles_decoded _ (SdpMessage offer)).
    + cbn [receiver_action offer]. unfold emit. now rewrite Halive.
    + apply decode_encoded_object; [left; reflexivity | exact Hparse].
Qed.

Lemma answer_reaches_sender `{JsonLib} (sdp_text : string)
  (r : Receiver.State) (s : Sender.State) :
  let answer := {| type := GST_WEBRTC_SDP_TYPE_ANSWER; sdp := sdp_text |} in
  ws_open (Receiver.globals r) = true ->
  webrtc s = true ->
  json_parser_load_from_data (g_strndup (encode (SdpMessage answer)))
  = Some (JSON_OBJECT (encode_object (SdpMessage answer))) ->
  send_sdp (Some answer) (Receiver.globals r)
  = Some [soup_websocket_connection_send_text (encode (SdpMessage answer))] /\
  Sender.handle_server_message SOUP_WEBSOCKET_DATA_TEXT
    (encode (SdpMessage answer)) s
  = Some (s,
          [g_print "[sender] Received SDP answer -> set-remote-description\n"
             [];
           emit_set_remote_description answer no_change_func]).
Proof.
  intros answer Hopen Halive Hparse. split.
  - unfold send_sdp. rewrite Hopen. reflexivity.
  - rewrite (sender_handles_decoded _ (SdpMessage answer)).
    + cbn [sender_action answer]. unfold emit. now rewrite Halive.
    + apply decode_encoded_object; [right; reflexivity | exact Hparse].
Qed.

(** A local candidate of one peer reaches the media engine of the other
    with the index it left with, whatever the [(gint)] cast did to it on
    the wire. *)
Lemma candidate_reaches_peer `{JsonLib} (mlineindex : Z) (candidate : string)
  (s : Sender.State) (r : Receiver.State) :
  is_guint mlineindex ->
  ws_open s = true ->
  webrtc (Receiver.globals r) = true ->
  json_parser_load_from_data
    (g_strndup (encode (IceMessage candidate mlineindex)))
  = Some (JSON_OBJECT (encode_object (IceMessage candidate mlineindex))) ->
  send_ice_candidate mlineindex candidate s
  = [soup_websocket_connection_send_text
       (encode (IceMessage candidate mlineindex))] /\
  Receiver.handle_server_message SOUP_WEBSOCKET_DATA_TEXT
    (encode (IceMessage candidate mlineindex)) r
  = Some (r, [emit_add_ice_candidate mlineindex (Some candidate)]).
Proof.
  intros Hidx Hopen Halive Hparse. split.
  - unfold send_ice_candidate. rewrite Hopen. reflexivity.
  - rewrite (receiver_handles_decoded _ (IceMessage candidate mlineindex)).
    + cbn [receiver_action]. unfold emit. now rewrite Halive.
    + apply decode_encoded_object; [exact Hidx | exact Hparse].
Qed.

(** ** The reference library on encoded messages *)

(** The reference generator and parser agree on every encoded message, so
    the round trip holds outright for that library. *)
Section ReferenceLibrary.

Import RefJson.
Local Open Scope string_scope.

Lemma g_strndup_nul_free (s : string) : nul_free s = true -> g_strndup s = s.
Proof.
  induction s as [| c rest IH]; cbn; [reflexivity |].
  intros H. apply andb_true_iff in H. destruct H as [Hc Hrest].
  apply negb_true_iff in Hc. rewrite Hc. now rewrite IH.
Qed.

Lemma string_app_assoc (a b c : string) :
  ((a ++ b) ++ c = a ++ (b ++ c))%string.
Proof. induction a as [| x a IH]; cbn; [reflexivity | now rewrite IH]. Qed.

Lemma string_app_cons (x : ascii) (a b : string) :
  (String x a ++ b = String x (a ++ b))%string.
Proof. reflexivity. Qed.

Lemma string_app_nil (b : string) : (EmptyString ++ b = b)%string.
Proof. reflexivity. Qed.

Lemma parse_string_escape (s rest : string) :
  parse_string (escape s ++ String quote rest) = Some (s, rest).
Proof.
  induction s as [| c s' IH]; cbn [escape append]; [reflexivity |].
  destruct (Ascii.eqb c quote) eqn:Hq.
  { apply Ascii.eqb_eq in Hq. subst c. cbn. now rewrite IH. }
  destruct (Ascii.eqb c backslash) eqn:Hb.
  { apply Ascii.eqb_eq in Hb. subst c. cbn. now rewrite IH. }
  destruct (Ascii.eqb c newline) eqn:Hn.
  { apply Ascii.eqb_eq in Hn. subst c. cbn. now rewrite IH. }
  destruct (Ascii.eqb c tab) eqn:Ht.
  { apply Ascii.eqb_eq in Ht. subst c. cbn. now rewrite IH. }
  destruct (Ascii.eqb c cr) eqn:Hc.
  { apply Ascii.eqb_eq in Hc. subst c. cbn. now rewrite IH. }
  cbn [append parse_string]. now rewrite Hq, Hb, IH.
Qed.

Lemma all_digits_nilempty (d : Decimal.uint) :
  all_digits (NilEmpty.string_of_uint d) = true.
Proof. induction d; cbn; auto. Qed.

Lemma all_digits_nilzero (d : Decimal.uint) :
  all_digits (NilZero.string_of_uint d) = true.
Proof. destruct d; try reflexivity; apply (all_digits_nilempty (_ d)). Qed.

Lemma nilzero_nonempty (d : Decimal.uint) :
  NilZero.string_of_uint d <> EmptyString.
Proof. destruct d; discriminate. Qed.

Lemma span_digits_append (ds rest : string) :
  all_digits ds = true ->
  span_digits (ds ++ String "}" rest) = (ds, String "}" rest).
Proof.
  induction ds as [| c ds' IH]; intros Hds; [reflexivity |].
  cbn in Hds. apply andb_true_iff in Hds. destruct Hds as [Hc Hds].
  cbn [append span_digits]. now rewrite Hc, (IH Hds).
Qed.

Lemma parse_int_print (i : Z) (rest : string) :
  parse_int (print_int i ++ String "}" rest) = Some (i, String "}" rest).
Proof.
  unfold parse_int, print_int.
  pose proof (DecimalZ.of_to i) as Hback.
  assert (Hisi : NilZero.int_of_string (NilZero.string_of_int (Z.to_int i))
                 = Some (Z.to_int i)).
  { apply NilZero.isi; destruct i; cbn; try discriminate;
      intros [= Hnil]; exact (DecimalPos.Unsigned.to_uint_nonnil _ Hnil). }
  destruct (Z.to_int i) as [d | d]; cbn [NilZero.string_of_int] in *.
  - pose proof (all_digits_nilzero d) as Hall.
    pose proof (nilzero_nonempty d) as Hne.
    destruct (NilZero.string_of_uint d) as [| c ds] eqn:Hd; [congruence |].
    cbn [all_digits] in Hall. apply andb_true_iff in Hall.
    destruct Hall as [Hc Hds].
    cbn [append].
    replace (match String c (ds ++ String "}" rest) with
             | String "-" r => ("-", r)
             | _ => (EmptyString, String c (ds ++ String "}" rest))
             end)
      with (EmptyString, String c (ds ++ String "}" rest)).
    2:{ destruct c as [[|] [|] [|] [|] [|] [|] [|] [|]];
          try reflexivity; discriminate. }
    change (String c (ds ++ String "}" rest))
      with (String c ds ++ String "}" rest).
    rewrite span_digits_append by (cbn; now rewrite Hc).
    cbn [append]. now rewrite Hisi, Hback.
  - pose proof (all_digits_nilzero d) as Hall.
    cbn [append]. rewrite span_digits_append by exact Hall.
    change ("-" ++ NilZero.string_of_uint d)
      with (String "-" (NilZero.string_of_uint d)).
    now rewrite Hisi, Hback.
Qed.

Lemma parse_value_quoted (f : nat) (s rest : string) :
  parse_value (S f) (quoted s rest) = Some (JSON_STRING s, rest).
Proof.
  unfold quoted. cbn -[parse_string escape]. now rewrite parse_string_escape.
Qed.

Lemma parse_value_number (f : nat) (c : ascii) (s : string) :
  is_digit c || Ascii.eqb c "-" = true ->
  parse_value (S f) (String c s)
  = match parse_int (String c s) with
    | Some (i, after) => Some (JSON_INT i, after)
    | None => None
    end.
Proof.
  intros Hc.
  destruct c as [[|] [|] [|] [|] [|] [|] [|] [|]];
    try discriminate Hc; reflexivity.
Qed.

Lemma print_int_head (i : Z) :
  exists c tail, print_int i = String c tail /\
                 is_digit c || Ascii.eqb c "-" = true.
Proof.
  unfold print_int. destruct (Z.to_int i) as [d | d];
    cbn [NilZero.string_of_int].
  - pose proof (all_digits_nilzero d) as Hall.
    pose proof (nilzero_nonempty d) as Hne.
    destruct (NilZero.string_of_uint d) as [| c ds]; [congruence |].
    cbn in Hall. apply andb_true_iff in Hall. destruct Hall as [Hc _].
    exists c, ds. now rewrite Hc.
  - eexists _, _. split; reflexivity.
Qed.

Lemma parse_value_int (f : nat) (i : Z) (rest : string) :
  parse_value (S f) (print_int i ++ String "}" rest)
  = Some (JSON_INT i, String "}" rest).
Proof.
  destruct (print_int_head i) as (c & tail & Hprint & Hc).
  pose proof (parse_int_print i rest) as Hint.
  rewrite Hprint in *. cbn [append] in *.
  now rewrite (parse_value_number f c _ Hc), Hint.
Qed.

Lemma parse_object_open (f : nat) (s rest : string) :
  parse_value (S f) (String "{" (quoted s rest))
  = match parse_members f (quoted s rest) [] with
    | Some (members, after) => Some (JSON_OBJECT members, after)
    | None => None
    end.
Proof. reflexivity. Qed.

Lemma parse_member (f : nat) (key rest : string) (acc : JsonObject) :
  parse_members (S f) (quoted key (String ":" rest)) acc
  = match parse_value f rest with
    | Some (v, after_v) =>
        match skip_ws after_v with
        | String "," more =>
            parse_members f more (json_object_set_member acc key v)
        | String "}" after => Some (json_object_set_member acc key v, after)
        | _ => None
        end
    | None => None
    end.
Proof.
  unfold quoted.
  cbn -[parse_string escape parse_value]. now rewrite parse_string_escape.
Qed.

Lemma skip_ws_punct (c : ascii) (s : string) :
  is_ws c = false -> skip_ws (String c s) = String c s.
Proof. intros Hc. cbn [skip_ws]. now rewrite Hc. Qed.

Lemma print_ice_message (i : Z) (c : string) :
  print (JSON_OBJECT (ice_message i c)) = ice_text i c.
Proof.
  rewrite ice_message_members. unfold ice_text, quoted.
  cbn -[escape print_int to_gint append].
  unfold print_string.
  repeat (rewrite ?string_app_assoc, ?string_app_cons, ?string_app_nil).
  reflexivity.
Qed.

Lemma print_sdp_message (d : GstWebRTCSessionDescription) :
  print (JSON_OBJECT (sdp_message d)) = sdp_text (type d) (sdp d).
Proof.
  destruct d as [t text]. unfold sdp_text, quoted.
  destruct t; cbn -[escape append];
    unfold print_string;
    repeat (rewrite ?string_app_assoc, ?string_app_cons, ?string_app_nil);
    reflexivity.
Qed.

Lemma parse_ice_message (f : nat) (i : Z) (c : string) :
  parse_value (S (S (S (S (S (S f)))))) (print (JSON_OBJECT (ice_message i c)))
  = Some (JSON_OBJECT (ice_message i c), EmptyString).
Proof.
  rewrite print_ice_message. unfold ice_text.
  rewrite parse_object_open, parse_member.
  rewrite parse_object_open, parse_member.
  rewrite parse_value_quoted.
  rewrite skip_ws_punct by reflexivity. cbv beta match.
  rewrite parse_member.
  change (print_int (to_gint i) ++ "}}")%string
    with (print_int (to_gint i) ++ String "}" "}")%string.
  rewrite parse_value_int.
  rewrite skip_ws_punct by reflexivity. cbv beta match.
  rewrite skip_ws_punct by reflexivity. cbv beta match.
  reflexivity.
Qed.

Lemma parse_sdp_message (f : nat) (d : GstWebRTCSessionDescription) :
  parse_value (S (S (S (S (S (S f)))))) (print (JSON_OBJECT (sdp_message d)))
  = Some (JSON_OBJECT (sdp_message d), EmptyString).
Proof.
  rewrite print_sdp_message. unfold sdp_text.
  rewrite parse_object_open, parse_member.
  rewrite parse_object_open, parse_member.
  rewrite parse_value_quoted.
  rewrite skip_ws_punct by reflexivity. cbv beta match.
  rewrite parse_member.
  rewrite parse_value_quoted.
  rewrite skip_ws_punct by reflexivity. cbv beta match.
  rewrite skip_ws_punct by reflexivity. cbv beta match.
  destruct d as [t text]. destruct t; reflexivity.
Qed.

Lemma nul_free_append (a b : string) :
  nul_free (a ++ b) = nul_free a && nul_free b.
Proof.
  induction a as [| x a IH]; cbn; [reflexivity |].
  now rewrite IH, andb_assoc.
Qed.

Lemma nul_free_escape (s : string) :
  nul_free s = true -> nul_free (escape s) = true.
Proof.
  induction s as [| c s IH]; cbn; [reflexivity |].
  intros H. apply andb_true_iff in H. destruct H as [Hc Hs].
  specialize (IH Hs).
  repeat match goal with
         | |- context [if ?b then _ else _] => destruct b
         end; cbn; rewrite ?IH, ?Hc; reflexivity.
Qed.

Lemma nul_free_quoted (s rest : string) :
  nul_free s = true -> nul_free rest = true ->
  nul_free (quoted s rest) = true.
Proof.
  intros Hs Hrest. unfold quoted. cbn.
  rewrite nul_free_append. cbn.
  now rewrite nul_free_escape, Hrest.
Qed.

Lemma all_digits_nul_free (s : string) :
  all_digits s = true -> nul_free s = true.
Proof.
  induction s as [| c s IH]; cbn; [reflexivity |].
  intros H. apply andb_true_iff in H. destruct H as [Hc Hs].
  rewrite (IH Hs), andb_true_r.
  destruct (Ascii.eqb c zero) eqn:Hz; [| reflexivity].
  apply Ascii.eqb_eq in Hz. subst c. discriminate.
Qed.

Lemma nul_free_print_int (i : Z) : nul_free (print_int i) = true.
Proof.
  unfold print_int. destruct (Z.to_int i) as [d | d]; cbn;
    apply all_digits_nul_free, all_digits_nilzero.
Qed.

Lemma nul_free_encode (m : SignalingMessage) :
  nul_free_message m = true ->
  nul_free (print (JSON_OBJECT (encode_object m))) = true.
Proof.
  destruct m as [d | c i]; cbn [encode_object nul_free_message]; intros Hm.
  - rewrite print_sdp_message. unfold sdp_text.
    assert (Htype : nul_free (sdp_type_to_string (type d)) = true)
      by (destruct (type d); reflexivity).
    cbn [nul_free].
    repeat (rewrite nul_free_quoted || cbn [nul_free]);
      try reflexivity; assumption.
  - rewrite print_ice_message. unfold ice_text.
    cbn [nul_free].
    repeat (rewrite nul_free_quoted || cbn [nul_free]);
      try reflexivity; try assumption.
    rewrite nul_free_append, nul_free_print_int. reflexivity.
Qed.

(** The reference parser reads back what the reference generator wrote
    for an encoded message. *)
Lemma load_encoded (m : SignalingMessage) :
  nul_free_message m = true ->
  load (g_strndup (print (JSON_OBJECT (encode_object m))))
  = Some (JSON_OBJECT (encode_object m)).
Proof.
  intros Hm. rewrite g_strndup_nul_free by now apply nul_free_encode.
  unfold load.
  assert (Hlen : exists f,
             String.length (print (JSON_OBJECT (encode_object m)))
             = S (S (S (S (S f))))).
  { destruct m as [d | c i]; cbn [encode_object].
    - rewrite print_sdp_message. eexists. reflexivity.
    - rewrite print_ice_message. eexists. reflexivity. }
  destruct Hlen as (f & ->).
  destruct m as [d | c i]; cbn [encode_object].
  - now rewrite parse_sdp_message.
  - now rewrite parse_ice_message.
Qed.

(** With the reference library the round trip needs no assumption on the
    JSON layer: every message of the data model whose text is a C string
    (no NUL byte) is decoded from its encoding. *)
Lemma decode_encode_reference (m : SignalingMessage) :
  wf_message m ->
  nul_free_message m = true ->
  @decode RefJson.lib (@encode RefJson.lib m) = Some m.
Proof.
  intros Hwf Hm. apply decode_encoded_object; [exact Hwf |].
  exact (load_encoded m Hm).
Qed.

End ReferenceLibrary.

(** ** The round trip, end to end *)

(** C2. The codec round-trips.  Take any message of the data model: an
    SDP offer or answer with any text, or a candidate with any text, the
    empty one included, and any [guint] media-line index, 0 included.
    With the reference JSON library, whenever the text is a C string (no
    NUL byte inside), decoding the text that encoding produced gives the
    message back, with no assumption.  With any JSON library whose parser
    reads back the object its generator wrote for this message, decoding
    gives the message back as well, and each program's
    [handle_server_message] acts on the encoded frame with the very
    description, candidate and index that were encoded. *)
Theorem decode_encode (m : SignalingMessage) :
  wf_message m ->
  (nul_free_message m = true ->
   @decode RefJson.lib (@encode RefJson.lib m) = Some m) /\
  (forall lib : JsonLib,
      @json_parser_load_from_data lib
        (g_strndup
           (@json_generator_to_data lib (JSON_OBJECT (encode_object m))))
      = Some (JSON_OBJECT (encode_object m)) ->
      @decode lib (@encode lib m) = Some m /\
      (forall r : Receiver.State,
          @Receiver.handle_server_message lib SOUP_WEBSOCKET_DATA_TEXT
            (@encode lib m) r
          = Some (r, receiver_action (Receiver.globals r) m)) /\
      (forall s : Sender.State,
          @Sender.handle_server_message lib SOUP_WEBSOCKET_DATA_TEXT
            (@encode lib m) s
          = Some (s, sender_action s m))).
Proof.
  intros Hwf. split.
  - intros Hm. exact (decode_encode_reference m Hwf Hm).
  - intros lib Hparse.
    assert (Hd : @decode lib (@encode lib m) = Some m)
      by exact (@decode_encoded_object lib (@encode lib m) m Hwf Hparse).
    split; [exact Hd |]. split.
    + intros r. exact (@receiver_handles_decoded lib _ m r Hd).
    + intros s. exact (@sender_handles_decoded lib _ m s Hd).
Qed.

Lemma decode_encode_witness :
  wf_message escaped_candidate /\
  @decode RefJson.lib (@encode RefJson.lib escaped_candidate)
  = Some escaped_candidate /\
  @Receiver.handle_server_message RefJson.lib SOUP_WEBSOCKET_DATA_TEXT
    (@encode RefJson.lib escaped_candidate)
    (Receiver.state Receiver.started)
  = Some (Receiver.state Receiver.started,
          [emit_add_ice_candidate 4294967295
             (Some ("candidate:1 1 UDP " ++
                    String RefJson.quote
                      (String RefJson.backslash
                         (String RefJson.tab "typ host")))%string)]) /\
  @decode RefJson.lib (@encode RefJson.lib offer_two_lines)
  = Some offer_two_lines.
Proof.
  assert (Hwf : wf_message escaped_candidate).
  { cbn. unfold is_guint. lia. }
  assert (Hwf' : wf_message offer_two_lines) by (left; reflexivity).
  destruct (decode_encode escaped_candidate Hwf) as (_ & Hany).
  destruct (Hany RefJson.lib) as (Hd & Hr & _).
  { vm_compute. reflexivity. }
  destruct (decode_encode offer_two_lines Hwf') as (Href & _).
  split; [exact Hwf |]. split; [exact Hd |].
  split; [exact (Hr (Receiver.state Receiver.started)) |].
  exact (Href eq_refl).
Defined.

(** * Further properties of the code *)

(** ** What a handler never does *)

Lemma sent_app (t1 t2 : Trace) : sent (t1 ++ t2) = sent t1 ++ sent t2.
Proof.
  induction t1 as [| e rest IH]; [reflexivity |].
  destruct e; cbn; rewrite ?IH; reflexivity.
Qed.

Lemma sent_nil_iff (t : Trace) : sent t = [] <-> filter is_send_text t = [].
Proof.
  induction t as [| e rest IH]; [split; reflexivity |].
  destruct e; cbn; try exact IH; split; discriminate.
Qed.

(** X1. Handling a received frame is confined to the media engine:
    whatever the frame, [handle_server_message] (in either program) leaves
    every global as it is, sends no frame, closes nothing, stops nothing,
    and makes at most one call into the media engine. *)
Theorem handle_server_message_confined `{JsonLib}
  (data_type : SoupWebsocketDataType) (bytes : string)
  (r : Receiver.State) (s : Sender.State) :
  match Receiver.handle_server_message data_type bytes r with
  | Some (r', t) =>
      r' = r /\ sent t = [] /\ filter observable t = [] /\
      (count is_media_engine_call t <= 1)%nat
  | None => True
  end /\
  match Sender.handle_server_message data_type bytes s with
  | Some (s', t) =>
      s' = s /\ sent t = [] /\ filter observable t = [] /\
      (count is_media_engine_call t <= 1)%nat
  | None => True
  end.
Proof.
  unfold Receiver.handle_server_message, Sender.handle_server_message, emit,
    count.
  split; break_match; cbn; auto.
Qed.

(** ** Frames with a NUL byte *)

Lemma g_strndup_stops_at_nul (a b : string) :
  nul_free a = true -> g_strndup (a ++ String zero b) = a.
Proof.
  induction a as [| c rest IH]; intros Ha.
  - reflexivity.
  - cbn in Ha. apply andb_true_iff in Ha. destruct Ha as [Hc Hrest].
    apply negb_true_iff in Hc. cbn. rewrite Hc. now rewrite IH.
Qed.

(** X2. A text frame is read up to its first NUL byte: whatever follows
    the NUL is ignored, so the frame is handled exactly as its prefix
    would be (both programs). *)
Theorem frame_read_up_to_nul `{JsonLib} (a b : string)
  (r : Receiver.State) (s : Sender.State) :
  nul_free a = true ->
  Receiver.handle_server_message SOUP_WEBSOCKET_DATA_TEXT
    (a ++ String zero b) r
  = Receiver.handle_server_message SOUP_WEBSOCKET_DATA_TEXT a r /\
  Sender.handle_server_message SOUP_WEBSOCKET_DATA_TEXT
    (a ++ String zero b) s
  = Sender.handle_server_message SOUP_WEBSOCKET_DATA_TEXT a s.
Proof.
  intros Ha.
  unfold Receiver.handle_server_message, Sender.handle_server_message.
  rewrite (g_strndup_stops_at_nul a b Ha), (g_strndup_nul_free a Ha).
  split; reflexivity.
Qed.

Lemma frame_read_up_to_nul_witness :
  nul_free (@encode RefJson.lib candidate_1) = true /\
  @Receiver.handle_server_message RefJson.lib SOUP_WEBSOCKET_DATA_TEXT
    (@encode RefJson.lib candidate_1 ++ String zero "not json")%string
    (Receiver.state Receiver.started)
  = @Receiver.handle_server_message RefJson.lib SOUP_WEBSOCKET_DATA_TEXT
      (@encode RefJson.lib candidate_1) (Receiver.state Receiver.started).
Proof.
  assert (Hnul : nul_free (@encode RefJson.lib candidate_1) = true)
    by (vm_compute; reflexivity).
  split; [exact Hnul |].
  apply (@frame_read_up_to_nul RefJson.lib _ "not json"
           (Receiver.state Receiver.started) (Sender.state Sender.started)
           Hnul).
Defined.

(** ** The index of a remote candidate *)

Lemma to_guint_to_gint_mod (z : Z) : to_guint (to_gint z) = z mod 2 ^ 32.
Proof.
  unfold to_guint, to_gint.
  rewrite Zminus_mod, Zmod_mod, <- Zminus_mod.
  f_equal. lia.
Qed.

(** X3. Every frame whose object has an "ice" member and no "sdp" member
    is forwarded while the media engine exists, whatever the member
    holds: the index that reaches "add-ice-candidate" is the wire integer
    modulo 2^32 (0 when it is missing), and the candidate is NULL when
    the member holds no string.  Both programs do the same. *)
Theorem ice_member_always_forwarded `{JsonLib} (bytes : string)
  (obj : JsonObject) (r : Receiver.State) (s : Sender.State) :
  json_parser_load_from_data (g_strndup bytes) = Some (JSON_OBJECT obj) ->
  json_object_has_member obj "sdp" = false ->
  json_object_has_member obj "ice" = true ->
  webrtc (Receiver.globals r) = true ->
  webrtc s = true ->
  let ice := json_object_get_object_member (Some obj) "ice" in
  let forwarded :=
    emit_add_ice_candidate
      (json_object_get_int_member ice "sdpMLineIndex" mod 2 ^ 32)
      (json_object_get_string_member ice "candidate") in
  Receiver.handle_server_message SOUP_WEBSOCKET_DATA_TEXT bytes r
  = Some (r, [forwarded]) /\
  Sender.handle_server_message SOUP_WEBSOCKET_DATA_TEXT bytes s
  = Some (s, [forwarded]).
Proof.
  intros Hparse Hsdp Hice Hr Hs ice forwarded.
  unfold Receiver.handle_server_message, Sender.handle_server_message, emit.
  rewrite Hparse, Hsdp, Hice, Hr, Hs.
  subst forwarded ice. rewrite to_guint_to_gint_mod. split; reflexivity.
Qed.

Lemma ice_member_always_forwarded_witness :
  @Receiver.handle_server_message RefJson.lib SOUP_WEBSOCKET_DATA_TEXT
    (RefJson.print
       (JSON_OBJECT
          [("ice", JSON_OBJECT [("candidate", JSON_STRING "candidate:1");
                                ("sdpMLineIndex", JSON_INT 4294967297)])]))
    (Receiver.state Receiver.started)
  = Some (Receiver.state Receiver.started,
          [emit_add_ice_candidate 1 (Some "candidate:1")]).
Proof.
  apply (@ice_member_always_forwarded RefJson.lib _
           [("ice", JSON_OBJECT [("candidate", JSON_STRING "candidate:1");
                                 ("sdpMLineIndex", JSON_INT 4294967297)])]
           (Receiver.state Receiver.started) (Sender.state Sender.started));
    vm_compute; reflexivity.
Defined.

(** ** Members the handlers do not read *)

(** X4. A frame is handled according to six lookups only: whether its
    object has an "sdp" and an "ice" member, and the members "type" and
    "sdp" of the one, "candidate" and "sdpMLineIndex" of the other.  Two
    frames that agree on these are handled alike by both programs,
    whatever other members they carry and in whatever order. *)
Theorem handled_by_six_lookups `{JsonLib} (bytes bytes' : string)
  (obj obj' : JsonObject) (r : Receiver.State) (s : Sender.State) :
  json_parser_load_from_data (g_strndup bytes) = Some (JSON_OBJECT obj) ->
  json_parser_load_from_data (g_strndup bytes') = Some (JSON_OBJECT obj') ->
  member_view obj "sdp" ["type"; "sdp"]
  = member_view obj' "sdp" ["type"; "sdp"] ->
  member_view obj "ice" ["candidate"; "sdpMLineIndex"]
  = member_view obj' "ice" ["candidate"; "sdpMLineIndex"] ->
  Receiver.handle_server_message SOUP_WEBSOCKET_DATA_TEXT bytes r
  = Receiver.handle_server_message SOUP_WEBSOCKET_DATA_TEXT bytes' r /\
  Sender.handle_server_message SOUP_WEBSOCKET_DATA_TEXT bytes s
  = Sender.handle_server_message SOUP_WEBSOCKET_DATA_TEXT bytes' s.
Proof.
  intros Hparse Hparse' Hsdp Hice.
  unfold Receiver.handle_server_message, Sender.handle_server_message.
  rewrite Hparse, Hparse'. unfold member_view in Hsdp, Hice.
  unfold JsonObject in *.
  remember (json_object_get_object_member (Some obj) "sdp") as so.
  remember (json_object_get_object_member (Some obj') "sdp") as so'.
  remember (json_object_get_object_member (Some obj) "ice") as io.
  remember (json_object_get_object_member (Some obj') "ice") as io'.
  cbn [map] in Hsdp, Hice.
  injection Hsdp as Hhas_sdp Htype Htext.
  injection Hice as Hhas_ice Hcand Hidx.
  rewrite Hhas_sdp, Hhas_ice.
  assert (Hs_type : json_object_get_string_member so "type"
                    = json_object_get_string_member so' "type")
    by (destruct so, so'; cbn; now rewrite ?Htype, <- ?Htype).
  assert (Hs_text : json_object_get_string_member so "sdp"
                    = json_object_get_string_member so' "sdp")
    by (destruct so, so'; cbn; now rewrite ?Htext, <- ?Htext).
  assert (Hs_cand : json_object_get_string_member io "candidate"
                    = json_object_get_string_member io' "candidate")
    by (destruct io, io'; cbn; now rewrite ?Hcand, <- ?Hcand).
  assert (Hs_idx : json_object_get_int_member io "sdpMLineIndex"
                   = json_object_get_int_member io' "sdpMLineIndex")
    by (destruct io, io'; cbn; now rewrite ?Hidx, <- ?Hidx).
  rewrite Hs_type, Hs_text, Hs_cand, Hs_idx.
  split; reflexivity.
Qed.

Lemma handled_by_six_lookups_witness :
  @Receiver.handle_server_message RefJson.lib SOUP_WEBSOCKET_DATA_TEXT
    (RefJson.print (JSON_OBJECT ice_plain)) (Receiver.state Receiver.started)
  = @Receiver.handle_server_message RefJson.lib SOUP_WEBSOCKET_DATA_TEXT
      (RefJson.print (JSON_OBJECT ice_with_mid))
      (Receiver.state Receiver.started).
Proof.
  apply (@handled_by_six_lookups RefJson.lib
           (RefJson.print (JSON_OBJECT ice_plain))
           (RefJson.print (JSON_OBJECT ice_with_mid))
           ice_plain ice_with_mid
           (Receiver.state Receiver.started) (Sender.state Sender.started));
    vm_compute; reflexivity.
Defined.

(** ** The description type on the wire *)

(** X5. [send_sdp] writes "offer" for an offer and "answer" for every
    other description type, so the type does not survive the wire in
    general: what is decoded from an encoded description is the same SDP
    text with type OFFER for an offer and ANSWER for a provisional answer,
    an answer or a rollback. *)
Theorem sdp_type_on_the_wire `{JsonLib} (desc : GstWebRTCSessionDescription) :
  json_parser_load_from_data (g_strndup (encode (SdpMessage desc)))
  = Some (JSON_OBJECT (encode_object (SdpMessage desc))) ->
  decode (encode (SdpMessage desc))
  = Some (SdpMessage {| type := wire_type (type desc); sdp := sdp desc |}).
Proof.
  intros Hparse. unfold decode. rewrite Hparse.
  destruct desc as [[ | | | ] sdp_text]; reflexivity.
Qed.

Lemma sdp_type_on_the_wire_witness :
  @decode RefJson.lib
    (@encode RefJson.lib
       (SdpMessage {| type := GST_WEBRTC_SDP_TYPE_PRANSWER; sdp := "v=0" |}))
  = Some (SdpMessage {| type := GST_WEBRTC_SDP_TYPE_ANSWER; sdp := "v=0" |}).
Proof.
  apply (@sdp_type_on_the_wire RefJson.lib
           {| type := GST_WEBRTC_SDP_TYPE_PRANSWER; sdp := "v=0" |}).
  vm_compute. reflexivity.
Defined.

(** ** Local candidates *)

Lemma receiver_step_local_candidate `{JsonLib} (c : Z * string)
  (w : Receiver.World) :
  Receiver.step (Receiver.ev_on_ice_candidate (fst c) (snd c)) w
  = Some (w, if ws_open (Receiver.globals (Receiver.state w))
             then [candidate_frame c] else []).
Proof.
  unfold Receiver.step. cbn [Receiver.enabled Receiver.dispatch].
  unfold send_ice_candidate, candidate_frame.
  destruct w as [st n1 n2]. cbn [Receiver.state].
  destruct (ws_open (Receiver.globals st)); cbn;
    now rewrite !Nat.sub_0_r, !Nat.add_0_r.
Qed.

Lemma sender_step_local_candidate `{JsonLib} (c : Z * string)
  (w : Sender.World) :
  Sender.step (Sender.ev_on_ice_candidate (fst c) (snd c)) w
  = Some (w, if ws_open (Sender.state w) then [candidate_frame c] else []).
Proof.
  unfold Sender.step. cbn [Sender.enabled Sender.dispatch].
  unfold send_ice_candidate, candidate_frame.
  destruct w as [st n]. cbn [Sender.state].
  destruct (ws_open st); cbn; now rewrite Nat.sub_0_r, Nat.add_0_r.
Qed.

(** X6. Local candidates go out as the media engine produces them: while
    the connection is open, a run of "on-ice-candidate" signals sends one
    frame per candidate, in the same order, duplicates included; while it
    is not open (never connected, closing, closed) it sends nothing and
    keeps nothing for later.  The session state is untouched either way
    (both programs). *)
Theorem local_candidates_sent_in_order `{JsonLib} (cs : list (Z * string))
  (rw : Receiver.World) (sw : Sender.World) :
  Receiver.run
    (map (fun c => Receiver.ev_on_ice_candidate (fst c) (snd c)) cs) rw
  = Some (rw, if ws_open (Receiver.globals (Receiver.state rw))
              then map candidate_frame cs else []) /\
  Sender.run (map (fun c => Sender.ev_on_ice_candidate (fst c) (snd c)) cs) sw
  = Some (sw, if ws_open (Sender.state sw)
              then map candidate_frame cs else []).
Proof.
  induction cs as [| c rest [IHr IHs]].
  - split; cbn; [destruct (ws_open _) | destruct (ws_open _)]; reflexivity.
  - cbn [map Receiver.run Sender.run].
    rewrite receiver_step_local_candidate, sender_step_local_candidate.
    rewrite IHr, IHs.
    split; [destruct (ws_open (Receiver.globals _))
           | destruct (ws_open (Sender.state _))]; reflexivity.
Qed.

(** ** Teardown along a run *)

Lemma on_incoming_stream_globals (pad : Receiver.GstPad)
  (a : Receiver.Attach) (s : Receiver.State) :
  Receiver.globals (fst (Receiver.on_incoming_stream pad a s))
  = Receiver.globals s.
Proof. unfold Receiver.on_incoming_stream. break_match; reflexivity. Qed.

(** One call of [cleanup_and_quit]: each of the three effects is issued
    exactly when its handle is live, and the handle is dead after it. *)
Lemma cleanup_and_quit_accounts (msg : option string) (g : Globals) :
  let g' := fst (cleanup_and_quit msg g) in
  let t := snd (cleanup_and_quit msg g) in
  (count is_quit t + b2n (loop g') = b2n (loop g))%nat /\
  (count is_stop t + b2n (pipep g') = b2n (pipep g))%nat /\
  (count is_close t + b2n (ws_open g') = b2n (ws_open g))%nat /\
  filter loud t = [] /\
  (dead g -> dead g') /\
  (pipep g = true \/ webrtc g = false -> ws_open g = false -> dead g').
Proof.
  destruct g as [l p w ws].
  destruct msg, l, p, w, ws as [[ | | ] | ]; cbn;
    unfold dead, ws_open; cbn; intuition congruence.
Qed.

Ltac finish_accounts :=
  cbn; repeat split; try lia; try tauto;
  try (unfold dead in *; cbn in *; intuition congruence).

Lemma receiver_dispatch_accounts `{JsonLib} (e : Receiver.Event)
  (s s' : Receiver.State) (t : Trace) :
  Receiver.dispatch e s = Some (s', t) ->
  let g := Receiver.globals s in
  let g' := Receiver.globals s' in
  (count is_quit t + b2n (loop g') = b2n (loop g))%nat /\
  (count is_stop t + b2n (pipep g') = b2n (pipep g))%nat /\
  (count is_close t + b2n (ws_open g') <= b2n (ws_open g))%nat /\
  (dead g -> dead g' /\ filter loud t = []).
Proof.
  intros Hd g g'. subst g g'. destruct e; cbn [Receiver.dispatch] in Hd.
  - unfold Receiver.handle_server_message, emit in Hd.
    break_match_hyp Hd; try discriminate; injection Hd as <- <-;
      finish_accounts.
  - injection Hd as Hd. unfold Receiver.on_server_closed in Hd.
    remember (Receiver.globals (Receiver.connection_closed s)) as g0 eqn:Hg0.
    assert (Hsame : ws_open g0 = false /\
                    loop g0 = loop (Receiver.globals s) /\
                    pipep g0 = pipep (Receiver.globals s) /\
                    webrtc g0 = webrtc (Receiver.globals s)).
    { subst g0. unfold ws_open. cbn.
      destruct (ws_conn (Receiver.globals s)); auto. }
    destruct Hsame as (Hopen & Hloop & Hpipe & Hweb).
    pose proof (cleanup_and_quit_accounts (Some "[receiver] Server closed") g0)
      as (Hq & Hs & Hc & Hl & Hdead & _).
    destruct (cleanup_and_quit _ g0) as [g1 t1].
    injection Hd as <- <-.
    cbn [fst snd Receiver.globals Receiver.with_globals] in *.
    rewrite Hopen in Hc. rewrite Hloop in Hq. rewrite Hpipe in Hs.
    cbn [b2n] in Hc.
    split; [exact Hq | split; [exact Hs | split; [lia |]]].
    intros Hdg. split; [| exact Hl].
    apply Hdead. unfold dead in *. rewrite Hopen, Hloop, Hpipe, Hweb. tauto.
  - injection Hd as Hd.
    pose proof (on_incoming_stream_globals pad a s) as Hg.
    assert (Ht : forall p,
               (forall e, is_diagnostic e || constructs_chain e = true ->
                          p e = false) ->
               filter p (snd (Receiver.on_incoming_stream pad a s)) = [])
      by (intros p Hp; now apply filter_on_incoming_stream).
    rewrite Hd in Hg, Ht. cbn [fst snd] in Hg, Ht.
    unfold count. rewrite !Ht, Hg
      by (intros [] Hp; try discriminate; reflexivity).
    finish_accounts.
  - injection Hd as <- <-. unfold send_ice_candidate.
    destruct (ws_open (Receiver.globals s)) eqn:Hopen; finish_accounts.
  - injection Hd as <- <-. unfold emit. break_match; finish_accounts.
  - unfold Receiver.on_answer_created, send_sdp, emit in Hd.
    destruct (ws_open (Receiver.globals s)) eqn:Hopen;
      break_match_hyp Hd; try discriminate; injection Hd as <- <-;
      rewrite ?Hopen; finish_accounts.
Qed.

Lemma receiver_run_accounts `{JsonLib} (es : list Receiver.Event) :
  forall (w w' : Receiver.World) (t : Trace),
  Receiver.run es w = Some (w', t) ->
  let g := Receiver.globals (Receiver.state w) in
  let g' := Receiver.globals (Receiver.state w') in
  (count is_quit t + b2n (loop g') = b2n (loop g))%nat /\
  (count is_stop t + b2n (pipep g') = b2n (pipep g))%nat /\
  (count is_close t + b2n (ws_open g') <= b2n (ws_open g))%nat /\
  (dead g -> dead g' /\ filter loud t = []).
Proof.
  induction es as [| e rest IH]; intros w w' t Hrun.
  - cbn in Hrun. injection Hrun as <- <-. cbn.
    split; [lia | split; [lia | split; [lia |]]].
    intros Hdg. split; [exact Hdg | reflexivity].
  - cbn [Receiver.run] in Hrun. cbv zeta.
    destruct (Receiver.step e w) as [[w1 t1] |] eqn:Hstep; [| discriminate].
    destruct (Receiver.run rest w1) as [[w2 t2] |] eqn:Hrest;
      [| discriminate].
    injection Hrun as <- <-.
    unfold Receiver.step in Hstep.
    destruct (Receiver.enabled e w); [| discriminate].
    destruct (Receiver.dispatch e (Receiver.state w)) as [[s1 t1'] |] eqn:Hd;
      [| discriminate].
    injection Hstep as <- <-.
    destruct (receiver_dispatch_accounts e _ _ _ Hd) as (Hq & Hs & Hc & Hdead).
    destruct (IH _ _ _ Hrest) as (IHq & IHs & IHc & IHdead).
    cbn [Receiver.state] in *.
    rewrite !count_app.
    split; [lia | split; [lia | split; [lia |]]].
    intros Hdg. destruct (Hdead Hdg) as (Hd1 & Hl1).
    destruct (IHdead Hd1) as (Hd2 & Hl2).
    split; [exact Hd2 |]. now rewrite filter_app, Hl1, Hl2.
Qed.

Lemma sender_dispatch_accounts `{JsonLib} (e : Sender.Event)
  (s s' : Sender.State) (t : Trace) :
  Sender.dispatch e s = Some (s', t) ->
  (count is_quit t + b2n (loop s') = b2n (loop s))%nat /\
  (count is_stop t + b2n (pipep s') = b2n (pipep s))%nat /\
  (count is_close t + b2n (ws_open s') <= b2n (ws_open s))%nat /\
  (dead s -> dead s' /\ filter loud t = []).
Proof.
  intros Hd. destruct e; cbn [Sender.dispatch] in Hd.
  - unfold Sender.handle_server_message, emit in Hd.
    break_match_hyp Hd; try discriminate; injection Hd as <- <-;
      finish_accounts.
  - injection Hd as Hd. unfold Sender.on_server_closed in Hd.
    remember (Sender.connection_closed s) as g0 eqn:Hg0.
    assert (Hsame : ws_open g0 = false /\ loop g0 = loop s /\
                    pipep g0 = pipep s /\ webrtc g0 = webrtc s).
    { subst g0. unfold ws_open. cbn. destruct (ws_conn s); auto. }
    destruct Hsame as (Hopen & Hloop & Hpipe & Hweb).
    pose proof (cleanup_and_quit_accounts (Some "[sender] Server closed") g0)
      as (Hq & Hs & Hc & Hl & Hdead & _).
    rewrite Hd in Hq, Hs, Hc, Hl, Hdead. cbn [fst snd] in *.
    rewrite Hopen in Hc. rewrite Hloop in Hq. rewrite Hpipe in Hs.
    cbn [b2n] in Hc.
    split; [exact Hq | split; [exact Hs | split; [lia |]]].
    intros Hdg. split; [| exact Hl].
    apply Hdead. unfold dead in *. rewrite Hopen, Hloop, Hpipe, Hweb. tauto.
  - injection Hd as <- <-. unfold Sender.on_negotiation_needed, emit.
    break_match; finish_accounts.
  - injection Hd as <- <-. unfold send_ice_candidate.
    destruct (ws_open s) eqn:Hopen; finish_accounts.
  - unfold Sender.on_offer_created, send_sdp, emit in Hd.
    destruct (ws_open s) eqn:Hopen;
      break_match_hyp Hd; try discriminate; injection Hd as <- <-;
      rewrite ?Hopen; finish_accounts.
Qed.

Lemma sender_run_accounts `{JsonLib} (es : list Sender.Event) :
  forall (w w' : Sender.World) (t : Trace),
  Sender.run es w = Some (w', t) ->
  let g := Sender.state w in
  let g' := Sender.state w' in
  (count is_quit t + b2n (loop g') = b2n (loop g))%nat /\
  (count is_stop t + b2n (pipep g') = b2n (pipep g))%nat /\
  (count is_close t + b2n (ws_open g') <= b2n (ws_open g))%nat /\
  (dead g -> dead g' /\ filter loud t = []).
Proof.
  induction es as [| e rest IH]; intros w w' t Hrun.
  - cbn in Hrun. injection Hrun as <- <-. cbn.
    split; [lia | split; [lia | split; [lia |]]].
    intros Hdg. split; [exact Hdg | reflexivity].
  - cbn [Sender.run] in Hrun. cbv zeta.
    destruct (Sender.step e w) as [[w1 t1] |] eqn:Hstep; [| discriminate].
    destruct (Sender.run rest w1) as [[w2 t2] |] eqn:Hrest; [| discriminate].
    injection Hrun as <- <-.
    unfold Sender.step in Hstep.
    destruct (Sender.enabled e w); [| discriminate].
    destruct (Sender.dispatch e (Sender.state w)) as [[s1 t1'] |] eqn:Hd;
      [| discriminate].
    injection Hstep as <- <-.
    destruct (sender_dispatch_accounts e _ _ _ Hd) as (Hq & Hs & Hc & Hdead).
    destruct (IH _ _ _ Hrest) as (IHq & IHs & IHc & IHdead).
    cbn [Sender.state] in *.
    rewrite !count_app.
    split; [lia | split; [lia | split; [lia |]]].
    intros Hdg. destruct (Hdead Hdg) as (Hd1 & Hl1).
    destruct (IHdead Hd1) as (Hd2 & Hl2).
    split; [exact Hd2 |]. now rewrite filter_app, Hl1, Hl2.
Qed.

Lemma b2n_le_1 (b : bool) : (b2n b <= 1)%nat.
Proof. destruct b; cbn; lia. Qed.

(** X7. Along any run of either program, whatever the events and their
    order, the run loop is quit at most once, the pipeline is stopped at
    most once and the transport is closed at most once, and each only if
    its handle was live when the run began. *)
Theorem teardown_effects_once `{JsonLib}
  (res : list Receiver.Event) (rw rw' : Receiver.World) (rt : Trace)
  (ses : list Sender.Event) (sw sw' : Sender.World) (st : Trace) :
  Receiver.run res rw = Some (rw', rt) ->
  Sender.run ses sw = Some (sw', st) ->
  let rg := Receiver.globals (Receiver.state rw) in
  let sg := Sender.state sw in
  (count is_quit rt <= b2n (loop rg) <= 1)%nat /\
  (count is_stop rt <= b2n (pipep rg) <= 1)%nat /\
  (count is_close rt <= b2n (ws_open rg) <= 1)%nat /\
  (count is_quit st <= b2n (loop sg) <= 1)%nat /\
  (count is_stop st <= b2n (pipep sg) <= 1)%nat /\
  (count is_close st <= b2n (ws_open sg) <= 1)%nat.
Proof.
  intros Hr Hs rg sg.
  destruct (receiver_run_accounts res rw rw' rt Hr) as (Hq & Hp & Hc & _).
  destruct (sender_run_accounts ses sw sw' st Hs) as (Hq' & Hp' & Hc' & _).
  cbv zeta in *. fold rg in Hq, Hp, Hc. fold sg in Hq', Hp', Hc'.
  pose proof (b2n_le_1 (loop rg)). pose proof (b2n_le_1 (pipep rg)).
  pose proof (b2n_le_1 (ws_open rg)). pose proof (b2n_le_1 (loop sg)).
  pose proof (b2n_le_1 (pipep sg)). pose proof (b2n_le_1 (ws_open sg)).
  repeat split; lia.
Qed.

Lemma teardown_effects_once_witness :
  exists rw' rt sw' st,
    @Receiver.run RefJson.lib closed_then_late Receiver.started
    = Some (rw', rt) /\
    @Sender.run RefJson.lib sender_closed_then_late Sender.started
    = Some (sw', st) /\
    (count is_quit rt <= 1)%nat /\ (count is_close st <= 1)%nat.
Proof.
  destruct (@Receiver.run RefJson.lib closed_then_late Receiver.started)
    as [[rw' rt] |] eqn:Hr; [| vm_compute in Hr; discriminate].
  destruct (@Sender.run RefJson.lib sender_closed_then_late Sender.started)
    as [[sw' st] |] eqn:Hs; [| vm_compute in Hs; discriminate].
  exists rw', rt, sw', st.
  pose proof (@teardown_effects_once RefJson.lib _ _ _ _ _ _ _ _ Hr Hs)
    as Hthm.
  cbv zeta in Hthm. destruct Hthm as (Hq & _ & _ & _ & _ & Hc).
  repeat split; lia.
Defined.

Lemma closed_makes_dead (msg : option string) (g g0 : Globals) :
  ws_open g0 = false -> loop g0 = loop g -> pipep g0 = pipep g ->
  webrtc g0 = webrtc g ->
  pipep g = true \/ webrtc g = false ->
  dead (fst (cleanup_and_quit msg g0)).
Proof.
  intros Hopen Hloop Hpipe Hweb Hlive.
  pose proof (cleanup_and_quit_accounts msg g0) as (_ & _ & _ & _ & _ & Hdead).
  apply Hdead; [| exact Hopen]. rewrite Hpipe, Hweb. exact Hlive.
Qed.

Lemma receiver_closed_dead (s : Receiver.State) :
  pipep (Receiver.globals s) = true \/ webrtc (Receiver.globals s) = false ->
  dead (Receiver.globals
          (fst (Receiver.on_server_closed (Receiver.connection_closed s)))) /\
  filter loud (snd (Receiver.on_server_closed (Receiver.connection_closed s)))
  = [].
Proof.
  intros Hlive. unfold Receiver.on_server_closed.
  remember (Receiver.globals (Receiver.connection_closed s)) as g0 eqn:Hg0.
  assert (Hsame : ws_open g0 = false /\
                  loop g0 = loop (Receiver.globals s) /\
                  pipep g0 = pipep (Receiver.globals s) /\
                  webrtc g0 = webrtc (Receiver.globals s)).
  { subst g0. unfold ws_open. cbn.
    destruct (ws_conn (Receiver.globals s)); auto. }
  destruct Hsame as (Hopen & Hloop & Hpipe & Hweb).
  pose proof (closed_makes_dead (Some "[receiver] Server closed")
                (Receiver.globals s) g0 Hopen Hloop Hpipe Hweb Hlive) as Hd.
  pose proof (cleanup_and_quit_accounts (Some "[receiver] Server closed") g0)
    as (_ & _ & _ & Hl & _).
  destruct (cleanup_and_quit _ g0) as [g1 t1]. cbn [fst snd] in *.
  split; assumption.
Qed.

Lemma sender_closed_dead (s : Sender.State) :
  pipep s = true \/ webrtc s = false ->
  dead (fst (Sender.on_server_closed (Sender.connection_closed s))) /\
  filter loud (snd (Sender.on_server_closed (Sender.connection_closed s)))
  = [].
Proof.
  intros Hlive. unfold Sender.on_server_closed.
  remember (Sender.connection_closed s) as g0 eqn:Hg0.
  assert (Hsame : ws_open g0 = false /\ loop g0 = loop s /\
                  pipep g0 = pipep s /\ webrtc g0 = webrtc s).
  { subst g0. unfold ws_open. cbn. destruct (ws_conn s); auto. }
  destruct Hsame as (Hopen & Hloop & Hpipe & Hweb).
  pose proof (closed_makes_dead (Some "[sender] Server closed")
                s g0 Hopen Hloop Hpipe Hweb Hlive) as Hd.
  pose proof (cleanup_and_quit_accounts (Some "[sender] Server closed") g0)
    as (_ & _ & _ & Hl & _).
  split; assumption.
Qed.

Lemma receiver_last_effects_dead (e : Receiver.Event) (s : Receiver.State) :
  webrtc (Receiver.globals s) = false ->
  filter loud (receiver_last_effects e s) = [].
Proof.
  intros Hweb. destruct e as [ | | | | | result answer]; try reflexivity.
  destruct result; try reflexivity.
  cbn [receiver_last_effects]. unfold emit. rewrite Hweb. reflexivity.
Qed.

Lemma sender_last_effects_dead (e : Sender.Event) (s : Sender.State) :
  webrtc s = false ->
  filter loud (sender_last_effects e s) = [].
Proof.
  intros Hweb. destruct e as [ | | | | result offer]; try reflexivity.
  destruct result; try reflexivity.
  cbn [sender_last_effects]. unfold emit. rewrite Hweb. reflexivity.
Qed.

Lemma receiver_play_dead `{JsonLib} (es : list Receiver.Event) :
  forall s : Receiver.State,
  dead (Receiver.globals s) ->
  filter loud (fst (receiver_play es s)) = [] /\
  forall s', snd (receiver_play es s) = Some s' ->
             dead (Receiver.globals s').
Proof.
  induction es as [| e rest IH]; intros s Hdead.
  - cbn. split; [reflexivity |]. intros s' [= <-]. exact Hdead.
  - cbn [receiver_play].
    destruct (Receiver.dispatch e s) as [[s1 t1] |] eqn:Hd.
    + destruct (receiver_dispatch_accounts e s s1 t1 Hd) as (_ & _ & _ & Hq).
      destruct (Hq Hdead) as (Hdead1 & Hl1).
      destruct (IH s1 Hdead1) as (Hl2 & Hend).
      destruct (receiver_play rest s1) as [t2 final]. cbn [fst snd] in *.
      split; [now rewrite filter_app, Hl1, Hl2 | exact Hend].
    + cbn [fst snd]. split; [| discriminate].
      apply receiver_last_effects_dead. apply Hdead.
Qed.

Lemma sender_play_dead `{JsonLib} (es : list Sender.Event) :
  forall s : Sender.State,
  dead s ->
  filter loud (fst (sender_play es s)) = [] /\
  forall s', snd (sender_play es s) = Some s' -> dead s'.
Proof.
  induction es as [| e rest IH]; intros s Hdead.
  - cbn. split; [reflexivity |]. intros s' [= <-]. exact Hdead.
  - cbn [sender_play].
    destruct (Sender.dispatch e s) as [[s1 t1] |] eqn:Hd.
    + destruct (sender_dispatch_accounts e s s1 t1 Hd) as (_ & _ & _ & Hq).
      destruct (Hq Hdead) as (Hdead1 & Hl1).
      destruct (IH s1 Hdead1) as (Hl2 & Hend).
      destruct (sender_play rest s1) as [t2 final]. cbn [fst snd] in *.
      split; [now rewrite filter_app, Hl1, Hl2 | exact Hend].
    + cbn [fst snd]. split; [| discriminate].
      apply sender_last_effects_dead. apply Hdead.
Qed.

(** A run that returns is the play of its events. *)
Lemma receiver_run_play `{JsonLib} (es : list Receiver.Event) :
  forall (w w' : Receiver.World) (t : Trace),
  Receiver.run es w = Some (w', t) ->
  receiver_play es (Receiver.state w) = (t, Some (Receiver.state w')).
Proof.
  induction es as [| e rest IH]; intros w w' t Hrun.
  - cbn in Hrun. injection Hrun as <- <-. reflexivity.
  - cbn [Receiver.run] in Hrun. cbn [receiver_play].
    destruct (Receiver.step e w) as [[w1 t1] |] eqn:Hstep; [| discriminate].
    destruct (Receiver.run rest w1) as [[w2 t2] |] eqn:Hrest;
      [| discriminate].
    injection Hrun as <- <-.
    unfold Receiver.step in Hstep.
    destruct (Receiver.enabled e w); [| discriminate].
    destruct (Receiver.dispatch e (Receiver.state w)) as [[s1 t1'] |];
      [| discriminate].
    injection Hstep as <- <-.
    pose proof (IH _ _ _ Hrest) as Hplay. cbn [Receiver.state] in Hplay.
    rewrite Hplay. reflexivity.
Qed.

Lemma sender_run_play `{JsonLib} (es : list Sender.Event) :
  forall (w w' : Sender.World) (t : Trace),
  Sender.run es w = Some (w', t) ->
  sender_play es (Sender.state w) = (t, Some (Sender.state w')).
Proof.
  induction es as [| e rest IH]; intros w w' t Hrun.
  - cbn in Hrun. injection Hrun as <- <-. reflexivity.
  - cbn [Sender.run] in Hrun. cbn [sender_play].
    destruct (Sender.step e w) as [[w1 t1] |] eqn:Hstep; [| discriminate].
    destruct (Sender.run rest w1) as [[w2 t2] |] eqn:Hrest;
      [| discriminate].
    injection Hrun as <- <-.
    unfold Sender.step in Hstep.
    destruct (Sender.enabled e w); [| discriminate].
    destruct (Sender.dispatch e (Sender.state w)) as [[s1 t1'] |];
      [| discriminate].
    injection Hstep as <- <-.
    pose proof (IH _ _ _ Hrest) as Hplay. cbn [Sender.state] in Hplay.
    rewrite Hplay. reflexivity.
Qed.

(** X8. After the "closed" signal nothing goes out any more.  Once
    "closed" has been handled in a session whose pipeline exists (or
    whose media engine does not), no callback that still arrives sends a
    frame or emits a signal on the media engine, in either program,
    whatever the callbacks are and in whatever order.  This includes a
    callback that kills the process (a late promise that was not replied
    to, an SDP frame without text) up to the point where it dies.  As
    long as the process lives, loop, pipeline and media engine stay NULL
    and the connection stays not open.  Late callbacks are not without
    effect otherwise: they still print, a second "closed" drops the
    connection reference, and a late stream notification still builds
    and links a receive chain. *)
Theorem late_callbacks_quiet `{JsonLib}
  (res : list Receiver.Event) (r : Receiver.State)
  (ses : list Sender.Event) (s : Sender.State) :
  pipep (Receiver.globals r) = true \/ webrtc (Receiver.globals r) = false ->
  pipep s = true \/ webrtc s = false ->
  filter loud (fst (receiver_play (Receiver.ev_closed :: res) r)) = [] /\
  (forall r', snd (receiver_play (Receiver.ev_closed :: res) r) = Some r' ->
              dead (Receiver.globals r')) /\
  filter loud (fst (sender_play (Sender.ev_closed :: ses) s)) = [] /\
  (forall s', snd (sender_play (Sender.ev_closed :: ses) s) = Some s' ->
              dead s').
Proof.
  intros Hrl Hsl.
  assert (Hrecv :
            filter loud (fst (receiver_play (Receiver.ev_closed :: res) r))
            = [] /\
            forall r',
              snd (receiver_play (Receiver.ev_closed :: res) r) = Some r' ->
              dead (Receiver.globals r')).
  { cbn [receiver_play Receiver.dispatch].
    destruct (receiver_closed_dead r Hrl) as (Hdead & Hl).
    destruct (Receiver.on_server_closed _) as [s1 t1]. cbn [fst snd] in *.
    destruct (receiver_play_dead res s1 Hdead) as (Hl2 & Hend).
    destruct (receiver_play res s1) as [t2 final]. cbn [fst snd] in *.
    split; [now rewrite filter_app, Hl, Hl2 | exact Hend]. }
  assert (Hsend :
            filter loud (fst (sender_play (Sender.ev_closed :: ses) s)) = [] /\
            forall s',
              snd (sender_play (Sender.ev_closed :: ses) s) = Some s' ->
              dead s').
  { cbn [sender_play Sender.dispatch].
    destruct (sender_closed_dead s Hsl) as (Hdead & Hl).
    destruct (Sender.on_server_closed _) as [s1 t1]. cbn [fst snd] in *.
    destruct (sender_play_dead ses s1 Hdead) as (Hl2 & Hend).
    destruct (sender_play ses s1) as [t2 final]. cbn [fst snd] in *.
    split; [now rewrite filter_app, Hl, Hl2 | exact Hend]. }
  tauto.
Qed.

Lemma late_callbacks_quiet_witness :
  snd (@receiver_play RefJson.lib (Receiver.ev_closed :: late_after_closed)
         (Receiver.state Receiver.started)) = None /\
  snd (@sender_play RefJson.lib (Sender.ev_closed :: sender_late_after_closed)
         (Sender.state Sender.started)) = None /\
  count constructs_chain
    (fst (@receiver_play RefJson.lib
            (Receiver.ev_closed :: late_after_closed)
            (Receiver.state Receiver.started))) <> 0%nat /\
  filter loud
    (fst (@receiver_play RefJson.lib
            (Receiver.ev_closed :: late_after_closed)
            (Receiver.state Receiver.started))) = [] /\
  filter loud
    (fst (@sender_play RefJson.lib
            (Sender.ev_closed :: sender_late_after_closed)
            (Sender.state Sender.started))) = [].
Proof.
  split; [vm_compute; reflexivity |].
  split; [vm_compute; reflexivity |].
  split; [vm_compute; discriminate |].
  destruct (@late_callbacks_quiet RefJson.lib
              late_after_closed (Receiver.state Receiver.started)
              sender_late_after_closed (Sender.state Sender.started)
              (or_introl eq_refl) (or_introl eq_refl))
    as (Hrq & _ & Hsq & _).
  split; assumption.
Defined.

Lemma g_strcmp0_eq_iff (a : option string) (b : string) :
  g_strcmp0_eq a b = true <-> a = Some b.
Proof.
  destruct a as [x |]; cbn; [| split; discriminate].
  rewrite String.eqb_eq. split; congruence.
Qed.

(** ** Where the processes die *)

(** X9. The receiver dies on exactly three inputs: a frame whose "sdp"
    member has type "offer" and no text, a create-answer promise that was
    not replied to, and a reply without an answer while the connection is
    open.  The sender dies on the mirror images (type "answer", the
    create-offer promise).  Every other event returns. *)
Theorem abort_conditions `{JsonLib} (re : Receiver.Event) (r : Receiver.State)
  (se : Sender.Event) (s : Sender.State) :
  (Receiver.dispatch re r = None <-> receiver_aborts re r) /\
  (Sender.dispatch se s = None <-> sender_aborts se s).
Proof.
  split.
  - destruct re; cbn [Receiver.dispatch receiver_aborts];
      try (split; [discriminate | tauto]).
    + unfold Receiver.handle_server_message.
      destruct data_type; [| split; [discriminate | tauto]].
      destruct (json_parser_load_from_data (g_strndup message))
        as [[ | | | | | obj] |]; try (split; [discriminate | tauto]).
      cbv zeta.
      destruct (json_object_has_member obj "sdp").
      * destruct (g_strcmp0_eq _ "offer") eqn:Hoffer.
        -- apply g_strcmp0_eq_iff in Hoffer.
           destruct (json_object_get_string_member _ "sdp");
             split; try discriminate; try tauto.
           intros (_ & _ & Hnone). discriminate.
        -- split; [discriminate |]. intros (_ & Htype & _).
           apply g_strcmp0_eq_iff in Htype. congruence.
      * destruct (json_object_has_member obj "ice");
          (split; [discriminate | intros (Hf & _); discriminate]).
    + unfold Receiver.on_answer_created, send_sdp.
      destruct result; try (split; [left; discriminate | reflexivity]).
      destruct (ws_open (Receiver.globals r)); cbn [negb].
      * destruct answer; split; try discriminate; try tauto.
        intros [Hres | [Hnone _]]; congruence.
      * split; [discriminate |]. intros [Hres | [_ Hopen]]; congruence.
  - destruct se; cbn [Sender.dispatch sender_aborts];
      try (split; [discriminate | tauto]).
    + unfold Sender.handle_server_message.
      destruct data_type; [| split; [discriminate | tauto]].
      destruct (json_parser_load_from_data (g_strndup message))
        as [[ | | | | | obj] |]; try (split; [discriminate | tauto]).
      cbv zeta.
      destruct (json_object_has_member obj "sdp").
      * destruct (g_strcmp0_eq _ "answer") eqn:Hanswer.
        -- apply g_strcmp0_eq_iff in Hanswer.
           destruct (json_object_get_string_member _ "sdp");
             split; try discriminate; try tauto.
           intros (_ & _ & Hnone). discriminate.
        -- split; [discriminate |]. intros (_ & Htype & _).
           apply g_strcmp0_eq_iff in Htype. congruence.
      * destruct (json_object_has_member obj "ice");
          (split; [discriminate | intros (Hf & _); discriminate]).
    + unfold Sender.on_offer_created, send_sdp.
      destruct result; try (split; [left; discriminate | reflexivity]).
      destruct (ws_open s); cbn [negb].
      * destruct offer; split; try discriminate; try tauto.
        intros [Hres | [Hnone _]]; congruence.
      * split; [discriminate |]. intros [Hres | [_ Hopen]]; congruence.
Qed.

Lemma abort_conditions_witness :
  @Receiver.dispatch RefJson.lib
    (Receiver.ev_message SOUP_WEBSOCKET_DATA_TEXT offer_without_text_frame)
    (Receiver.state Receiver.started) = None.
Proof.
  apply (proj1 (@abort_conditions RefJson.lib
                  (Receiver.ev_message SOUP_WEBSOCKET_DATA_TEXT
                     offer_without_text_frame)
                  (Receiver.state Receiver.started)
                  Sender.ev_closed (Sender.state Sender.started))).
  vm_compute. repeat split; reflexivity.
Defined.

(** ** Start-up *)

Lemma effects_app (t1 t2 : list Call) :
  effects (t1 ++ t2) = effects t1 ++ effects t2.
Proof.
  induction t1 as [| c rest IH]; [reflexivity |].
  destruct c; cbn; rewrite ?IH; reflexivity.
Qed.

Lemma effects_map_effect (t : Trace) : effects (map effect t) = t.
Proof. induction t as [| e rest IH]; cbn; [reflexivity | now rewrite IH]. Qed.

(** X10. The receiver's start-up has two outcomes.  When the URL
    parses, the connection succeeds, both elements are created and the
    pipeline starts, the globals are exactly those of a started session
    and nothing has been closed, stopped or quit.  In every other case
    the session ends torn down: the run loop is quit exactly once, loop
    and pipeline are NULL and the connection is not open.  The process
    status is 0 either way, and 1 only when the command line does not
    parse.  One failure leaves a handle behind: when the pipeline cannot
    be created but webrtcbin can, [webrtc] stays set after the
    teardown. *)
Theorem receiver_start_up (options : string + Config) (message_ok : bool)
  (error : option string) (env : ReceiverStart.StartEnv) :
  let '(code, g, t) := receiver_boot options message_ok error env in
  match options with
  | inl _ =>
      code = 1 /\ loop g = false /\ effects t <> [] /\
      filter observable (effects t) = []
  | inr _ =>
      code = 0 /\
      if message_ok && receiver_start_ok error env then
        g = Receiver.globals (Receiver.state Receiver.started) /\
        filter observable (effects t) = []
      else
        loop g = false /\ pipep g = false /\ ws_open g = false /\
        count is_quit (effects t) = 1%nat /\
        webrtc g = message_ok && is_none error &&
                   negb (ReceiverStart.pipeline_new env) &&
                   ReceiverStart.factory_make env
  end.
Proof.
  destruct env as [pn fm ret].
  destruct options as [message | cfg];
    [cbn; repeat split; discriminate |].
  destruct message_ok, error as [message |], pn, fm, ret;
    cbn; repeat split; reflexivity.
Qed.

(** X11. The sender's start-up has the same two outcomes.  When the URL
    parses, the connection succeeds, the pipeline description parses to
    a bin that holds "sendrecv" and the pipeline starts, the globals are
    exactly those of a started session and nothing has been closed,
    stopped or quit.  In every other case the run loop is quit exactly
    once, loop, pipeline and media engine are NULL and the connection is
    not open.  The connection handle itself is not always cleared: when
    the failure comes after the connection was established, [ws_conn]
    still points to the connection, now closing; it is NULL only when
    the connection was never made.  The status is 1 only when the
    command line does not parse. *)
Theorem sender_start_up (options : string + Config) (message_ok : bool)
  (error : option string) (env : SenderStart.StartEnv) :
  let '(code, g, t) := sender_boot options message_ok error env in
  match options with
  | inl _ =>
      code = 1 /\ loop g = false /\ effects t <> [] /\
      filter observable (effects t) = []
  | inr _ =>
      code = 0 /\
      if message_ok && sender_start_ok error env then
        g = Sender.state Sender.started /\
        filter observable (effects t) = []
      else
        dead g /\ count is_quit (effects t) = 1%nat /\
        ws_conn g = (if message_ok && is_none error
                     then Some SOUP_WEBSOCKET_STATE_CLOSING else None) /\
        count is_close (effects t)
        = b2n (message_ok && is_none error)
  end.
Proof.
  destruct env as [launched lerr bn ret].
  destruct options as [message | cfg];
    [cbn; repeat split; discriminate |].
  destruct message_ok, error as [message |], launched as [[ | ] |],
    lerr as [lmsg |], bn, ret;
    cbn; unfold dead, ws_open; cbn; repeat split; reflexivity.
Qed.

Lemma on_incoming_stream_bin_add (pad : Receiver.GstPad) (a : Receiver.Attach)
  (s : Receiver.State) :
  Receiver.video_chain_built s = false ->
  matches_policy pad = true ->
  count is_bin_add (snd (Receiver.on_incoming_stream pad a s))
  = b2n (bin_added a).
Proof.
  intros Hnot Hmatch. unfold matches_policy in Hmatch.
  apply andb_true_iff in Hmatch. destruct Hmatch as [Hsrc Hcaps].
  unfold Receiver.on_incoming_stream, bin_added, count.
  rewrite Hsrc, Hnot. cbn [negb].
  destruct (Receiver.current_caps pad) as [st |]; [| discriminate].
  rewrite Hcaps. cbn [negb].
  destruct (Receiver.parse_err a) as [message |]; [reflexivity |].
  destruct (Receiver.rxbin a); cbn [negb]; [| reflexivity].
  destruct (Receiver.sinkpad a); cbn [negb];
    [destruct (Z.eqb (Receiver.link_ret a) Receiver.GST_PAD_LINK_OK) |];
    cbn [negb fst snd];
    rewrite ?filter_app, ?filter_tune_depay, ?filter_tune_vsink
      by reflexivity;
    reflexivity.
Qed.

(** X12. An attach attempt that fails after the bin was built is not
    undone: the bin has been added to the pipeline and stays there.  Over
    a run of accepted notifications none of which succeeds, the number of
    [gst_bin_add] calls is the number of attempts whose bin could be
    built, and the session still has no chain. *)
Theorem failed_attempts_leave_bins
  (ns : list (Receiver.GstPad * Receiver.Attach)) (s : Receiver.State) :
  Receiver.video_chain_built s = false ->
  Forall (fun n => matches_policy (fst n) = true) ns ->
  Forall (fun n => attach_succeeds (snd n) = false) ns ->
  count is_bin_add (snd (notify ns s))
  = List.length (filter (fun n => bin_added (snd n)) ns) /\
  Receiver.video_chain_built (fst (notify ns s)) = false.
Proof.
  revert s.
  induction ns as [| [pad a] rest IH]; intros s Hnot Hmatch Hfail.
  - split; [reflexivity | exact Hnot].
  - inversion Hmatch as [| ? ? Hm Hmatch']; subst.
    inversion Hfail as [| ? ? Hf Hfail']; subst.
    cbn [fst snd] in Hm, Hf.
    pose proof (on_incoming_stream_bin_add pad a s Hnot Hm) as Hone.
    destruct (on_incoming_stream_attempt pad a s Hnot Hm) as (Hflag & _).
    rewrite Hf in Hflag.
    cbn [notify filter snd].
    destruct (Receiver.on_incoming_stream pad a s) as [s1 t1].
    cbn [fst snd] in *.
    destruct (IH s1 Hflag Hmatch' Hfail') as (IHcount & IHflag).
    destruct (notify rest s1) as [s2 t2]. cbn [fst snd] in *.
    split; [| exact IHflag].
    rewrite count_app, Hone, IHcount.
    destruct (bin_added a); reflexivity.
Qed.

Lemma failed_attempts_leave_bins_witness :
  count is_bin_add
    (snd (notify [(rtp_h264_pad, attach_link_fails);
                  (rtp_h264_pad, attach_link_fails)]
            (Receiver.state Receiver.started))) = 2%nat.
Proof.
  apply (failed_attempts_leave_bins
           [(rtp_h264_pad, attach_link_fails);
            (rtp_h264_pad, attach_link_fails)]
           (Receiver.state Receiver.started) eq_refl);
    repeat constructor.
Defined.

(** ** The example client *)

(** X14. The example client sends one frame in its whole life, the
    greeting, and only when the connection succeeded; nothing it receives
    makes it send again.  It stops its loop once when the connection
    fails, and otherwise once per "closed" signal: a message or an error
    never stops it. *)
Theorem example_client_run (failure : option string)
  (es : list ExampleClient.Event) :
  filter ExampleClient.is_send (ExampleClient.run failure es)
  = match failure with
    | Some _ => []
    | None =>
        [ExampleClient.soup_websocket_connection_send_text
           "Hello from libsoup client"]
    end /\
  List.length (filter ExampleClient.is_quit (ExampleClient.run failure es))
  = match failure with
    | Some _ => 1%nat
    | None => List.length (filter ExampleClient.is_closed es)
    end.
Proof.
  destruct failure as [message |]; [split; reflexivity |].
  unfold ExampleClient.run. rewrite !filter_app.
  cbn [ExampleClient.on_connect_finished filter ExampleClient.is_send
       ExampleClient.is_quit app].
  induction es as [| e rest [IHs IHq]]; [split; reflexivity |].
  cbn [flat_map]. rewrite !filter_app.
  assert (He : filter ExampleClient.is_send (ExampleClient.dispatch e) = [] /\
               filter ExampleClient.is_quit (ExampleClient.dispatch e)
               = if ExampleClient.is_closed e
                 then [ExampleClient.g_main_loop_quit] else []).
  { destruct e as [ty size data | |]; cbn;
      [| split; reflexivity | split; reflexivity].
    unfold ExampleClient.on_ws_message.
    destruct (Z.eqb ty ExampleClient.SOUP_WEBSOCKET_DATA_TEXT);
      [split; reflexivity |].
    destruct (Z.eqb ty ExampleClient.SOUP_WEBSOCKET_DATA_BINARY);
      split; reflexivity. }
  destruct He as (Hes & Heq). rewrite Hes, Heq. cbn [app filter].
  split; [exact IHs |].
  cbn [filter]. destruct (ExampleClient.is_closed e); cbn [app List.length];
    [now rewrite IHq | exact IHq].
Qed.

(** ** One offer/answer exchange *)

(** X13. The two programs complete an exchange between them.  The
    sender, on "on-negotiation-needed" and the offer the media engine
    creates, sets it as local description and sends one frame.  The
    receiver, given that frame, sets the same offer as remote
    description, asks for an answer on completion, sets the answer it is
    given as local description and sends one frame.  The sender, given
    that frame, sets the same answer as remote description and sends
    nothing more.  Both end with no promise outstanding. *)
Theorem offer_answer_exchange `{JsonLib} (offer_text answer_text : string) :
  let offer := {| type := GST_WEBRTC_SDP_TYPE_OFFER; sdp := offer_text |} in
  let answer := {| type := GST_WEBRTC_SDP_TYPE_ANSWER; sdp := answer_text |} in
  json_parser_load_from_data (g_strndup (encode (SdpMessage offer)))
  = Some (JSON_OBJECT (encode_object (SdpMessage offer))) ->
  json_parser_load_from_data (g_strndup (encode (SdpMessage answer)))
  = Some (JSON_OBJECT (encode_object (SdpMessage answer))) ->
  exists t_offer t_answer t_done,
    Sender.run (sender_offers offer) Sender.started
    = Some (Sender.started, t_offer) /\
    sent t_offer = [encode (SdpMessage offer)] /\
    filter is_media_engine_call t_offer
    = [emit_create_offer cb_on_offer_created;
       emit_set_local_description (Some offer)] /\
    Receiver.run
      (receiver_answers (encode (SdpMessage offer)) answer) Receiver.started
    = Some (Receiver.started, t_answer) /\
    sent t_answer = [encode (SdpMessage answer)] /\
    filter is_media_engine_call t_answer
    = [emit_set_remote_description offer cb_on_offer_set;
       emit_create_answer cb_on_answer_created;
       emit_set_local_description (Some answer)] /\
    Sender.run
      [Sender.ev_message SOUP_WEBSOCKET_DATA_TEXT (encode (SdpMessage answer))]
      Sender.started
    = Some (Sender.started, t_done) /\
    sent t_done = [] /\
    filter is_media_engine_call t_done
    = [emit_set_remote_description answer no_change_func].
Proof.
  intros offer answer Hoffer Hanswer.
  assert (Hdo : decode (encode (SdpMessage offer)) = Some (SdpMessage offer))
    by (apply decode_encoded_object; [left; reflexivity | exact Hoffer]).
  assert (Hda : decode (encode (SdpMessage answer))
                = Some (SdpMessage answer))
    by (apply decode_encoded_object; [right; reflexivity | exact Hanswer]).
  eexists _, _, _.
  split; [reflexivity |].
  split; [reflexivity |].
  split; [reflexivity |].
  split.
  { unfold receiver_answers. cbn [Receiver.run]. unfold Receiver.step.
    cbn [Receiver.enabled Receiver.dispatch].
    rewrite (receiver_handles_decoded _ _ _ Hdo).
    cbn. reflexivity. }
  split; [reflexivity |].
  split; [reflexivity |].
  split.
  { cbn [Sender.run]. unfold Sender.step.
    cbn [Sender.enabled Sender.dispatch].
    rewrite (sender_handles_decoded _ _ _ Hda).
    cbn. reflexivity. }
  split; reflexivity.
Qed.

Lemma offer_answer_exchange_witness :
  exists t_answer,
    @Receiver.run RefJson.lib
      (receiver_answers (@encode RefJson.lib offer_v0)
         {| type := GST_WEBRTC_SDP_TYPE_ANSWER; sdp := "v=0" |})
      Receiver.started
    = Some (Receiver.started, t_answer) /\
    sent t_answer = [@encode RefJson.lib answer_v0].
Proof.
  destruct (@offer_answer_exchange RefJson.lib "v=0" "v=0")
    as (t_offer & t_answer & t_done & _ & _ & _ & Hrun & Hsent & _).
  - vm_compute. reflexivity.
  - vm_compute. reflexivity.
  - exists t_answer. split; [exact Hrun | exact Hsent].
Defined.

(** ** Frames answer local events only *)

Lemma receiver_dispatch_sends `{JsonLib} (e : Receiver.Event)
  (s s' : Receiver.State) (t : Trace) :
  Receiver.dispatch e s = Some (s', t) ->
  (count is_send_text t <= b2n (receiver_local e))%nat.
Proof.
  intros Hd. destruct e; cbn [Receiver.dispatch] in Hd.
  - unfold Receiver.handle_server_message, emit in Hd.
    break_match_hyp Hd; try discriminate; injection Hd as <- <-;
      cbn; lia.
  - injection Hd as Hd. unfold Receiver.on_server_closed in Hd.
    destruct (Receiver.globals (Receiver.connection_closed s))
      as [l p w ws].
    revert Hd.
    destruct l, p, w, ws as [[ | | ] |]; cbn; intros Hd;
      injection Hd as <- <-; cbn; lia.
  - injection Hd as Hd.
    pose proof (filter_on_incoming_stream is_send_text pad a s) as Ht.
    rewrite Hd in Ht. cbn [snd] in Ht. unfold count.
    rewrite Ht by (intros [] Hp; try discriminate; reflexivity).
    cbn. lia.
  - injection Hd as <- <-. unfold send_ice_candidate.
    destruct (ws_open (Receiver.globals s)); cbn; lia.
  - injection Hd as <- <-. unfold emit. destruct (webrtc _); cbn; lia.
  - unfold Receiver.on_answer_created, send_sdp in Hd.
    break_match_hyp Hd; try discriminate; injection Hd as <- <-;
      unfold emit; destruct (webrtc _); cbn; lia.
Qed.

Lemma sender_dispatch_sends `{JsonLib} (e : Sender.Event)
  (s s' : Sender.State) (t : Trace) :
  Sender.dispatch e s = Some (s', t) ->
  (count is_send_text t <= b2n (sender_local e))%nat.
Proof.
  intros Hd. destruct e; cbn [Sender.dispatch] in Hd.
  - unfold Sender.handle_server_message, emit in Hd.
    break_match_hyp Hd; try discriminate; injection Hd as <- <-;
      cbn; lia.
  - injection Hd as Hd. unfold Sender.on_server_closed in Hd.
    destruct (Sender.connection_closed s) as [l p w ws].
    revert Hd.
    destruct l, p, w, ws as [[ | | ] |]; cbn; intros Hd;
      injection Hd as <- <-; cbn; lia.
  - injection Hd as <- <-. unfold Sender.on_negotiation_needed, emit.
    destruct (webrtc _); cbn; lia.
  - injection Hd as <- <-. unfold send_ice_candidate.
    destruct (ws_open s); cbn; lia.
  - unfold Sender.on_offer_created, send_sdp in Hd.
    break_match_hyp Hd; try discriminate; injection Hd as <- <-;
      unfold emit; destruct (webrtc _); cbn; lia.
Qed.

(** X15. Neither program ever answers a frame with a frame.  Along any
    run of callbacks, the frames sent are at most the local events in it:
    the candidates the media engine reports and the descriptions it
    creates.  Received messages, stream notifications, completed
    remote-description promises and the "closed" signal send nothing. *)
Theorem frames_only_for_local_events `{JsonLib} :
  (forall (es : list Receiver.Event) (w w' : Receiver.World) (t : Trace),
      Receiver.run es w = Some (w', t) ->
      (List.length (sent t) <= List.length (filter receiver_local es))%nat) /\
  (forall (es : list Sender.Event) (w w' : Sender.World) (t : Trace),
      Sender.run es w = Some (w', t) ->
      (List.length (sent t) <= List.length (filter sender_local es))%nat).
Proof.
  assert (Hlen : forall t, List.length (sent t) = count is_send_text t).
  { induction t as [| e rest IH]; [reflexivity |].
    destruct e; cbn; rewrite ?IH; reflexivity. }
  split.
  - induction es as [| e rest IH]; intros w w' t Hrun.
    + cbn in Hrun. injection Hrun as <- <-. cbn. lia.
    + cbn [Receiver.run] in Hrun.
      destruct (Receiver.step e w) as [[w1 t1] |] eqn:Hstep;
        [| discriminate].
      destruct (Receiver.run rest w1) as [[w2 t2] |] eqn:Hrest;
        [| discriminate].
      injection Hrun as <- <-.
      unfold Receiver.step in Hstep.
      destruct (Receiver.enabled e w); [| discriminate].
      destruct (Receiver.dispatch e (Receiver.state w))
        as [[s1 t1'] |] eqn:Hd; [| discriminate].
      injection Hstep as <- <-.
      pose proof (receiver_dispatch_sends e _ _ _ Hd) as H1.
      pose proof (IH _ _ _ Hrest) as H2.
      rewrite sent_app, length_app, !Hlen in *.
      cbn [filter]. destruct (receiver_local e); cbn in *; lia.
  - induction es as [| e rest IH]; intros w w' t Hrun.
    + cbn in Hrun. injection Hrun as <- <-. cbn. lia.
    + cbn [Sender.run] in Hrun.
      destruct (Sender.step e w) as [[w1 t1] |] eqn:Hstep;
        [| discriminate].
      destruct (Sender.run rest w1) as [[w2 t2] |] eqn:Hrest;
        [| discriminate].
      injection Hrun as <- <-.
      unfold Sender.step in Hstep.
      destruct (Sender.enabled e w); [| discriminate].
      destruct (Sender.dispatch e (Sender.state w))
        as [[s1 t1'] |] eqn:Hd; [| discriminate].
      injection Hstep as <- <-.
      pose proof (sender_dispatch_sends e _ _ _ Hd) as H1.
      pose proof (IH _ _ _ Hrest) as H2.
      rewrite sent_app, length_app, !Hlen in *.
      cbn [filter]. destruct (sender_local e); cbn in *; lia.
Qed.

(** ** Signal wiring *)

(** X16. The callbacks a program installs during start-up are exactly
    these: "message" and "closed" on the connection once it is
    established, then the two media-engine signals once the elements
    exist ("on-ice-candidate" and "pad-added" in the receiver,
    "on-negotiation-needed" and "on-ice-candidate" in the sender).
    [on_accept_certificate] is never installed, and start-up is the same
    whatever [disable_ssl] holds: the flag has no effect. *)
Theorem signal_wiring (url : string) (d d' : bool) (message_ok : bool)
  (error : option string) (renv : ReceiverStart.StartEnv)
  (senv : SenderStart.StartEnv) :
  let cfg := {| server_url := url; disable_ssl := d |} in
  let cfg' := {| server_url := url; disable_ssl := d' |} in
  receiver_boot (inr cfg) message_ok error renv
  = receiver_boot (inr cfg') message_ok error renv /\
  sender_boot (inr cfg) message_ok error senv
  = sender_boot (inr cfg') message_ok error senv /\
  connected (snd (receiver_boot (inr cfg) message_ok error renv))
  = (if message_ok && is_none error then
       [("ws_conn", "message", "handle_server_message");
        ("ws_conn", "closed", "on_server_closed")] ++
       (if ReceiverStart.pipeline_new renv && ReceiverStart.factory_make renv
        then [("webrtc", "on-ice-candidate", "send_ice_candidate");
              ("webrtc", "pad-added", "on_incoming_stream")]
        else [])
     else []) /\
  connected (snd (sender_boot (inr cfg) message_ok error senv))
  = (if message_ok && is_none error then
       [("ws_conn", "message", "handle_server_message");
        ("ws_conn", "closed", "on_server_closed")] ++
       (if is_none (SenderStart.launch_error senv) &&
           SenderStart.GST_IS_BIN (SenderStart.launched senv) &&
           SenderStart.by_name senv
        then [("webrtc", "on-negotiation-needed", "on_negotiation_needed");
              ("webrtc", "on-ice-candidate", "send_ice_candidate")]
        else [])
     else []).
Proof.
  destruct renv as [pn fm rret], senv as [launched lerr bn sret].
  cbv zeta.
  split; [reflexivity | split; [reflexivity | split]].
  - destruct message_ok, error as [message |], pn, fm, rret; reflexivity.
  - destruct message_ok, error as [message |], launched as [[ | ] |],
      lerr as [lmsg |], bn, sret; reflexivity.
Qed.
